(** * auto-editor: the command-line driver [auto_editor/__main__.py]

    A shallow embedding of [main]: input resolution, output naming, the
    frame-rate probe and its repair, the choice among the four processing
    strategies, and the end-of-run check and cleanup.

    Python values are modelled as follows.
    - [str] is [string]; a character is an [ascii] (code points below 256).
    - [float] is the kernel's binary64 [float], so comparisons behave as
      Python's do, NaN and signed zeros included.
    - [int] is [Z]; indices and slice bounds are [Z] because [str.rfind]
      returns [-1] and slices accept negative bounds.
    - [None]-able values are [option].
    - Exceptions, [sys.exit] and calls that leave the process (subprocesses,
      the file system, the strategy modules) live in the monad [M] below. *)

From Stdlib Require Import ZArith List String Ascii Bool Lia Floats.
From Stdlib Require Import Sorted Permutation.
Import ListNotations.

Set Warnings "-inexact-float".
Local Open Scope string_scope.
Local Open Scope Z_scope.

(** ** Python string operations used by [main] *)

Module PyStr.

Definition len (s : string) : Z := Z.of_nat (String.length s).

(** [s.rfind(c)] for a one-character needle: the highest index holding
    [c], or [-1]. *)
Fixpoint rfind (c : ascii) (s : string) : Z :=
  match s with
  | EmptyString => -1
  | String a s' =>
      let r := rfind c s' in
      if 0 <=? r then r + 1
      else if Ascii.eqb a c then 0 else -1
  end.

Fixpoint take (n : nat) (s : string) : string :=
  match n, s with
  | S n', String a s' => String a (take n' s')
  | _, _ => EmptyString
  end.

Fixpoint drop (n : nat) (s : string) : string :=
  match n, s with
  | S n', String _ s' => drop n' s'
  | _, _ => s
  end.

(** How a slice bound is resolved against a sequence of length [l]:
    a negative bound counts from the end, and the result is clipped to
    [0 .. l]. *)
Definition bound (l i : Z) : nat :=
  Z.to_nat (if i <? 0 then Z.max 0 (i + l) else Z.min i l).

(** [s[:i]] *)
Definition slice_to (s : string) (i : Z) : string :=
  take (bound (len s) i) s.

(** [s[i:]] *)
Definition slice_from (s : string) (i : Z) : string :=
  drop (bound (len s) i) s.

(** [c in s] for a one-character needle. *)
Fixpoint contains (c : ascii) (s : string) : bool :=
  match s with
  | EmptyString => false
  | String a s' => Ascii.eqb a c || contains c s'
  end.

(** [s.startswith(p)] *)
Definition startswith (p s : string) : bool := String.prefix p s.

End PyStr.

(** ** Output Namer: the name given to an input that has none (lines 175-181) *)

Definition dot : ascii := "."%char.

(** One pass of the body of the naming loop, for the input [oldFile]:
    the value appended to [args.output_file]. *)
Definition derived_name (export_to_premiere : bool) (oldFile : string) : string :=
  let dotIndex := PyStr.rfind dot oldFile in
  if export_to_premiere then
    PyStr.slice_to oldFile dotIndex ++ ".xml"
  else
    let end_ := "_ALTERED" ++ PyStr.slice_from oldFile dotIndex in
    PyStr.slice_to oldFile dotIndex ++ end_.

(** ** Regular expressions and number parsing used by [main] *)

Module PyRe.

Definition code (c : ascii) : N := N_of_ascii c.

Definition between (lo hi : N) (c : ascii) : bool :=
  (N.leb lo (code c) && N.leb (code c) hi)%bool.

(** [\s] of a [str] pattern, on code points below 256. *)
Definition is_space (c : ascii) : bool :=
  between 9 13 c || between 28 32 c
  || N.eqb (code c) 133 || N.eqb (code c) 160.

(** [\d] of a [str] pattern, on code points below 256. *)
Definition is_digit (c : ascii) : bool := between 48 57 c.

(** [\w] of a [str] pattern, on code points below 256: alphanumeric
    characters and the underscore. *)
Definition is_word (c : ascii) : bool :=
  is_digit c || between 65 90 c || between 97 122 c || N.eqb (code c) 95
  || N.eqb (code c) 170 || between 178 179 c || N.eqb (code c) 181
  || between 185 186 c || between 188 190 c
  || between 192 214 c || between 216 246 c || between 248 255 c.

(** [[\d\.]] *)
Definition is_fps_char (c : ascii) : bool := is_digit c || Ascii.eqb c ".".

(** The longest prefix of [s] made of [p]-characters, and what follows. *)
Fixpoint span (p : ascii -> bool) (s : string) : string * string :=
  match s with
  | String c s' =>
      if p c then let (run, rest) := span p s' in (String c run, rest)
      else (EmptyString, s)
  | EmptyString => (EmptyString, EmptyString)
  end.

(** A match of [\s(?P<fps>[\d\.]+?)\stbr] that starts at the head of [s];
    the result is the group [fps].  The class [[\d\.]] and [\s] are
    disjoint, so the lazy group can only end where the run of digits and
    dots ends: the match exists exactly when that run is not empty and is
    followed by a whitespace character and [tbr]. *)
Definition match_tbr_here (s : string) : option string :=
  match s with
  | String c s' =>
      if is_space c then
        match span is_fps_char s' with
        | (String _ _ as fps, String c2 rest) =>
            if (is_space c2 && String.prefix "tbr" rest)%bool
            then Some fps else None
        | _ => None
        end
      else None
  | EmptyString => None
  end.

(** [re.search(r'\s(?P<fps>[\d\.]+?)\stbr', s)]: the leftmost match, as
    the value of its group [fps]; [None] when there is no match. *)
Fixpoint search_tbr (s : string) : option string :=
  match match_tbr_here s with
  | Some fps => Some fps
  | None =>
      match s with
      | String _ s' => search_tbr s'
      | EmptyString => None
      end
  end.

Fixpoint count (p : ascii -> bool) (s : string) : nat :=
  match s with
  | String c s' => ((if p c then 1 else 0) + count p s')%nat
  | EmptyString => 0%nat
  end.

(** Whether [float(tok)] returns, for a token of digits and dots (the
    only tokens the group [fps] can hold): it does when the token has a
    digit and at most one dot, and raises [ValueError] otherwise. *)
Definition float_accepts (tok : string) : bool :=
  (Nat.leb 1 (count is_digit tok)
   && Nat.leb (count (fun c => Ascii.eqb c ".") tok) 1)%bool.

(** [re.sub(r'\W+', '-', s)]: every maximal run of non-word characters
    becomes one dash.  [in_run] tells that the previous character was
    already part of such a run. *)
Fixpoint sub_nonword (in_run : bool) (s : string) : string :=
  match s with
  | String c s' =>
      if is_word c then String c (sub_nonword false s')
      else if in_run then sub_nonword true s'
      else String "-" (sub_nonword true s')
  | EmptyString => EmptyString
  end.

End PyRe.

(** ** The parsed command line *)

(** The [argparse] namespace [args], one field per option of [main]. *)
Record Args := mkArgs {
  input : list string;
  frame_margin : Z;
  silent_threshold : float;
  video_speed : float;
  silent_speed : float;
  output_file : option (list string);
  no_open : bool;
  zoom_threshold : float;
  combine_files : bool;
  hardware_accel : option string;
  sample_rate : Z;
  audio_bitrate : string;
  background_music : option string;
  background_volume : float;
  cut_by_this_audio : option string;
  cut_by_this_track : Z;
  cut_by_all_tracks : bool;
  keep_tracks_seperate : bool;
  clear_cache : bool;
  my_ffmpeg : bool;
  version_flag : bool;
  debug : bool;
  preview_flag : bool;
  export_to_premiere : bool
}.

(** [args.silent_speed = v] *)
Definition set_silent_speed (v : float) (a : Args) : Args :=
  mkArgs (input a) (frame_margin a) (silent_threshold a) (video_speed a) v
    (output_file a) (no_open a) (zoom_threshold a) (combine_files a)
    (hardware_accel a) (sample_rate a) (audio_bitrate a) (background_music a)
    (background_volume a) (cut_by_this_audio a) (cut_by_this_track a)
    (cut_by_all_tracks a) (keep_tracks_seperate a) (clear_cache a)
    (my_ffmpeg a) (version_flag a) (debug a) (preview_flag a)
    (export_to_premiere a).

(** [args.video_speed = v] *)
Definition set_video_speed (v : float) (a : Args) : Args :=
  mkArgs (input a) (frame_margin a) (silent_threshold a) v (silent_speed a)
    (output_file a) (no_open a) (zoom_threshold a) (combine_files a)
    (hardware_accel a) (sample_rate a) (audio_bitrate a) (background_music a)
    (background_volume a) (cut_by_this_audio a) (cut_by_this_track a)
    (cut_by_all_tracks a) (keep_tracks_seperate a) (clear_cache a)
    (my_ffmpeg a) (version_flag a) (debug a) (preview_flag a)
    (export_to_premiere a).

(** The list object [args.output_file] after an [append]. *)
Definition set_output_file (v : option (list string)) (a : Args) : Args :=
  mkArgs (input a) (frame_margin a) (silent_threshold a) (video_speed a)
    (silent_speed a) v (no_open a) (zoom_threshold a) (combine_files a)
    (hardware_accel a) (sample_rate a) (audio_bitrate a) (background_music a)
    (background_volume a) (cut_by_this_audio a) (cut_by_this_track a)
    (cut_by_all_tracks a) (keep_tracks_seperate a) (clear_cache a)
    (my_ffmpeg a) (version_flag a) (debug a) (preview_flag a)
    (export_to_premiere a).

(** The values [argparse] gives when only the inputs are named on the
    command line.  [--output_file] has no default, so it is [None]. *)
Definition default_args (inputs : list string) : Args :=
  mkArgs inputs 4 0.04%float 1%float 99999%float None false 1.01%float false
    None 48000 "160k" None (-8)%float None 0 false false false false false
    false false false.

(** ** Speed options (lines 146-149) *)

(** [x <= 0 or x > 99999] *)
Definition speed_out_of_range (x : float) : bool :=
  (PrimFloat.leb x 0 || PrimFloat.ltb 99999 x)%bool.

Definition clamp_speed (x : float) : float :=
  if speed_out_of_range x then 99999%float else x.

Definition clamp_speeds (args : Args) : Args :=
  let args :=
    if speed_out_of_range (silent_speed args)
    then set_silent_speed 99999%float args else args in
  if speed_out_of_range (video_speed args)
  then set_video_speed 99999%float args else args.

(** ** Strategy Selector (the branches of lines 207-266) *)

Inductive StrategyChoice := PremiereExport | AudioFast | VideoFast | OriginalFull.

Definition is_None {A} (o : option A) : bool :=
  match o with None => true | Some _ => false end.

(** The test of line 249: no background music, zoom threshold above [1],
    no audio file to cut by. *)
Definition fast_video_ok (args : Args) : bool :=
  (is_None (background_music args)
   && PrimFloat.ltb 1 (zoom_threshold args)
   && is_None (cut_by_this_audio args))%bool.

(** Which strategy the loop body reaches for an input, given whether
    [isAudioFile] holds of it. *)
Definition select_strategy (args : Args) (audio : bool) : StrategyChoice :=
  if export_to_premiere args then PremiereExport
  else if audio then AudioFast
  else if fast_video_ok args then VideoFast
  else OriginalFull.

(** The decision as section 4.4 of the specification words it: VideoFast
    when the zoom threshold does not exceed the sounded-volume threshold
    ([--silent_threshold], the volume a frame must surpass to count as
    sounded). *)
Definition select_strategy_as_specified (args : Args) (audio : bool)
  : StrategyChoice :=
  if export_to_premiere args then PremiereExport
  else if audio then AudioFast
  else if (is_None (background_music args)
           && is_None (cut_by_this_audio args)
           && negb (PrimFloat.ltb (silent_threshold args) (zoom_threshold args)))%bool
       then VideoFast
  else OriginalFull.

(** ** Effects *)

(** The exceptions that [main] can meet.  [OtherError] stands for whatever
    else a call outside [main] may raise. *)
Inductive exn :=
| NameError (name : string)
| TypeError
| ValueError
| AttributeError
| IndexError
| OtherError (what : string).

Definition is_AttributeError (e : exn) : bool :=
  match e with AttributeError => true | _ => false end.

(** How a computation ends: with a value, with [sys.exit(status)], or with
    an exception on its way up. *)
Inductive Res (A : Type) :=
| Ret (a : A)
| Exit (status : Z)
| Raise (e : exn).
Arguments Ret {A} a.
Arguments Exit {A} status.
Arguments Raise {A} e.

(** How a call into the standard library ends: with a value or with an
    exception. *)
Inductive Try (A : Type) :=
| Done (a : A)
| Fails (e : exn).
Arguments Done {A} a.
Arguments Fails {A} e.

Definition res_of_try {A} (t : Try A) : Res A :=
  match t with
  | Done a => Ret a
  | Fails e => Raise e
  end.

(** The exit status of the process when [main] ends with [r]: an exception
    that nothing catches ends the interpreter with status [1]. *)
Definition exit_status {A} (r : Res A) : Z :=
  match r with
  | Ret _ => 0
  | Exit status => status
  | Raise _ => 1
  end.

(** The positional arguments of the four strategy calls, as [main] passes
    them (lines 210, 217, 254 and 261). *)
Inductive Call :=
| exportToPremiere (ffmpeg INPUT_FILE newOutput : string)
    (silent_threshold zoom_threshold : float) (frame_margin sample_rate : Z)
    (video_speed silent_speed : float)
| fastAudio (ffmpeg INPUT_FILE newOutput : string) (silent_threshold : float)
    (frame_margin sample_rate : Z) (audio_bitrate : string) (debug : bool)
    (silent_speed video_speed : float) (last : bool)
| fastVideo (ffmpeg INPUT_FILE newOutput : string) (silent_threshold : float)
    (frame_margin sample_rate : Z) (audio_bitrate : string) (debug : bool)
    (video_speed silent_speed : float) (cut_by_this_track : Z)
    (keep_tracks_seperate : bool)
| originalMethod (ffmpeg INPUT_FILE newOutput : string) (frame_margin : Z)
    (silent_threshold zoom_threshold : float) (sample_rate : Z)
    (audio_bitrate : string) (silent_speed video_speed : float)
    (keep_tracks_seperate : bool) (background_music : option string)
    (background_volume : float) (cut_by_this_audio : option string)
    (cut_by_this_track : Z) (cut_by_all_tracks debug : bool)
    (hardware_accel : option string) (cache : string).

Definition strategy_of (c : Call) : StrategyChoice :=
  match c with
  | exportToPremiere _ _ _ _ _ _ _ _ _ => PremiereExport
  | fastAudio _ _ _ _ _ _ _ _ _ _ _ => AudioFast
  | fastVideo _ _ _ _ _ _ _ _ _ _ _ _ => VideoFast
  | originalMethod _ _ _ _ _ _ _ _ _ _ _ _ _ _ _ _ _ _ _ => OriginalFull
  end.

(** The input path a strategy call is given. *)
Definition input_of (c : Call) : string :=
  match c with
  | exportToPremiere _ i _ _ _ _ _ _ _ => i
  | fastAudio _ i _ _ _ _ _ _ _ _ _ => i
  | fastVideo _ i _ _ _ _ _ _ _ _ _ _ => i
  | originalMethod _ i _ _ _ _ _ _ _ _ _ _ _ _ _ _ _ _ _ => i
  end.

(** The arguments of [preview(...)] (line 197). *)
Record PreviewCall := mkPreview {
  pv_ffmpeg : string; pv_INPUT_FILE : string;
  pv_silent_threshold : float; pv_zoom_threshold : float;
  pv_frame_margin : Z; pv_sample_rate : Z;
  pv_video_speed : float; pv_silent_speed : float;
  pv_cut_by_this_track : Z; pv_audio_bitrate : string; pv_cache : string
}.

(** What [main] does that can be observed from outside, in order. *)
Inductive Event :=
| EPrint (line : string)
| ETook (startTime endTime : float)     (* the report of lines 269-271 *)
| EListdir (dir : string)
| ECall (cmd : list string)             (* subprocess.call(cmd) *)
| EPopen (cmd : list string)            (* subprocess.Popen(cmd) and communicate() *)
| EMkdtemp (dir : string)
| ERmtree (dir : string)
| EWrite (file contents : string)
| ERemove (file : string)
| EStartfile (file : string)
| EPreview (c : PreviewCall)
| EStrategy (c : Call).

(** The machine and the modules [main] runs against.  [World] is the state
    outside the process.  A call into the standard library may change it
    and may raise; a call into another module of the package may also end
    in a [sys.exit] of its own. *)
Record OS := mkOS {
  World : Type;
  (* os.path, platform, sys, time *)
  isfile : World -> string -> bool;
  isdir : World -> string -> bool;
  path_join : string -> string -> string;
  platform_system : string;
  python_version : string;
  maxsize_above_2_32 : bool;
  dirPath : string;                      (* the directory of __main__.py *)
  has_startfile : bool;                  (* whether [os] has [startfile] *)
  time : World -> float;
  (* os, shutil, tempfile, subprocess, open *)
  listdir : string -> World -> Try (list string) * World;
  call : list string -> World -> Try Z * World;
  popen_output : list string -> World -> Try string * World;
  mkdtemp : World -> Try string * World;
  rmtree : string -> World -> Try unit * World;
  write_file : string -> string -> World -> Try unit * World;
  remove : string -> World -> Try unit * World;
  startfile : string -> World -> Try unit * World;
  (* usefulFunctions, preview, premiere, fastAudio, fastVideo, originalMethod *)
  isAudioFile : string -> bool;
  preview : PreviewCall -> World -> Res unit * World;
  strategy : Call -> World -> Res unit * World
}.

(** The names [main] reads but never assigns: [sort] (line 157),
    [newOutput] (lines 210-261), [extension] (lines 240 and 244) and
    [outFile] (lines 273-285).  Python looks such a name up in the module's
    globals and then in the builtins when the line runs, and raises
    [NameError] when it is bound in neither.  [None] is an unbound name. *)
Record Globals := mkGlobals {
  g_sort : option (list string -> list string);
  g_newOutput : option string;
  g_extension : option string;
  g_outFile : option string
}.

(** The namespace of the module as it stands: it defines [version],
    [file_type], [float_type], [sample_rate_type] and [main], and no
    builtin is called [sort], [newOutput], [extension] or [outFile]. *)
Definition shipped : Globals := mkGlobals None None None None.

Section Program.

Context (os : OS) (g : Globals).

Record St := mkSt { world : World os; log : list Event }.

Definition M (A : Type) : Type := St -> Res A * St.

Definition ret {A} (a : A) : M A := fun st => (Ret a, st).

Definition bind {A B} (m : M A) (k : A -> M B) : M B :=
  fun st =>
    match m st with
    | (Ret a, st') => k a st'
    | (Exit status, st') => (Exit status, st')
    | (Raise e, st') => (Raise e, st')
    end.

Definition raise {A} (e : exn) : M A := fun st => (Raise e, st).

(** [sys.exit(status)] *)
Definition sys_exit {A} (status : Z) : M A := fun st => (Exit status, st).

Definition emit (ev : Event) : M unit :=
  fun st => (Ret tt, mkSt (world st) (log st ++ [ev])).

(** A read of the outside state. *)
Definition observe {A} (f : World os -> A) : M A :=
  fun st => (Ret (f (world st)), st).

(** A call into the standard library, recorded as [ev] before it runs. *)
Definition outside {A} (ev : Event) (f : World os -> Try A * World os) : M A :=
  fun st =>
    let (r, w) := f (world st) in (res_of_try r, mkSt w (log st ++ [ev])).

(** A call into another module of the package, recorded likewise. *)
Definition module_call {A} (ev : Event) (f : World os -> Res A * World os)
  : M A :=
  fun st =>
    let (r, w) := f (world st) in (r, mkSt w (log st ++ [ev])).

(** [try: m  except <caught>: handler] *)
Definition try_except {A} (m : M A) (caught : exn -> bool) (handler : M A)
  : M A :=
  fun st =>
    match m st with
    | (Raise e, st') => if caught e then handler st' else (Raise e, st')
    | other => other
    end.

(** [try: m  except: handler], which also catches [SystemExit]. *)
Definition try_except_all {A} (m : M A) (handler : M A) : M A :=
  fun st =>
    match m st with
    | (Ret a, st') => (Ret a, st')
    | (_, st') => handler st'
    end.

Definition when (b : bool) (m : M unit) : M unit := if b then m else ret tt.

(** Reading a name of [Globals]. *)
Definition lookup {A} (name : string) (v : option A) : M A :=
  match v with
  | Some a => ret a
  | None => raise (NameError name)
  end.

(** [for x in l: acc = body x acc] *)
Fixpoint for_each {A B} (l : list A) (acc : B) (body : A -> B -> M B) : M B :=
  match l with
  | [] => ret acc
  | x :: l' => bind (body x acc) (fun acc' => for_each l' acc' body)
  end.

(** [l[i]] for [i >= 0] *)
Definition item {A} (l : list A) (i : nat) : M A :=
  match nth_error l i with
  | Some a => ret a
  | None => raise IndexError
  end.

Definition print (line : string) : M unit := emit (EPrint line).

End Program.

Arguments ret {os A} a.
Arguments bind {os A B} m k.
Arguments raise {os A} e.
Arguments sys_exit {os A} status.
Arguments emit {os} ev.
Arguments observe {os A} f.
Arguments outside {os A} ev f.
Arguments module_call {os A} ev f.
Arguments try_except {os A} m caught handler.
Arguments try_except_all {os A} m handler.
Arguments when {os} b m.
Arguments lookup {os A} name v.
Arguments for_each {os A B} l acc body.
Arguments item {os A} l i.
Arguments print {os} line.
Arguments mkSt {os} world log.
Arguments world {os} s.
Arguments log {os} s.

Declare Scope prog_scope.
Delimit Scope prog_scope with prog.
Notation "x <- m ;; k" := (bind m (fun x => k))
  (at level 61, m at next level, right associativity) : prog_scope.
Notation "m ;; k" := (bind m (fun _ => k))
  (at level 61, right associativity) : prog_scope.
Local Open Scope prog_scope.

(** ** [main] *)

Definition version : string := "20w31a".

Definition nl : string := String (ascii_of_nat 10) EmptyString.

Section Main.

Context (os : OS) (g : Globals).

(** Line 108. *)
Definition cache : string := path_join os (dirPath os) "cache".

Definition is_file (p : string) : M os bool := observe (fun w => isfile os w p).
Definition is_dir (p : string) : M os bool := observe (fun w => isdir os w p).

(** [tempfile.mkdtemp()], recorded with the directory it made. *)
Definition make_temp : M os string :=
  fun st =>
    match mkdtemp os (world st) with
    | (Done d, w) => (Ret d, mkSt w (log st ++ [EMkdtemp d]))
    | (Fails e, w) => (Raise e, mkSt w (log st))
    end.

Definition subprocess_call (cmd : list string) : M os unit :=
  outside (ECall cmd) (call os cmd) ;; ret tt.

(** Lines 121-129: the packaged ffmpeg when there is one. *)
Definition choose_ffmpeg (args : Args) : M os string :=
  let newF : option string := None in
  let newF :=
    if (String.eqb (platform_system os) "Windows" && negb (my_ffmpeg args))%bool
    then Some (path_join os (dirPath os) "win-ffmpeg/bin/ffmpeg.exe")
    else newF in
  let newF :=
    if (String.eqb (platform_system os) "Darwin" && negb (my_ffmpeg args))%bool
    then Some (path_join os (dirPath os) "mac-ffmpeg/bin/ffmpeg")
    else newF in
  match newF with
  | Some f => there <- is_file f ;; ret (if there then f else "ffmpeg")
  | None => ret "ffmpeg"
  end.

(** Lines 131-139. *)
Definition debug_report (args : Args) (ffmpeg : string) : M os unit :=
  when (debug args)
    (let is64bit := if maxsize_above_2_32 os then "64-bit" else "32-bit" in
     print ("Python Version: " ++ python_version os ++ " " ++ is64bit) ;;
     print ("Platform: " ++ platform_system os) ;;
     print ("FFmpeg path: " ++ ffmpeg) ;;
     print ("Auto-Editor version " ++ version) ;;
     match input args with
     | [] => sys_exit 0
     | _ => ret tt
     end).

(** *** Input Resolver: the body of the loop of lines 155-171.

    Line 168 reads [inputList.append.(basename + '.mp4')], which Python
    does not parse; it is modelled as the call
    [inputList.append(basename + '.mp4')]. *)
Definition resolve_one (ffmpeg myInput : string) (inputList : list string)
  : M os (list string) :=
  d <- is_dir myInput ;;
  if d then
    sort <- lookup "sort" (g_sort g) ;;
    entries <- outside (EListdir myInput) (listdir os myInput) ;;
    ret (inputList ++ sort entries)%list
  else
    f <- is_file myInput ;;
    if f then ret (inputList ++ [myInput])%list
    else if (PyStr.startswith "http://" myInput
             || PyStr.startswith "https://" myInput)%bool then
      print "URL detected, using youtube-dl to download from webpage." ;;
      let basename := PyRe.sub_nonword false myInput in
      let cmd := ["youtube-dl"; "-f";
                  "bestvideo[ext=mp4]+bestaudio[ext=m4a]/mp4";
                  myInput; "--output"; basename; "--no-check-certificate"] in
      let cmd := if negb (String.eqb ffmpeg "ffmpeg")
                 then (cmd ++ ["--ffmpeg-location"; ffmpeg])%list else cmd in
      subprocess_call cmd ;;
      ret (inputList ++ [(basename ++ ".mp4")%string])%list
    else
      print ("Could not find file: " ++ myInput) ;;
      sys_exit 1.

Definition resolve (ffmpeg : string) (inputs : list string)
  : M os (list string) :=
  for_each inputs [] (resolve_one ffmpeg).

(** *** Output Namer: lines 173-181. *)

(** [args.output_file.append(name)] *)
Definition append_output (name : string) (args : Args) : M os Args :=
  match output_file args with
  | Some outs => ret (set_output_file (Some (outs ++ [name])%list) args)
  | None => raise AttributeError
  end.

Definition name_one (inputList : list string) (i : nat) (args : Args)
  : M os Args :=
  oldFile <- item inputList i ;;
  append_output (derived_name (export_to_premiere args) oldFile) args.

Definition name_outputs (args : Args) (inputList : list string) : M os Args :=
  match output_file args with
  | None => raise TypeError                       (* len(None) *)
  | Some outs =>
      if (List.length outs <? List.length inputList)%nat then
        for_each (seq 0 (List.length inputList - List.length outs)) args
          (name_one inputList)
      else ret args
  end.

(** *** Lines 183-192: [--combine_files]. *)
Definition combine (ffmpeg : string) (args : Args) (inputList : list string)
  : M os (list string) :=
  if combine_files args then
    let contents :=
      String.concat EmptyString (map (fun fileref => "file '" ++ fileref ++ "'" ++ nl)
                            inputList) in
    outside (EWrite "combine_files.txt" contents)
            (write_file os "combine_files.txt" contents) ;;
    subprocess_call [ffmpeg; "-f"; "concat"; "-safe"; "0"; "-i";
                     "combine_files.txt"; "-c"; "copy"; "combined.mp4"] ;;
    outside (ERemove "combine_files.txt") (remove os "combine_files.txt") ;;
    ret ["combined.mp4"]
  else ret inputList.

(** *** Lines 194-200: [--preview]. *)
Definition run_preview (ffmpeg INPUT_FILE cache : string) (args : Args)
  : M os unit :=
  when (preview_flag args)
    (let c := mkPreview ffmpeg INPUT_FILE (silent_threshold args)
                (zoom_threshold args) (frame_margin args) (sample_rate args)
                (video_speed args) (silent_speed args)
                (cut_by_this_track args) (audio_bitrate args) cache in
     module_call (EPreview c) (preview os c) ;;
     sys_exit 0).

(** A call of one of the four strategies.  The [from ... import ...]
    statement in front of it is taken to succeed; Python then evaluates
    the arguments, [newOutput] among them, before the call. *)
Definition run_strategy (c : Call) : M os unit :=
  module_call (EStrategy c) (strategy os c).

(** *** Frame-Rate Prober: the [try] block of lines 222-232. *)
Definition probe (ffmpeg INPUT_FILE : string) (args : Args) : M os unit :=
  let cmd := [ffmpeg; "-i"; INPUT_FILE] in
  output <- outside (EPopen cmd) (popen_output os cmd) ;;
  when (debug args)
    (print "FFmpeg test:" ;; print output ;; print nl) ;;
  match PyRe.search_tbr output with
  | None => raise AttributeError              (* None.groupdict() *)
  | Some fps =>
      if PyRe.float_accepts fps then ret tt else raise ValueError
  end.

(** *** Frame-Rate Corrector: the handler of lines 233-244.
    The result is the new value of [TEMP] and of [INPUT_FILE]. *)
Definition repair (ffmpeg INPUT_FILE : string) (args : Args)
  : M os (option string * string) :=
  print "Warning! frame rate detection failed." ;;
  print "If your video has a variable frame rate, ignore this message." ;;
  TEMP <- make_temp ;;
  extension <- lookup "extension" (g_extension g) ;;
  let cmd := [ffmpeg; "-i"; INPUT_FILE; "-filter:v"; "fps=fps=30";
              TEMP ++ "/constantVid" ++ extension; "-hide_banner"] in
  let cmd := if negb (debug args)
             then (cmd ++ ["-nostats"; "-loglevel"; "0"])%list else cmd in
  subprocess_call cmd ;;
  ret (Some TEMP, TEMP ++ "/constantVid" ++ extension).

(** *** The body of the loop of lines 206-266.
    [TEMP] is the local variable of that name: [None] until line 237 has
    run once, and afterwards the directory it made last. *)
Definition process_one (args : Args) (ffmpeg cache : string)
    (INPUT_FILE : string) (TEMP : option string) : M os (option string) :=
  if export_to_premiere args then
    newOutput <- lookup "newOutput" (g_newOutput g) ;;
    run_strategy
      (exportToPremiere ffmpeg INPUT_FILE newOutput (silent_threshold args)
         (zoom_threshold args) (frame_margin args) (sample_rate args)
         (video_speed args) (silent_speed args)) ;;
    ret TEMP
  else if isAudioFile os INPUT_FILE then
    newOutput <- lookup "newOutput" (g_newOutput g) ;;
    run_strategy
      (fastAudio ffmpeg INPUT_FILE newOutput (silent_threshold args)
         (frame_margin args) (sample_rate args) (audio_bitrate args)
         (debug args) (silent_speed args) (video_speed args) true) ;;
    ret TEMP
  else
    fixed <- try_except
               (probe ffmpeg INPUT_FILE args ;; ret (TEMP, INPUT_FILE))
               is_AttributeError
               (repair ffmpeg INPUT_FILE args) ;;
    let (TEMP, INPUT_FILE) := fixed : option string * string in
    when (is_None (background_music args)
          && negb (PrimFloat.eqb (background_volume args) (-8)))%bool
      (print "Warning! Background volume specified even though no music was provided.") ;;
    (if fast_video_ok args then
       newOutput <- lookup "newOutput" (g_newOutput g) ;;
       run_strategy
         (fastVideo ffmpeg INPUT_FILE newOutput (silent_threshold args)
            (frame_margin args) (sample_rate args) (audio_bitrate args)
            (debug args) (video_speed args) (silent_speed args)
            (cut_by_this_track args) (keep_tracks_seperate args))
     else
       newOutput <- lookup "newOutput" (g_newOutput g) ;;
       run_strategy
         (originalMethod ffmpeg INPUT_FILE newOutput (frame_margin args)
            (silent_threshold args) (zoom_threshold args) (sample_rate args)
            (audio_bitrate args) (silent_speed args) (video_speed args)
            (keep_tracks_seperate args) (background_music args)
            (background_volume args) (cut_by_this_audio args)
            (cut_by_this_track args) (cut_by_all_tracks args) (debug args)
            (hardware_accel args) cache)) ;;
    ret TEMP.

Definition process_all (args : Args) (ffmpeg cache : string)
    (inputList : list string) : M os (option string) :=
  for_each inputList None (process_one args ffmpeg cache).

(** *** Lines 277-287: opening the result. *)
Definition open_output (outFile : string) : M os unit :=
  try_except
    (if has_startfile os
     then outside (EStartfile outFile) (startfile os outFile)
     else raise AttributeError)
    is_AttributeError
    (try_except_all
       (subprocess_call ["open"; outFile])
       (try_except_all
          (subprocess_call ["cmd.exe"; "/C"; "start"; outFile])
          (print "Warning! Could not open output file."))).

(** *** Lines 268-290: after the loop. *)
Definition finish (args : Args) (startTime : float) (TEMP : option string)
  : M os unit :=
  print "Finished." ;;
  endTime <- observe (time os) ;;
  emit (ETook startTime endTime) ;;
  outFile <- lookup "outFile" (g_outFile g) ;;
  there <- is_file outFile ;;
  when (negb there)
    (print ("Error! The file " ++ outFile ++ " was not created.") ;;
     sys_exit 1) ;;
  when (negb (no_open args) && negb (export_to_premiere args))%bool
    (open_output outFile) ;;
  match TEMP with                                (* 'TEMP' in locals() *)
  | Some d => outside (ERmtree d) (rmtree os d)
  | None => ret tt
  end.

(** *** Lines 154-290: from resolution to the end of the run. *)
Definition run_batch (args : Args) (ffmpeg cache INPUT_FILE : string)
  : M os unit :=
  inputList <- resolve ffmpeg (input args) ;;
  args <- name_outputs args inputList ;;
  inputList <- combine ffmpeg args inputList ;;
  run_preview ffmpeg INPUT_FILE cache args ;;
  startTime <- observe (time os) ;;
  TEMP <- process_all args ffmpeg cache inputList ;;
  finish args startTime TEMP.

(** *** Lines 104-144: before the batch.  The result is the ffmpeg to
    use. *)
Definition startup (args : Args) : M os string :=
  when (version_flag args)
    (print ("Auto-Editor version: " ++ version) ;; sys_exit 0) ;;
  when (clear_cache args)
    (there <- is_dir cache ;;
     when there (outside (ERmtree cache) (rmtree os cache)) ;;
     print "Removed cache." ;;
     match input args with
     | [] => sys_exit 0
     | _ => ret tt
     end) ;;
  ffmpeg <- choose_ffmpeg args ;;
  debug_report args ffmpeg ;;
  match input args with
  | [] =>
      print "Error! The following arguments are required: input" ;;
      print "In other words, you need the path to a video or an audio file so that auto-editor can do the work for you." ;;
      sys_exit 1
  | _ => ret ffmpeg
  end.

Definition main (args : Args) : M os unit :=
  ffmpeg <- startup args ;;
  let args := clamp_speeds args in
  match input args with
  | INPUT_FILE :: _ => run_batch args ffmpeg cache INPUT_FILE
  | [] => raise IndexError                       (* args.input[0] *)
  end.

(** A run of [main] from the outside state [w]: how it ends, the state it
    leaves and what it did. *)
Definition run (args : Args) (w : World os) : Res unit * St os :=
  main args (mkSt w []).

End Main.


(** ** Python's [sorted] on a list of [str] *)

Module PySorted.

Fixpoint insert (x : string) (l : list string) : list string :=
  match l with
  | [] => [x]
  | y :: l' => if String.leb x y then x :: l else y :: insert x l'
  end.

(** [sorted(l)]: ascending by code points. *)
Definition sorted (l : list string) : list string :=
  fold_right insert [] l.

End PySorted.

(** ** A small machine to run [main] on *)

Module Sample.

Record Disk := mkDisk {
  files : list string;
  dirs : list (string * list string);    (* a directory and its listing *)
  made : nat                             (* temporary directories made *)
}.

Definition has (l : list string) (p : string) : bool :=
  existsb (String.eqb p) l.

Definition is_directory (w : Disk) (p : string) : bool :=
  has (map fst (dirs w)) p.

Definition add_file (f : string) (w : Disk) : Disk :=
  mkDisk (f :: files w) (dirs w) (made w).

Definition temp_name (n : nat) : string :=
  "/tmp/tmp" ++ String.concat EmptyString (repeat "x" (S n)).

Definition output_of (c : Call) : string :=
  match c with
  | exportToPremiere _ _ o _ _ _ _ _ _ => o
  | fastAudio _ _ o _ _ _ _ _ _ _ _ => o
  | fastVideo _ _ o _ _ _ _ _ _ _ _ _ => o
  | originalMethod _ _ o _ _ _ _ _ _ _ _ _ _ _ _ _ _ _ _ => o
  end.

Definition ends_with (suffix s : string) : bool :=
  String.eqb (PyStr.slice_from s (PyStr.len s - PyStr.len suffix)) suffix.

(** The machine: ffmpeg prints [probe_text f] for the input [f]; a
    strategy writes the output it is given exactly when [writes] holds;
    files ending in [.wav], [.mp3] or [.m4a] count as audio. *)
Definition machine (probe_text : string -> string) (writes : bool) : OS :=
  {| World := Disk;
     isfile := fun w p => has (files w) p;
     isdir := is_directory;
     path_join := fun a b => a ++ "/" ++ b;
     platform_system := "Linux";
     python_version := "3.8.5";
     maxsize_above_2_32 := true;
     dirPath := "/opt/auto_editor";
     has_startfile := false;
     time := fun _ => 0%float;
     listdir := fun d w =>
       match find (fun e => String.eqb d (fst e)) (dirs w) with
       | Some e => (Done (snd e), w)
       | None => (Fails (OtherError "FileNotFoundError"), w)
       end;
     call := fun _ w => (Done 0, w);
     popen_output := fun cmd w => (Done (probe_text (nth 2 cmd EmptyString)), w);
     mkdtemp := fun w =>
       let d := temp_name (made w) in
       (Done d, mkDisk (files w) ((d, []) :: dirs w) (S (made w)));
     rmtree := fun d w =>
       (Done tt,
        mkDisk (files w)
               (filter (fun e => negb (String.eqb d (fst e))) (dirs w))
               (made w));
     write_file := fun f _ w => (Done tt, add_file f w);
     remove := fun f w =>
       (Done tt,
        mkDisk (filter (fun x => negb (String.eqb f x)) (files w))
               (dirs w) (made w));
     startfile := fun _ w => (Done tt, w);
     isAudioFile := fun f =>
       (ends_with ".wav" f || ends_with ".mp3" f || ends_with ".m4a" f)%bool;
     preview := fun _ w => (Ret tt, w);
     strategy := fun c w =>
       (Ret tt, if writes then add_file (output_of c) w else w)
  |}.

(** A namespace in which the four free names of [main] are bound:
    [sort] to [sorted], [newOutput] and [outFile] to [out], and
    [extension] to [ext]. *)
Definition bound_names (out ext : string) : Globals :=
  mkGlobals (Some PySorted.sorted) (Some out) (Some ext) (Some out).

(** What ffmpeg prints for a file whose frame rate it can tell, for one
    where it cannot, and for one where the token before [tbr] is not a
    number. *)
Definition steady : string :=
  "Stream #0:0: Video: h264, yuv420p, 1280x720, 30 fps, 30 tbr, 90k tbn".
Definition variable : string :=
  "Stream #0:0: Video: h264, yuv420p, 1280x720, 1k tbr, 90k tbn".
Definition garbled : string :=
  "Stream #0:0: Video: h264, yuv420p, 1280x720, 30 fps, 1.2.3 tbr".

End Sample.

(** ** Reading the record of a run *)

(** The strategy calls among the events [l], in order. *)
Fixpoint calls (l : list Event) : list Call :=
  match l with
  | EStrategy c :: l' => c :: calls l'
  | _ :: l' => calls l'
  | [] => []
  end.

Definition is_strategy (ev : Event) : Prop :=
  match ev with EStrategy _ => True | _ => False end.

(** The speeds a strategy call is given. *)
Definition silent_speed_of (c : Call) : float :=
  match c with
  | exportToPremiere _ _ _ _ _ _ _ _ s => s
  | fastAudio _ _ _ _ _ _ _ _ s _ _ => s
  | fastVideo _ _ _ _ _ _ _ _ _ s _ _ => s
  | originalMethod _ _ _ _ _ _ _ _ s _ _ _ _ _ _ _ _ _ _ => s
  end.

Definition video_speed_of (c : Call) : float :=
  match c with
  | exportToPremiere _ _ _ _ _ _ _ v _ => v
  | fastAudio _ _ _ _ _ _ _ _ _ v _ => v
  | fastVideo _ _ _ _ _ _ _ _ v _ _ _ => v
  | originalMethod _ _ _ _ _ _ _ _ _ v _ _ _ _ _ _ _ _ _ => v
  end.

(** [ev] hands the speeds [s] and [v] on, if it hands speeds on at all. *)
Definition carries_speeds (s v : float) (ev : Event) : Prop :=
  match ev with
  | EStrategy c => silent_speed_of c = s /\ video_speed_of c = v
  | EPreview c => pv_silent_speed c = s /\ pv_video_speed c = v
  | _ => True
  end.

(** The events that the code before the batch and the Input Resolver
    produce: printed lines, the removal of the cache directory, directory
    listings and youtube-dl downloads.  The probe, the repair, the
    concatenation, the preview and the strategies produce none of them. *)
Definition early_event (cache : string) (ev : Event) : Prop :=
  match ev with
  | EPrint _ | EListdir _ => True
  | ERmtree d => d = cache
  | ECall cmd => hd_error cmd = Some "youtube-dl"
  | _ => False
  end.

(** [m] adds only [E]-events to the record, leaves only with an exit status
    in [X], and returns only values in [R]. *)
Definition sat {os A} (E : Event -> Prop) (X : Z -> Prop) (R : A -> Prop)
    (m : M os A) : Prop :=
  forall st res st',
    m st = (res, st') ->
    (exists l, log st' = (log st ++ l)%list /\ Forall E l)
    /\ match res with
       | Ret a => R a
       | Exit status => X status
       | Raise _ => True
       end.

Definition is_url (myInput : string) : bool :=
  (PyStr.startswith "http://" myInput
   || PyStr.startswith "https://" myInput)%bool.

(** The same ending at another result type, for a computation that did not
    return. *)
Definition ended {A B} (r : Res A) : Res B :=
  match r with
  | Ret _ => Raise (OtherError "returned")
  | Exit status => Exit status
  | Raise e => Raise e
  end.

(** The events that hand nothing on to a strategy or the preview. *)
Definition background (ev : Event) : Prop :=
  match ev with
  | EStrategy _ | EPreview _ => False
  | _ => True
  end.

Definition anything {A : Type} : A -> Prop := fun _ => True.

Definition any_status : Z -> Prop := fun _ => True.

(** [a <= b] on [str]. *)
Definition ascending (a b : string) : Prop := String.leb a b = true.

(** The lines printed, the temporary directories made and the directories
    removed among the events [l], in order. *)
Fixpoint printed (l : list Event) : list string :=
  match l with
  | EPrint line :: l' => line :: printed l'
  | _ :: l' => printed l'
  | [] => []
  end.

Fixpoint temp_dirs_made (l : list Event) : list string :=
  match l with
  | EMkdtemp d :: l' => d :: temp_dirs_made l'
  | _ :: l' => temp_dirs_made l'
  | [] => []
  end.

Fixpoint dirs_removed (l : list Event) : list string :=
  match l with
  | ERmtree d :: l' => d :: dirs_removed l'
  | _ :: l' => dirs_removed l'
  | [] => []
  end.

(** The subprocesses started with [subprocess.call] among the events [l]. *)
Fixpoint subprocesses (l : list Event) : list (list string) :=
  match l with
  | ECall cmd :: l' => cmd :: subprocesses l'
  | _ :: l' => subprocesses l'
  | [] => []
  end.

(** ** The argument converters (lines 18-34) *)

Module PyInt.

(** White space as [int] takes it, on code points below 256: the six
    ASCII characters tab, line feed, vertical tab, form feed, carriage
    return and blank, and the two white-space characters above 127,
    U+0085 and U+00A0, which [int] reads as blanks.  The separators
    U+001C to U+001F are white space to [str.strip] and to [\s], but not
    to [int]: [int] raises [ValueError] on them. *)
Definition is_space (c : ascii) : bool :=
  PyRe.between 9 13 c || N.eqb (PyRe.code c) 32
  || N.eqb (PyRe.code c) 133 || N.eqb (PyRe.code c) 160.

(** [s] without the white space that [int] skips in front, at the end,
    and on both sides. *)
Fixpoint lstrip (s : string) : string :=
  match s with
  | String c s' => if is_space c then lstrip s' else s
  | EmptyString => EmptyString
  end.

Fixpoint rstrip (s : string) : string :=
  match s with
  | String c s' =>
      match rstrip s' with
      | EmptyString => if is_space c then EmptyString
                       else String c EmptyString
      | r => String c r
      end
  | EmptyString => EmptyString
  end.

Definition strip (s : string) : string := rstrip (lstrip s).

Definition digit_value (c : ascii) : Z := Z.of_N (PyRe.code c) - 48.

(** The rest of a decimal numeral after a digit, with [acc] the value
    read so far: digits, each of which one underscore may precede. *)
Fixpoint digits (acc : Z) (s : string) : option Z :=
  match s with
  | EmptyString => Some acc
  | String c s' =>
      if PyRe.is_digit c then digits (10 * acc + digit_value c) s'
      else if Ascii.eqb c "_" then
        match s' with
        | String d s'' =>
            if PyRe.is_digit d then digits (10 * acc + digit_value d) s''
            else None
        | EmptyString => None
        end
      else None
  end.

(** An unsigned numeral: it starts with a digit. *)
Definition unsigned (s : string) : option Z :=
  match s with
  | String c s' => if PyRe.is_digit c then digits (digit_value c) s' else None
  | EmptyString => None
  end.

(** [int(s)] for a [str] of code points below 256, in an interpreter
    that puts no limit on the number of digits: white space around (as
    [is_space] has it), an optional sign, a decimal numeral.  [None] is
    [ValueError]. *)
Definition parse (s : string) : option Z :=
  match strip s with
  | String "-" t => option_map Z.opp (unsigned t)
  | String "+" t => unsigned t
  | t => unsigned t
  end.

End PyInt.

(** [s.endswith(suffix)] *)
Definition endswith (suffix s : string) : bool :=
  (Nat.leb (String.length suffix) (String.length s)
   && String.eqb (PyStr.drop (String.length s - String.length suffix) s) suffix)%bool.

Definition try_of_option {A} (e : exn) (o : option A) : Try A :=
  match o with
  | Some a => Done a
  | None => Fails e
  end.

Definition try_bind {A B} (t : Try A) (k : A -> Try B) : Try B :=
  match t with
  | Done a => k a
  | Fails e => Fails e
  end.

Section Converters.

(** [float(s)] on a [str] and [int(x)] on a [float] are left to the
    interpreter. *)
Variable float_of_str : string -> Try float.
Variable int_of_float : float -> Try Z.

(** Lines 24-27. *)
Definition float_type (num : string) : Try float :=
  if endswith "%" num then
    try_bind (float_of_str (PyStr.slice_to num (-1)))
             (fun x => Done (PrimFloat.div x 100))
  else float_of_str num.

(** Lines 29-34. *)
Definition sample_rate_type (num : string) : Try Z :=
  if endswith " Hz" num then
    try_of_option ValueError (PyInt.parse (PyStr.slice_to num (-3)))
  else if endswith " kHz" num then
    try_bind (float_of_str (PyStr.slice_to num (-4)))
             (fun x => int_of_float (PrimFloat.mul x 1000))
  else try_of_option ValueError (PyInt.parse num).

End Converters.

(** Lines 18-22. *)
Definition file_type (os : OS) (file : string) : M os string :=
  there <- is_file os file ;;
  when (negb there)
    (print ("Error! Could not locate file: " ++ file) ;; sys_exit 1) ;;
  ret file.

(** ** More readers of the record of a run *)

Definition quiet (ev : Event) : Prop :=
  match ev with EStrategy _ => False | _ => True end.

(** No probe, no temporary directory, no subprocess. *)
Definition untouched (ev : Event) : Prop :=
  match ev with
  | EPopen _ | EMkdtemp _ | ECall _ => False
  | _ => True
  end.

Definition keeps_dirs (ev : Event) : Prop :=
  match ev with ERmtree _ => False | _ => True end.

Definition last_of {A} (l : list A) : option A :=
  match rev l with
  | x :: _ => Some x
  | [] => None
  end.

(** Whether every character of [s] satisfies [p]. *)
Fixpoint all_chars (p : ascii -> bool) (s : string) : bool :=
  match s with
  | String c s' => (p c && all_chars p s')%bool
  | EmptyString => true
  end.

(** A character that [re.sub(r'\W+', '-', s)] can leave in its result. *)
Definition word_or_dash (c : ascii) : bool :=
  (PyRe.is_word c || Ascii.eqb c "-")%bool.

(** What the probe of lines 222-232 can add to the record. *)
Definition probe_event (ev : Event) : Prop :=
  match ev with EPopen _ | EPrint _ => True | _ => False end.

Definition no_mkdtemp (ev : Event) : Prop :=
  match ev with EMkdtemp _ => False | _ => True end.

(** The value of the local variable [TEMP] after the events [l], when it
    was [TEMP] before them: the directory made last, if one was made. *)
Definition temp_after (TEMP : option string) (l : list Event) : option string :=
  match last_of (temp_dirs_made l) with
  | Some d => Some d
  | None => TEMP
  end.

(** Neither [os.startfile] nor a subprocess. *)
Definition no_viewer (ev : Event) : Prop :=
  match ev with
  | EStartfile _ | ECall _ => False
  | _ => True
  end.

(** The machine [os] on a platform where [os.startfile] exists and fails
    with [OSError]. *)
Definition with_failing_startfile (os : OS) : OS :=
  mkOS (World os) (isfile os) (isdir os) (path_join os) "Windows"
       (python_version os) (maxsize_above_2_32 os) (dirPath os) true (time os)
       (listdir os) (call os) (popen_output os) (mkdtemp os) (rmtree os)
       (write_file os) (remove os)
       (fun _ w => (Fails (OtherError "OSError"), w))
       (isAudioFile os) (preview os) (strategy os).

(** [ev] is no strategy call, and if it is a preview, it previews
    [first]. *)
Definition previews (first : option string) (ev : Event) : Prop :=
  match ev with
  | EStrategy _ => False
  | EPreview c => Some (pv_INPUT_FILE c) = first
  | _ => True
  end.

(** * Proofs *)
(** ** Lemmas on strings *)

Section StringFacts.

Lemma len_nonneg s : 0 <= PyStr.len s.
Proof. unfold PyStr.len. lia. Qed.

Lemma len_String a s : PyStr.len (String a s) = PyStr.len s + 1.
Proof. unfold PyStr.len. cbn [String.length]. lia. Qed.

Lemma len_app s t : PyStr.len (s ++ t) = PyStr.len s + PyStr.len t.
Proof.
  induction s as [|a s IH]; cbn [append].
  - unfold PyStr.len at 2. cbn. lia.
  - rewrite !len_String, IH. lia.
Qed.

Lemma rfind_range c s : -1 <= PyStr.rfind c s < PyStr.len s.
Proof.
  induction s as [|a s IH]; cbn [PyStr.rfind].
  - unfold PyStr.len. cbn. lia.
  - rewrite len_String.
    destruct (0 <=? PyStr.rfind c s) eqn:E.
    + apply Z.leb_le in E. lia.
    + destruct (Ascii.eqb a c); lia.
Qed.

Lemma rfind_absent c s : PyStr.contains c s = false -> PyStr.rfind c s = -1.
Proof.
  induction s as [|a s IH]; cbn [PyStr.contains PyStr.rfind]; intros H.
  - reflexivity.
  - apply orb_false_iff in H. destruct H as [Ha Hs].
    rewrite (IH Hs), Ha. reflexivity.
Qed.

(** The last dot of [stem ++ "." ++ ext], when [ext] has no dot, sits
    right after [stem]. *)
Lemma rfind_last_dot stem ext :
  PyStr.contains dot ext = false ->
  PyStr.rfind dot (stem ++ String dot ext) = PyStr.len stem.
Proof.
  intros H. induction stem as [|a stem IH]; cbn [append PyStr.rfind].
  - rewrite (rfind_absent _ _ H). reflexivity.
  - rewrite IH, len_String.
    pose proof (len_nonneg stem) as Hl.
    destruct (0 <=? PyStr.len stem) eqn:E; [reflexivity|].
    apply Z.leb_gt in E. lia.
Qed.

Lemma take_app s t : PyStr.take (String.length s) (s ++ t) = s.
Proof. induction s as [|a s IH]; cbn; [destruct t|rewrite IH]; reflexivity. Qed.

Lemma drop_app s t : PyStr.drop (String.length s) (s ++ t) = t.
Proof. induction s as [|a s IH]; cbn; [destruct t|rewrite IH]; reflexivity. Qed.

Lemma bound_len_prefix s t :
  PyStr.bound (PyStr.len (s ++ t)) (PyStr.len s) = String.length s.
Proof.
  unfold PyStr.bound. rewrite len_app.
  pose proof (len_nonneg s). pose proof (len_nonneg t).
  destruct (PyStr.len s <? 0) eqn:E; [apply Z.ltb_lt in E; lia|].
  rewrite Z.min_l by lia. unfold PyStr.len. apply Nat2Z.id.
Qed.

Lemma slice_to_prefix s t : PyStr.slice_to (s ++ t) (PyStr.len s) = s.
Proof. unfold PyStr.slice_to. rewrite bound_len_prefix. apply take_app. Qed.

Lemma slice_from_prefix s t : PyStr.slice_from (s ++ t) (PyStr.len s) = t.
Proof. unfold PyStr.slice_from. rewrite bound_len_prefix. apply drop_app. Qed.

(** The bound [-1] on a non-empty string is its last position. *)
Lemma bound_minus_one s c :
  PyStr.bound (PyStr.len (s ++ String c EmptyString)) (-1) = String.length s.
Proof.
  unfold PyStr.bound. rewrite len_app.
  change (PyStr.len (String c EmptyString)) with 1.
  pose proof (len_nonneg s).
  change (-1 <? 0) with true. cbv iota.
  rewrite Z.max_r by lia.
  replace (-1 + (PyStr.len s + 1)) with (PyStr.len s) by lia.
  unfold PyStr.len. apply Nat2Z.id.
Qed.

Lemma contains_app c s t :
  PyStr.contains c (s ++ t) = PyStr.contains c s || PyStr.contains c t.
Proof.
  induction s as [|a s IH]; cbn [append PyStr.contains]; [reflexivity|].
  rewrite IH. apply orb_assoc.
Qed.

(** Every non-empty string ends in some character. *)
Lemma string_snoc a s : exists s' c, String a s = s' ++ String c EmptyString.
Proof.
  revert a. induction s as [|b s IH]; intros a.
  - exists EmptyString, a. reflexivity.
  - destruct (IH b) as (s' & c & E). exists (String a s'), c.
    cbn [append]. rewrite <- E. reflexivity.
Qed.

Lemma app_assoc_str (s t u : string) : (s ++ t) ++ u = s ++ (t ++ u).
Proof. induction s as [|a s IH]; cbn [append]; [|rewrite IH]; reflexivity. Qed.

End StringFacts.


(** ** The Output Namer *)

Section NamerFacts.

Context (os : OS).

Lemma set_output_file_twice u v a :
  set_output_file v (set_output_file u a) = set_output_file v a.
Proof. reflexivity. Qed.

Lemma firstn_skipn_step {A} (l : list A) start k x :
  nth_error l start = Some x ->
  firstn (S k) (skipn start l) = x :: firstn k (skipn (S start) l).
Proof.
  revert l. induction start as [|start IH]; intros [|y l] H; try discriminate.
  - injection H as ->. reflexivity.
  - cbn [skipn]. apply (IH l H).
Qed.

(** The naming loop from index [start] on, for [k] rounds: it appends
    the names derived from the inputs [start .. start + k - 1]. *)
Lemma naming_loop inputList k :
  forall start args outs (st : St os),
    output_file args = Some outs ->
    (start + k <= List.length inputList)%nat ->
    for_each (seq start k) args (name_one os inputList) st =
      (Ret (set_output_file
              (Some (outs ++ map (derived_name (export_to_premiere args))
                                 (firstn k (skipn start inputList)))%list)
              args), st).
Proof.
  induction k as [|k IH]; intros start args outs st Hout Hlen.
  - cbn [seq for_each firstn map]. rewrite app_nil_r.
    unfold ret. destruct args; cbn in Hout; subst; reflexivity.
  - destruct (nth_error inputList start) as [x|] eqn:Hx.
    2:{ apply nth_error_None in Hx. lia. }
    cbn [seq for_each]. unfold bind at 1.
    unfold name_one, item. rewrite Hx. unfold bind at 1, ret at 1.
    unfold append_output. rewrite Hout. unfold ret at 1.
    rewrite (IH (S start) _ (outs ++ [derived_name (export_to_premiere args) x])%list)
      by (try reflexivity; lia).
    rewrite (firstn_skipn_step _ _ _ _ Hx). cbn [map].
    rewrite <- app_assoc. reflexivity.
Qed.

(** Lines 173-181 when [args.output_file] is a list shorter than
    [inputList]: the names of the first [M - N] inputs are appended. *)
Lemma name_outputs_short args inputList outs (st : St os) :
  output_file args = Some outs ->
  (List.length outs < List.length inputList)%nat ->
  name_outputs os args inputList st =
    (Ret (set_output_file
            (Some (outs ++ map (derived_name (export_to_premiere args))
                               (firstn (List.length inputList - List.length outs)
                                       inputList))%list)
            args), st).
Proof.
  intros Hout Hlt. unfold name_outputs. rewrite Hout.
  apply Nat.ltb_lt in Hlt. rewrite Hlt. apply Nat.ltb_lt in Hlt.
  rewrite (naming_loop inputList _ 0%nat args outs st Hout) by lia.
  reflexivity.
Qed.

(** Lines 173-181 never touch a list that is long enough. *)
Lemma name_outputs_enough args inputList outs (st : St os) :
  output_file args = Some outs ->
  (List.length inputList <= List.length outs)%nat ->
  name_outputs os args inputList st = (Ret args, st).
Proof.
  intros Hout Hle. unfold name_outputs. rewrite Hout.
  apply Nat.ltb_ge in Hle. rewrite Hle. reflexivity.
Qed.

(** [len(None)] at line 173. *)
Lemma name_outputs_without_option args inputList (st : St os) :
  output_file args = None ->
  name_outputs os args inputList st = (Raise TypeError, st).
Proof. intros H. unfold name_outputs. rewrite H. reflexivity. Qed.

(** Lines 173-181 when [args.output_file] is the empty list: every
    input gets its derived name, in order. *)
Lemma name_outputs_none_supplied args inputList (st : St os) :
  output_file args = Some [] ->
  name_outputs os args inputList st =
    (Ret (set_output_file
            (Some (map (derived_name (export_to_premiere args)) inputList))
            args), st).
Proof.
  intros Hout. destruct inputList as [|x l].
  - rewrite (name_outputs_enough args [] [] st Hout) by (cbn; lia).
    destruct args; cbn in Hout; subst; reflexivity.
  - rewrite (name_outputs_short args (x :: l) [] st Hout) by (cbn; lia).
    change (List.length (@nil string)) with 0%nat.
    rewrite Nat.sub_0_r, firstn_all. reflexivity.
Qed.

End NamerFacts.

(** C2. With [-o x.mp4] and the inputs [a.mp4] and [b.mp4], the naming pass
    keeps [x.mp4] first and makes the list as long as the inputs, but the
    name it appends at index 1 is derived from [a.mp4], the input at index
    0; the input at index 1 is [b.mp4], whose derived name is
    [b_ALTERED.mp4]. *)
Theorem synthesized_name_taken_from_leading_input :
  forall (os : OS) (st : St os),
    let args := set_output_file (Some ["x.mp4"]) (default_args ["a.mp4"; "b.mp4"]) in
    exists args',
      name_outputs os args ["a.mp4"; "b.mp4"] st = (Ret args', st)
      /\ output_file args' = Some ["x.mp4"; "a_ALTERED.mp4"]
      /\ nth_error ["a.mp4"; "b.mp4"] 1 = Some "b.mp4"
      /\ derived_name false "b.mp4" = "b_ALTERED.mp4".
Proof.
  intros os st args.
  eexists. split.
  - apply (name_outputs_short os args ["a.mp4"; "b.mp4"] ["x.mp4"] st eq_refl).
    cbn. lia.
  - repeat split; reflexivity.
Qed.

(** C3. For an input name [stem ++ "." ++ ext] whose extension [ext] holds no
    further dot, the derived output name is [stem ++ ".xml"] when exporting
    to Premiere and [stem ++ "_ALTERED." ++ ext] otherwise; [clip.mov] gives
    [clip_ALTERED.mov] and [clip.xml]; and with an empty list of output
    names the naming pass gives every input its derived name, in order. *)
Theorem derived_name_with_extension :
  (forall (export : bool) (stem ext : string),
      PyStr.contains dot ext = false ->
      derived_name export (stem ++ "." ++ ext) =
        if export then stem ++ ".xml" else stem ++ "_ALTERED" ++ "." ++ ext)
  /\ derived_name false "clip.mov" = "clip_ALTERED.mov"
  /\ derived_name true "clip.mov" = "clip.xml"
  /\ (forall (os : OS) (args : Args) (inputList : list string) (st : St os),
         output_file args = Some [] ->
         name_outputs os args inputList st =
           (Ret (set_output_file
                   (Some (map (derived_name (export_to_premiere args)) inputList))
                   args), st)).
Proof.
  split; [|split; [reflexivity|split; [reflexivity|]]].
  - intros export stem ext Hext. unfold derived_name.
    change ("." ++ ext) with (String dot ext).
    rewrite (rfind_last_dot stem ext Hext).
    rewrite slice_to_prefix, slice_from_prefix.
    destruct export; reflexivity.
  - intros os args inputList st Hout.
    apply name_outputs_none_supplied, Hout.
Qed.

Lemma derived_name_with_extension_witness :
  derived_name false ("archive.tar" ++ "." ++ "gz") = "archive.tar_ALTERED.gz"
  /\ derived_name true ("archive.tar" ++ "." ++ "gz") = "archive.tar.xml"
  /\ (forall (os : OS) (st : St os),
         name_outputs os (set_output_file (Some []) (default_args ["clip.mov"]))
                      ["clip.mov"] st
         = (Ret (set_output_file (Some ["clip_ALTERED.mov"])
                                 (default_args ["clip.mov"])), st)).
Proof.
  split; [|split].
  - exact (proj1 derived_name_with_extension false "archive.tar" "gz" eq_refl).
  - exact (proj1 derived_name_with_extension true "archive.tar" "gz" eq_refl).
  - intros os st.
    exact (proj2 (proj2 (proj2 derived_name_with_extension)) os
             (set_output_file (Some []) (default_args ["clip.mov"]))
             ["clip.mov"] st eq_refl).
Defined.

(** C10. For a non-empty input name [s ++ c] that holds no dot, [rfind]
    answers [-1], the slices cut before the last character, and the derived
    name is [s ++ "_ALTERED" ++ c] (or [s ++ ".xml"] when exporting): the
    last character is taken for the extension. *)
Theorem derived_name_without_dot :
  forall (export : bool) (s : string) (c : ascii),
    PyStr.contains dot (s ++ String c EmptyString) = false ->
    PyStr.rfind dot (s ++ String c EmptyString) = -1
    /\ derived_name export (s ++ String c EmptyString) =
         if export then s ++ ".xml" else s ++ "_ALTERED" ++ String c EmptyString.
Proof.
  intros export s c H.
  pose proof (rfind_absent _ _ H) as Hr. split; [exact Hr|].
  unfold derived_name. rewrite Hr.
  unfold PyStr.slice_to, PyStr.slice_from. rewrite bound_minus_one.
  rewrite take_app, drop_app. destruct export; reflexivity.
Qed.

Lemma derived_name_without_dot_witness :
  derived_name false "README" = "READM_ALTEREDE"
  /\ derived_name true "README" = "READM.xml".
Proof.
  split.
  - exact (proj2 (derived_name_without_dot false "READM" "E"%char eq_refl)).
  - exact (proj2 (derived_name_without_dot true "READM" "E"%char eq_refl)).
Defined.

(** ** Rules for [sat] *)

Section SatRules.

Context {os : OS}.
Variable E : Event -> Prop.
Variable X : Z -> Prop.

Lemma sat_ret {A} (R : A -> Prop) (a : A) : R a -> sat E X R (@ret os A a).
Proof.
  intros Ha st res st' H. injection H as <- <-.
  split; [exists []; rewrite app_nil_r; auto | exact Ha].
Qed.

Lemma sat_raise {A} (R : A -> Prop) e : sat E X R (@raise os A e).
Proof.
  intros st res st' H. injection H as <- <-.
  split; [exists []; rewrite app_nil_r; auto | exact I].
Qed.

Lemma sat_sys_exit {A} (R : A -> Prop) status :
  X status -> sat E X R (@sys_exit os A status).
Proof.
  intros Hx st res st' H. injection H as <- <-.
  split; [exists []; rewrite app_nil_r; auto | exact Hx].
Qed.

Lemma sat_emit (R : unit -> Prop) ev : E ev -> R tt -> sat E X R (@emit os ev).
Proof.
  intros He Hr st res st' H. injection H as <- <-.
  split; [exists [ev]; auto | exact Hr].
Qed.

Lemma sat_print (R : unit -> Prop) line :
  E (EPrint line) -> R tt -> sat E X R (@print os line).
Proof. apply sat_emit. Qed.

Lemma sat_observe {A} (R : A -> Prop) (f : World os -> A) :
  (forall w, R (f w)) -> sat E X R (observe f).
Proof.
  intros Hr st res st' H. injection H as <- <-.
  split; [exists []; rewrite app_nil_r; auto | apply Hr].
Qed.

Lemma sat_outside {A} (R : A -> Prop) ev (f : World os -> Try A * World os) :
  E ev -> (forall a, R a) -> sat E X R (outside ev f).
Proof.
  intros He Hr st res st' H. unfold outside in H.
  destruct (f (world st)) as [t w]. injection H as <- <-.
  split; [exists [ev]; auto | destruct t; cbn; auto].
Qed.

Lemma sat_module_call {A} (R : A -> Prop) ev
    (f : World os -> Res A * World os) :
  E ev -> (forall a, R a) -> (forall s, X s) -> sat E X R (module_call ev f).
Proof.
  intros He Hr Hx st res st' H. unfold module_call in H.
  destruct (f (world st)) as [t w]. injection H as <- <-.
  split; [exists [ev]; auto | destruct t; cbn; auto].
Qed.

Lemma sat_bind {A B} (R : A -> Prop) (R' : B -> Prop)
    (m : M os A) (k : A -> M os B) :
  sat E X R m -> (forall a, R a -> sat E X R' (k a)) -> sat E X R' (bind m k).
Proof.
  intros Hm Hk st res st' H. unfold bind in H.
  destruct (m st) as [[a|s|e] st1] eqn:Em;
    destruct (Hm _ _ _ Em) as [(l1 & Hl1 & Hf1) Hr1].
  - destruct (Hk a Hr1 _ _ _ H) as [(l2 & Hl2 & Hf2) Hr2].
    split; [|exact Hr2].
    exists (l1 ++ l2)%list. rewrite Hl2, Hl1, app_assoc.
    split; [reflexivity | apply Forall_app; auto].
  - injection H as <- <-. split; [exists l1; auto | exact Hr1].
  - injection H as <- <-. split; [exists l1; auto | exact I].
Qed.

Lemma sat_weaken {A} (R R' : A -> Prop) (m : M os A) :
  sat E X R m -> (forall a, R a -> R' a) -> sat E X R' m.
Proof.
  intros Hm Hw st res st' H. destruct (Hm _ _ _ H) as [Hl Hr].
  split; [exact Hl | destruct res; auto].
Qed.

Lemma sat_when (R : unit -> Prop) b (m : M os unit) :
  sat E X R m -> R tt -> sat E X R (when b m).
Proof. intros Hm Hr. destruct b; cbn; [exact Hm | apply sat_ret, Hr]. Qed.

Lemma sat_lookup {A} (R : A -> Prop) name (v : option A) :
  (forall a, v = Some a -> R a) -> sat E X R (@lookup os A name v).
Proof.
  intros Hr. destruct v; cbn; [apply sat_ret; auto | apply sat_raise].
Qed.

Lemma sat_item {A} (R : A -> Prop) (l : list A) i :
  (forall a, nth_error l i = Some a -> R a) -> sat E X R (@item os A l i).
Proof.
  intros Hr. unfold item.
  destruct (nth_error l i); [apply sat_ret; auto | apply sat_raise].
Qed.

Lemma sat_for_each {A B} (Inv : B -> Prop) (l : list A) (body : A -> B -> M os B) :
  (forall x acc, In x l -> Inv acc -> sat E X Inv (body x acc)) ->
  forall acc, Inv acc -> sat E X Inv (for_each l acc body).
Proof.
  induction l as [|x l IH]; intros Hb acc Hacc; cbn [for_each].
  - apply sat_ret, Hacc.
  - apply sat_bind with (R := Inv).
    + apply Hb; [left; reflexivity | exact Hacc].
    + intros acc' Hacc'. apply IH; [|exact Hacc'].
      intros y a Hy. apply Hb. right. exact Hy.
Qed.

Lemma sat_try_except {A} (R : A -> Prop) (m h : M os A) caught :
  sat E X R m -> sat E X R h -> sat E X R (try_except m caught h).
Proof.
  intros Hm Hh st res st' H. unfold try_except in H.
  destruct (m st) as [[a|s|e] st1] eqn:Em;
    destruct (Hm _ _ _ Em) as [(l1 & Hl1 & Hf1) Hr1].
  - injection H as <- <-. split; [exists l1; auto | exact Hr1].
  - injection H as <- <-. split; [exists l1; auto | exact Hr1].
  - destruct (caught e).
    + destruct (Hh _ _ _ H) as [(l2 & Hl2 & Hf2) Hr2].
      split; [|exact Hr2].
      exists (l1 ++ l2)%list. rewrite Hl2, Hl1, app_assoc.
      split; [reflexivity | apply Forall_app; auto].
    + injection H as <- <-. split; [exists l1; auto | exact I].
Qed.

Lemma sat_try_except_all {A} (R : A -> Prop) (m h : M os A) :
  sat E X R m -> sat E X R h -> sat E X R (try_except_all m h).
Proof.
  intros Hm Hh st res st' H. unfold try_except_all in H.
  destruct (m st) as [[a|s|e] st1] eqn:Em;
    destruct (Hm _ _ _ Em) as [(l1 & Hl1 & Hf1) Hr1].
  - injection H as <- <-. split; [exists l1; auto | exact Hr1].
  - destruct (Hh _ _ _ H) as [(l2 & Hl2 & Hf2) Hr2].
    split; [|exact Hr2].
    exists (l1 ++ l2)%list. rewrite Hl2, Hl1, app_assoc.
    split; [reflexivity | apply Forall_app; auto].
  - destruct (Hh _ _ _ H) as [(l2 & Hl2 & Hf2) Hr2].
    split; [|exact Hr2].
    exists (l1 ++ l2)%list. rewrite Hl2, Hl1, app_assoc.
    split; [reflexivity | apply Forall_app; auto].
Qed.

Lemma sat_make_temp (R : string -> Prop) :
  (forall d, E (EMkdtemp d)) -> (forall d, R d) -> sat E X R (make_temp os).
Proof.
  intros He Hr st res st' H. unfold make_temp in H.
  destruct (mkdtemp os (world st)) as [[d|e] w]; injection H as <- <-.
  - split; [exists [EMkdtemp d]; auto | apply Hr].
  - split; [exists []; rewrite app_nil_r; auto | exact I].
Qed.

Lemma sat_subprocess_call (R : unit -> Prop) cmd :
  E (ECall cmd) -> R tt -> sat E X R (subprocess_call os cmd).
Proof.
  intros He Hr. unfold subprocess_call.
  apply sat_bind with (R := fun _ => True).
  - apply sat_outside; auto.
  - intros _ _. apply sat_ret, Hr.
Qed.

End SatRules.

(** What [sat] says of a run that starts from an empty record. *)
Lemma sat_run {os A} E X (R : A -> Prop) (m : M os A) w res st' :
  sat E X R m -> m (mkSt w []) = (res, st') -> Forall E (log st').
Proof.
  intros Hm H. destruct (Hm _ _ _ H) as [(l & Hl & Hf) _].
  rewrite Hl. exact Hf.
Qed.

(** A loop over [l1 ++ l2] is the loop over [l1] followed by the loop
    over [l2]. *)
Lemma for_each_app {os A B} (l1 l2 : list A) (body : A -> B -> M os B) :
  forall acc st,
    for_each (l1 ++ l2) acc body st =
      match for_each l1 acc body st with
      | (Ret acc', st') => for_each l2 acc' body st'
      | (Exit status, st') => (Exit status, st')
      | (Raise e, st') => (Raise e, st')
      end.
Proof.
  induction l1 as [|x l1 IH]; intros acc st; cbn [app for_each].
  - reflexivity.
  - unfold bind. destruct (body x acc st) as [[a|s|e] st1]; auto.
Qed.

(** ** The Input Resolver *)

Section ResolverFacts.

Context (os : OS) (g : Globals).

Lemma input_clamp_speeds args : input (clamp_speeds args) = input args.
Proof.
  unfold clamp_speeds.
  destruct (speed_out_of_range (silent_speed args));
    match goal with
    | |- context [if ?b then _ else _] => destruct b
    end; reflexivity.
Qed.

(** One round of the resolver loop adds only early events and leaves
    only with a status other than [0]. *)
Lemma resolve_one_early ffmpeg myInput inputList :
  sat (early_event (cache os)) (fun s => s <> 0) (fun _ => True)
      (resolve_one os g ffmpeg myInput inputList).
Proof.
  unfold resolve_one, is_dir, is_file.
  apply sat_bind with (R := fun _ => True); [apply sat_observe; auto|].
  intros [|] _.
  - apply sat_bind with (R := fun _ => True); [apply sat_lookup; auto|].
    intros sort _.
    apply sat_bind with (R := fun _ => True);
      [apply sat_outside; cbn; auto|].
    intros entries _. apply sat_ret, I.
  - apply sat_bind with (R := fun _ => True); [apply sat_observe; auto|].
    intros [|] _; [apply sat_ret, I|].
    destruct (_ || _)%bool.
    + apply sat_bind with (R := fun _ => True);
        [apply sat_print; exact I|].
      intros _ _.
      apply sat_bind with (R := fun _ => True).
      * apply sat_subprocess_call; [|exact I].
        destruct (negb _); reflexivity.
      * intros _ _. apply sat_ret, I.
    + apply sat_bind with (R := fun _ => True);
        [apply sat_print; exact I|].
      intros _ _. apply sat_sys_exit. discriminate.
Qed.

Lemma resolve_early ffmpeg inputs :
  sat (early_event (cache os)) (fun s => s <> 0) (fun _ => True)
      (resolve os g ffmpeg inputs).
Proof.
  unfold resolve. apply sat_for_each; [|exact I].
  intros x acc _ _. apply resolve_one_early.
Qed.

(** The last branch of the resolver loop (lines 169-171). *)
Lemma resolve_one_invalid ffmpeg r inputList (st : St os) :
  isdir os (world st) r = false ->
  isfile os (world st) r = false ->
  is_url r = false ->
  resolve_one os g ffmpeg r inputList st =
    (Exit 1, mkSt (world st) (log st ++ [EPrint ("Could not find file: " ++ r)])).
Proof.
  intros Hd Hf Hu. unfold resolve_one, is_dir, is_file, observe, bind.
  rewrite Hd, Hf. unfold is_url in Hu. rewrite Hu. reflexivity.
Qed.

(** The code before the batch adds only early events. *)
Lemma startup_early args :
  sat (early_event (cache os)) (fun _ => True) (fun _ => True) (startup os args).
Proof.
  unfold startup, choose_ffmpeg, debug_report, is_dir, is_file.
  apply sat_bind with (R := fun _ => True).
  { apply sat_when; [|exact I].
    apply sat_bind with (R := fun _ => True); [apply sat_print; exact I|].
    intros _ _. apply sat_sys_exit, I. }
  intros _ _. apply sat_bind with (R := fun _ => True).
  { apply sat_when; [|exact I].
    apply sat_bind with (R := fun _ => True); [apply sat_observe; auto|].
    intros there _. apply sat_bind with (R := fun _ => True).
    { apply sat_when; [|exact I]. apply sat_outside; [reflexivity|auto]. }
    intros _ _.
    apply sat_bind with (R := fun _ => True); [apply sat_print; exact I|].
    intros _ _. destruct (input args); [apply sat_sys_exit|apply sat_ret]; exact I. }
  intros _ _. apply sat_bind with (R := fun _ => True).
  { cbv zeta.
    repeat match goal with
           | |- context [if (?a && ?b)%bool then _ else _] =>
               destruct (a && b)%bool
           end;
      try (apply sat_ret; exact I);
      (apply sat_bind with (R := fun _ => True); [apply sat_observe; auto|];
       intros ? _; apply sat_ret; exact I). }
  intros ffmpeg _. apply sat_bind with (R := fun _ => True).
  { apply sat_when; [|exact I].
    do 4 (apply sat_bind with (R := fun _ => True);
          [apply sat_print; exact I|]; intros _ _).
    destruct (input args); [apply sat_sys_exit|apply sat_ret]; exact I. }
  intros _ _. destruct (input args); [|apply sat_ret; exact I].
  do 2 (apply sat_bind with (R := fun _ => True);
        [apply sat_print; exact I|]; intros _ _).
  apply sat_sys_exit, I.
Qed.

(** From the state [st1] in which the batch starts, [main] ends where
    its resolver ends whenever the resolver does not return. *)
Lemma run_batch_stops_with_resolver args ffmpeg INPUT_FILE st1 res st' :
  resolve os g ffmpeg (input args) st1 = (res, st') ->
  (forall l, res <> Ret l) ->
  run_batch os g args ffmpeg (cache os) INPUT_FILE st1 = (ended res, st').
Proof.
  intros H Hn. unfold run_batch, bind at 1. rewrite H.
  destruct res as [l|s|e]; [destruct (Hn l eq_refl)| |]; reflexivity.
Qed.

End ResolverFacts.

(** C7. When [main] gets as far as the Input Resolver, and some input
    reference is, in the outside state in which the resolver loop comes to
    it, neither a directory nor a file, and has neither URL prefix, the run
    ends inside the resolver with an exit status other than [0], and
    everything the run did is an early event: no probe, no repair, no
    naming, no strategy call. *)
Theorem invalid_reference_aborts_batch :
  forall (os : OS) (g : Globals) (args : Args) (w : World os)
         (ffmpeg : string) (st1 : St os) (pre : list string) (r : string)
         (post : list string),
    startup os args (mkSt w []) = (Ret ffmpeg, st1) ->
    input args = (pre ++ r :: post)%list ->
    is_url r = false ->
    (forall l st', resolve os g ffmpeg pre st1 = (Ret l, st') ->
                   isfile os (world st') r = false
                   /\ isdir os (world st') r = false) ->
    exists res st',
      run os g args w = (res, st')
      /\ resolve os g ffmpeg (input args) st1 = (ended res, st')
      /\ exit_status res <> 0
      /\ Forall (early_event (cache os)) (log st').
Proof.
  intros os g args w ffmpeg st1 pre r post Hstart Hin Hurl Hworld.
  assert (Hlog1 : Forall (early_event (cache os)) (log st1)).
  { exact (sat_run _ _ _ _ _ _ _ (startup_early os args) Hstart). }
  (* how the resolver ends *)
  assert (Hres : exists res st',
             resolve os g ffmpeg (input args) st1 = (res, st')
             /\ (forall l, res <> Ret l)
             /\ exit_status res <> 0
             /\ Forall (early_event (cache os)) (log st')).
  { rewrite Hin. unfold resolve at 1. rewrite for_each_app.
    fold (resolve os g ffmpeg pre).
    destruct (resolve os g ffmpeg pre st1) as [[l|s|e] st2] eqn:Epre;
      destruct (resolve_early os g ffmpeg pre _ _ _ Epre)
        as [(l2 & Hl2 & Hf2) Hx].
    - destruct (Hworld l st2 eq_refl) as [Hf Hd].
      cbn [for_each]. unfold bind at 1.
      rewrite (resolve_one_invalid os g ffmpeg r l st2 Hd Hf Hurl).
      eexists _, _. split; [reflexivity|].
      split; [discriminate|]. split; [discriminate|].
      cbn [log]. rewrite Hl2.
      apply Forall_app. split; [apply Forall_app; auto|].
      constructor; [exact I | constructor].
    - eexists _, _. split; [reflexivity|].
      split; [discriminate|]. split; [exact Hx|].
      rewrite Hl2. apply Forall_app; auto.
    - eexists _, _. split; [reflexivity|].
      split; [discriminate|]. split; [discriminate|].
      rewrite Hl2. apply Forall_app; auto. }
  destruct Hres as (res & st' & Hres & Hnot & Hstatus & Hlog).
  assert (Hres' : resolve os g ffmpeg (input (clamp_speeds args)) st1 = (res, st'))
    by (rewrite input_clamp_speeds; exact Hres).
  pose proof (fun f => run_batch_stops_with_resolver os g (clamp_speeds args)
                         ffmpeg f st1 res st' Hres' Hnot) as Hbatch.
  exists (ended res), st'.
  assert (Hended : @ended (list string) (list string) res = @ended unit (list string) (ended res)).
  { destruct res as [l| |]; [destruct (Hnot l eq_refl)| |]; reflexivity. }
  split; [|split; [|split]].
  - unfold run, main, bind at 1. rewrite Hstart.
    rewrite input_clamp_speeds, Hin.
    destruct pre as [|p pre]; cbn [app]; apply Hbatch.
  - rewrite Hres. f_equal.
    destruct res as [l| |]; [destruct (Hnot l eq_refl)| |]; reflexivity.
  - destruct res as [l| |]; [destruct (Hnot l eq_refl)| |]; exact Hstatus.
  - exact Hlog.
Qed.

Lemma invalid_reference_aborts_batch_witness :
  let os := Sample.machine (fun _ => Sample.steady) true in
  let disk := Sample.mkDisk ["a.mp4"] [] 0 in
  let args := default_args ["a.mp4"; "missing.mp4"; "b.mp4"] in
  exists res st',
    run os shipped args disk = (res, st')
    /\ resolve os shipped "ffmpeg" (input args) (@mkSt os disk [])
       = (ended res, st')
    /\ exit_status res <> 0
    /\ Forall (early_event (cache os)) (log st').
Proof.
  intros os disk args.
  apply (invalid_reference_aborts_batch os shipped args disk "ffmpeg"
           (@mkSt os disk []) ["a.mp4"] "missing.mp4" ["b.mp4"]).
  - reflexivity.
  - reflexivity.
  - reflexivity.
  - intros l st' H. vm_compute in H. injection H as _ <-.
    split; reflexivity.
Defined.


(** ** The loop body: probe, repair and dispatch *)

Lemma sat_events {os A} (E E' : Event -> Prop) X (R : A -> Prop) (m : M os A) :
  (forall ev, E ev -> E' ev) -> sat E X R m -> sat E' X R m.
Proof.
  intros HE Hm st res st' H. destruct (Hm _ _ _ H) as [(l & Hl & Hf) Hr].
  split; [|exact Hr]. exists l. split; [exact Hl|].
  eapply Forall_impl; [exact HE | exact Hf].
Qed.

Lemma sat_exits {os A} E (X X' : Z -> Prop) (R : A -> Prop) (m : M os A) :
  (forall s, X s -> X' s) -> sat E X R m -> sat E X' R m.
Proof.
  intros HX Hm st res st' H. destruct (Hm _ _ _ H) as [Hl Hr].
  split; [exact Hl|]. destruct res; auto.
Qed.

Lemma early_is_background cache ev : early_event cache ev -> background ev.
Proof. destruct ev; cbn; auto. Qed.

Lemma calls_app l1 l2 : calls (l1 ++ l2) = (calls l1 ++ calls l2)%list.
Proof.
  induction l1 as [|ev l1 IH]; [reflexivity|].
  destruct ev; cbn [app calls]; rewrite IH; reflexivity.
Qed.

Lemma calls_background l : Forall background l -> calls l = [].
Proof.
  induction 1 as [|ev l Hev _ IH]; [reflexivity|].
  destruct ev; cbn [calls]; try exact IH; destruct Hev.
Qed.

Section LoopFacts.

Context (os : OS) (g : Globals).

Lemma probe_background ffmpeg f args :
  sat background (fun _ => True) (fun _ => True) (probe os ffmpeg f args).
Proof.
  unfold probe.
  apply sat_bind with (R := fun _ => True);
    [apply sat_outside; [exact I|auto]|].
  intros output _.
  apply sat_bind with (R := fun _ => True).
  { apply sat_when; [|exact I].
    do 2 (apply sat_bind with (R := fun _ => True);
          [apply sat_print; exact I|]; intros _ _).
    apply sat_print; exact I. }
  intros _ _. destruct (PyRe.search_tbr output) as [fps|];
    [destruct (PyRe.float_accepts fps)|];
    first [apply sat_ret; exact I | apply sat_raise].
Qed.

Lemma repair_background ffmpeg f args :
  sat background (fun _ => True) (fun _ => True) (repair os g ffmpeg f args).
Proof.
  unfold repair.
  do 2 (apply sat_bind with (R := fun _ => True);
        [apply sat_print; exact I|]; intros _ _).
  apply sat_bind with (R := fun _ => True);
    [apply sat_make_temp; [intros; exact I|auto]|].
  intros TEMP _.
  apply sat_bind with (R := fun _ => True); [apply sat_lookup; auto|].
  intros extension _.
  apply sat_bind with (R := fun _ => True);
    [apply sat_subprocess_call; exact I|].
  intros _ _. apply sat_ret, I.
Qed.

(** Lines 222-244 as a whole. *)
Lemma probe_or_repair_background ffmpeg f args TEMP :
  sat background (fun _ => True) (fun _ => True)
      (try_except
         (probe os ffmpeg f args ;; ret (TEMP, f))
         is_AttributeError
         (repair os g ffmpeg f args)).
Proof.
  apply sat_try_except; [|apply repair_background].
  apply sat_bind with (R := fun _ => True); [apply probe_background|].
  intros _ _. apply sat_ret, I.
Qed.

Lemma when_print_background b line :
  sat background (fun _ => True) (fun _ => True)
      (@when os b (print line)).
Proof. apply sat_when; [apply sat_print|]; exact I. Qed.

(** A strategy call with [newOutput] looked up first: nothing is added
    to the record when the name is unbound, and the one call otherwise. *)
Lemma dispatch_record (mk : string -> Call) (TEMP : option string)
    (st : St os) res st' :
  (newOutput <- lookup "newOutput" (g_newOutput g) ;;
   run_strategy os (mk newOutput) ;; ret TEMP) st = (res, st') ->
  (g_newOutput g = None /\ log st' = log st)
  \/ (exists o, g_newOutput g = Some o
                /\ log st' = (log st ++ [EStrategy (mk o)])%list).
Proof.
  unfold lookup. destruct (g_newOutput g) as [o|]; intros H.
  - right. exists o. split; [reflexivity|].
    unfold bind, ret, run_strategy, module_call in H.
    destruct (strategy os (mk o) (world st)) as [[[]|s|e] w];
      injection H as <- <-; reflexivity.
  - left. split; [reflexivity|].
    unfold bind, raise in H. injection H as <- <-. reflexivity.
Qed.

(** The loop body makes at most one strategy call, and the call is of
    the strategy that [select_strategy] names. *)
Lemma process_one_calls args ffmpeg cache f TEMP (st : St os) res st' :
  process_one os g args ffmpeg cache f TEMP st = (res, st') ->
  exists l,
    log st' = (log st ++ l)%list
    /\ (calls l = []
        \/ exists c, calls l = [c]
                     /\ strategy_of c = select_strategy args (isAudioFile os f)).
Proof.
  unfold process_one, select_strategy.
  destruct (export_to_premiere args).
  { intros H. apply dispatch_record in H.
    destruct H as [[_ Hl]|(o & _ & Hl)]; rewrite Hl.
    - exists []. rewrite app_nil_r. auto.
    - eexists. split; [reflexivity|]. right. eexists. split; reflexivity. }
  destruct (isAudioFile os f).
  { intros H. apply dispatch_record in H.
    destruct H as [[_ Hl]|(o & _ & Hl)]; rewrite Hl.
    - exists []. rewrite app_nil_r. auto.
    - eexists. split; [reflexivity|]. right. eexists. split; reflexivity. }
  intros H. unfold bind at 1 in H.
  destruct (try_except _ _ _ st) as [[[TEMP1 f1]|s|e] st1] eqn:Etry;
    destruct (probe_or_repair_background _ _ _ _ _ _ _ Etry)
      as [(l1 & Hl1 & Hb1) _].
  2,3: injection H as <- <-; exists l1; split;
       [exact Hl1 | left; apply calls_background, Hb1].
  unfold bind at 1 in H.
  match type of H with
  | context [when ?b ?m] =>
      destruct (when b m st1) as [[[]|s|e] st2] eqn:Ewhen;
      destruct (when_print_background b _ _ _ _ Ewhen)
        as [(l2 & Hl2 & Hb2) _]
  end.
  2,3: injection H as <- <-; exists (l1 ++ l2)%list; split;
       [rewrite Hl2, Hl1, <- app_assoc; reflexivity
       |left; apply calls_background, Forall_app; auto].
  assert (Hquiet : calls (l1 ++ l2) = [])
    by (apply calls_background, Forall_app; auto).
  destruct (fast_video_ok args).
  - unfold bind at 1 in H.
    match type of H with
    | context [bind (lookup _ _) ?k] =>
        destruct (bind (lookup "newOutput" (g_newOutput g)) k st2)
          as [r3 st3] eqn:Ecall
    end.
    assert (Hd : (g_newOutput g = None /\ log st3 = log st2)
                 \/ exists o, g_newOutput g = Some o
                              /\ log st3 = (log st2 ++ [EStrategy
                                   (fastVideo ffmpeg f1 o (silent_threshold args)
                                      (frame_margin args) (sample_rate args)
                                      (audio_bitrate args) (debug args)
                                      (video_speed args) (silent_speed args)
                                      (cut_by_this_track args)
                                      (keep_tracks_seperate args))])%list).
    { revert Ecall. unfold lookup.
      destruct (g_newOutput g) as [o|]; intros Ecall.
      - right. exists o. split; [reflexivity|].
        unfold bind, ret, run_strategy, module_call in Ecall.
        destruct (strategy os _ (world st2)) as [[[]|s|e] w];
          injection Ecall as <- <-; reflexivity.
      - left. split; [reflexivity|].
        unfold bind, raise in Ecall. injection Ecall as <- <-. reflexivity. }
    assert (Hst : log st' = log st3)
      by (destruct r3 as [[]|s|e]; unfold ret in H; injection H as <- <-;
          reflexivity).
    destruct Hd as [[_ Hl3]|(o & _ & Hl3)]; rewrite Hst, Hl3, Hl2, Hl1.
    + exists (l1 ++ l2)%list.
      split; [rewrite <- app_assoc; reflexivity | left; exact Hquiet].
    + eexists ((l1 ++ l2) ++ [_])%list.
      split; [rewrite <- !app_assoc; reflexivity|]. right. eexists.
      rewrite calls_app, Hquiet. split; reflexivity.
  - unfold bind at 1 in H.
    match type of H with
    | context [bind (lookup _ _) ?k] =>
        destruct (bind (lookup "newOutput" (g_newOutput g)) k st2)
          as [r3 st3] eqn:Ecall
    end.
    assert (Hd : (g_newOutput g = None /\ log st3 = log st2)
                 \/ exists c, strategy_of c = OriginalFull
                              /\ log st3 = (log st2 ++ [EStrategy c])%list).
    { revert Ecall. unfold lookup.
      destruct (g_newOutput g) as [o|]; intros Ecall.
      - right. eexists. split; [|].
        2:{ unfold bind, ret, run_strategy, module_call in Ecall.
            destruct (strategy os _ (world st2)) as [[[]|s|e] w];
              injection Ecall as <- <-; reflexivity. }
        reflexivity.
      - left. split; [reflexivity|].
        unfold bind, raise in Ecall. injection Ecall as <- <-. reflexivity. }
    assert (Hst : log st' = log st3)
      by (destruct r3 as [[]|s|e]; unfold ret in H; injection H as <- <-;
          reflexivity).
    destruct Hd as [[_ Hl3]|(c & Hc & Hl3)]; rewrite Hst, Hl3, Hl2, Hl1.
    + exists (l1 ++ l2)%list.
      split; [rewrite <- app_assoc; reflexivity | left; exact Hquiet].
    + exists ((l1 ++ l2) ++ [EStrategy c])%list.
      split; [rewrite <- !app_assoc; reflexivity|]. right. exists c.
      rewrite calls_app, Hquiet. split; [reflexivity|exact Hc].
Qed.

End LoopFacts.

(** C1 as the specification words it does not hold: with the default
    options nothing asks for background music or for an audio file to cut
    by, and the zoom threshold [1.01] exceeds the sounded-volume threshold
    [0.04], so the wording sends a video to OriginalFull; line 249 tests
    the zoom threshold against [1] and sends it to VideoFast. *)
Lemma select_strategy_differs_from_specification :
  let args := default_args ["clip.mp4"] in
  background_music args = None
  /\ cut_by_this_audio args = None
  /\ PrimFloat.ltb (silent_threshold args) (zoom_threshold args) = true
  /\ select_strategy_as_specified args false = OriginalFull
  /\ select_strategy args false = VideoFast.
Proof. repeat split; reflexivity. Qed.

(** C1, amended. For every input the loop body reaches exactly one of the
    four strategies, the first whose condition holds: PremiereExport when
    exporting to Premiere; otherwise AudioFast when the input is an audio
    file; otherwise VideoFast when there is no background music, no audio
    file to cut by, and the zoom threshold is above [1]; otherwise
    OriginalFull.  Whatever strategy call the loop body makes for the input
    is a call of that strategy, and it makes at most one. *)
Theorem strategy_precedence :
  forall (os : OS) (args : Args) (INPUT_FILE : string),
    let audio := isAudioFile os INPUT_FILE in
    let choice := select_strategy args audio in
    (export_to_premiere args = true -> choice = PremiereExport)
    /\ (export_to_premiere args = false -> audio = true -> choice = AudioFast)
    /\ (export_to_premiere args = false -> audio = false ->
        background_music args = None -> cut_by_this_audio args = None ->
        PrimFloat.ltb 1 (zoom_threshold args) = true ->
        choice = VideoFast)
    /\ (export_to_premiere args = false -> audio = false ->
        (background_music args <> None \/ cut_by_this_audio args <> None
         \/ PrimFloat.ltb 1 (zoom_threshold args) = false) ->
        choice = OriginalFull)
    /\ (forall (g : Globals) (ffmpeg cache : string) (TEMP : option string)
               (st : St os) res st',
           process_one os g args ffmpeg cache INPUT_FILE TEMP st = (res, st') ->
           exists l,
             log st' = (log st ++ l)%list
             /\ (calls l = []
                 \/ exists c, calls l = [c] /\ strategy_of c = choice)).
Proof.
  intros os args f audio choice. subst choice. unfold select_strategy.
  repeat split.
  - intros ->. reflexivity.
  - intros -> ->. reflexivity.
  - intros -> -> Hb Hc Hz. unfold fast_video_ok. rewrite Hb, Hc, Hz. reflexivity.
  - intros -> -> H. unfold fast_video_ok.
    destruct (background_music args) as [b|]; [reflexivity|].
    destruct (PrimFloat.ltb 1 (zoom_threshold args)); [|reflexivity].
    destruct (cut_by_this_audio args) as [c|]; [reflexivity|].
    destruct H as [H|[H|H]]; [destruct (H eq_refl)|destruct (H eq_refl)|discriminate].
  - intros g ffmpeg cache TEMP st res st' H.
    exact (process_one_calls os g args ffmpeg cache f TEMP st res st' H).
Qed.

Lemma strategy_precedence_witness :
  select_strategy (default_args ["clip.mp4"])
    (isAudioFile (Sample.machine (fun _ => Sample.steady) true) "clip.mp4")
  = VideoFast
  /\ select_strategy (default_args ["talk.wav"])
       (isAudioFile (Sample.machine (fun _ => Sample.steady) true) "talk.wav")
     = AudioFast.
Proof.
  split.
  - exact (proj1 (proj2 (proj2
             (strategy_precedence (Sample.machine (fun _ => Sample.steady) true)
                                  (default_args ["clip.mp4"]) "clip.mp4")))
             eq_refl eq_refl eq_refl eq_refl eq_refl).
  - exact (proj1 (proj2
             (strategy_precedence (Sample.machine (fun _ => Sample.steady) true)
                                  (default_args ["talk.wav"]) "talk.wav"))
             eq_refl eq_refl).
Defined.

(** ** Speed options *)

Section FloatOrder.

Lemma SFcompare_swap x y :
  SFcompare y x = option_map CompOpp (SFcompare x y).
Proof.
  destruct x as [sx|sx| |sx mx ex], y as [sy|sy| |sy my ey]; cbn;
    try reflexivity;
    try (destruct sx; reflexivity);
    try (destruct sy; reflexivity);
    try (destruct sx, sy; reflexivity).
  destruct sx, sy; cbn; try reflexivity;
    rewrite (Z.compare_antisym ex ey);
    destruct (ex ?= ey)%Z; cbn; try reflexivity;
    change (PosDef.Pos.compare_cont Eq my mx) with (Pos.compare my mx);
    change (PosDef.Pos.compare_cont Eq mx my) with (Pos.compare mx my);
    rewrite (Pos.compare_antisym mx my);
    destruct (Pos.compare mx my); reflexivity.
Qed.

Lemma ltb_not_leb x y : PrimFloat.ltb x y = true -> PrimFloat.leb y x = false.
Proof.
  rewrite ltb_spec, leb_spec. unfold SFltb, SFleb.
  rewrite (SFcompare_swap (Prim2SF x) (Prim2SF y)).
  destruct (SFcompare (Prim2SF x) (Prim2SF y)) as [[| |]|];
    cbn; congruence.
Qed.

Lemma leb_not_ltb x y : PrimFloat.leb x y = true -> PrimFloat.ltb y x = false.
Proof.
  rewrite ltb_spec, leb_spec. unfold SFltb, SFleb.
  rewrite (SFcompare_swap (Prim2SF x) (Prim2SF y)).
  destruct (SFcompare (Prim2SF x) (Prim2SF y)) as [[| |]|];
    cbn; congruence.
Qed.

(** A speed in the interval (0, 99999] passes the test of lines 146 and
    148. *)
Lemma speed_in_range x :
  PrimFloat.ltb 0 x = true -> PrimFloat.leb x 99999 = true ->
  speed_out_of_range x = false.
Proof.
  intros H0 H1. unfold speed_out_of_range.
  rewrite (ltb_not_leb _ _ H0), (leb_not_ltb _ _ H1). reflexivity.
Qed.

Lemma clamp_speeds_silent args :
  silent_speed (clamp_speeds args) = clamp_speed (silent_speed args).
Proof.
  unfold clamp_speeds, clamp_speed.
  destruct (speed_out_of_range (silent_speed args)); cbn;
    destruct (speed_out_of_range (video_speed args)); reflexivity.
Qed.

Lemma clamp_speeds_video args :
  video_speed (clamp_speeds args) = clamp_speed (video_speed args).
Proof.
  unfold clamp_speeds, clamp_speed.
  destruct (speed_out_of_range (silent_speed args)); cbn;
    destruct (speed_out_of_range (video_speed args)); reflexivity.
Qed.

End FloatOrder.

Lemma background_carries s v ev : background ev -> carries_speeds s v ev.
Proof. destruct ev; cbn; auto; intros []. Qed.

Section SpeedFacts.

Context (os : OS) (g : Globals).

(** The naming pass changes [args.output_file] and nothing else, and
    does nothing that can be seen from outside. *)
Lemma name_outputs_keeps E X args inputList :
  sat E X (fun args' => exists outs, args' = set_output_file outs args)
      (name_outputs os args inputList).
Proof.
  intros st res st' H.
  destruct (output_file args) as [outs|] eqn:Hout.
  - destruct (Nat.ltb (List.length outs) (List.length inputList)) eqn:Hlt.
    + apply Nat.ltb_lt in Hlt.
      rewrite (name_outputs_short os args inputList outs st Hout Hlt) in H.
      injection H as <- <-.
      split; [exists []; rewrite app_nil_r; auto | eexists; reflexivity].
    + apply Nat.ltb_ge in Hlt.
      rewrite (name_outputs_enough os args inputList outs st Hout Hlt) in H.
      injection H as <- <-.
      split; [exists []; rewrite app_nil_r; auto|].
      exists (Some outs). destruct args; cbn in Hout; subst; reflexivity.
  - rewrite (name_outputs_without_option os args inputList st Hout) in H.
    injection H as <- <-.
    split; [exists []; rewrite app_nil_r; auto | exact I].
Qed.

Lemma combine_background ffmpeg args inputList :
  sat background any_status anything (combine os ffmpeg args inputList).
Proof.
  unfold combine. destruct (combine_files args); [|apply sat_ret; exact I].
  apply sat_bind with (R := anything);
    [apply sat_outside; [exact I | intros; exact I]|].
  intros _ _.
  apply sat_bind with (R := anything);
    [apply sat_subprocess_call; exact I|].
  intros _ _.
  apply sat_bind with (R := anything);
    [apply sat_outside; [exact I | intros; exact I]|].
  intros _ _. apply sat_ret; exact I.
Qed.

Lemma run_preview_speeds ffmpeg f cache args :
  sat (carries_speeds (silent_speed args) (video_speed args))
      any_status anything (run_preview os ffmpeg f cache args).
Proof.
  unfold run_preview. apply sat_when; [|exact I].
  apply sat_bind with (R := anything).
  - apply sat_module_call; [split; reflexivity | intros; exact I
                           | intros; exact I].
  - intros _ _. apply sat_sys_exit; exact I.
Qed.

Lemma open_output_background outFile :
  sat background any_status anything (open_output os outFile).
Proof.
  unfold open_output. apply sat_try_except.
  - destruct (has_startfile os);
      [apply sat_outside; [exact I | intros; exact I] | apply sat_raise].
  - apply sat_try_except_all; [apply sat_subprocess_call; exact I|].
    apply sat_try_except_all; [apply sat_subprocess_call; exact I|].
    apply sat_print; exact I.
Qed.

Lemma finish_background args startTime TEMP :
  sat background any_status anything (finish os g args startTime TEMP).
Proof.
  unfold finish, is_file.
  apply sat_bind with (R := anything); [apply sat_print; exact I|].
  intros _ _.
  apply sat_bind with (R := anything);
    [apply sat_observe; intros; exact I|].
  intros endTime _.
  apply sat_bind with (R := anything); [apply sat_emit; exact I|].
  intros _ _.
  apply sat_bind with (R := anything);
    [apply sat_lookup; intros; exact I|].
  intros outFile _.
  apply sat_bind with (R := anything);
    [apply sat_observe; intros; exact I|].
  intros there _.
  apply sat_bind with (R := anything).
  { apply sat_when; [|exact I].
    apply sat_bind with (R := anything); [apply sat_print; exact I|].
    intros _ _. apply sat_sys_exit; exact I. }
  intros _ _.
  apply sat_bind with (R := anything).
  { apply sat_when; [apply open_output_background | exact I]. }
  intros _ _. destruct TEMP as [d|];
    [apply sat_outside; [exact I | intros; exact I] | apply sat_ret; exact I].
Qed.

(** Every strategy call of the loop body is given [args.silent_speed]
    and [args.video_speed]. *)
Lemma process_one_speeds args ffmpeg cache f TEMP :
  sat (carries_speeds (silent_speed args) (video_speed args))
      any_status anything (process_one os g args ffmpeg cache f TEMP).
Proof.
  assert (Hcall : forall (mk : string -> Call) (T : option string),
             (forall o, silent_speed_of (mk o) = silent_speed args
                        /\ video_speed_of (mk o) = video_speed args) ->
             sat (carries_speeds (silent_speed args) (video_speed args))
                 any_status anything
                 (newOutput <- lookup "newOutput" (g_newOutput g) ;;
                  @run_strategy os (mk newOutput) ;; ret T)).
  { intros mk T Hmk.
    apply sat_bind with (R := anything);
      [apply sat_lookup; intros; exact I|].
    intros o _. apply sat_bind with (R := anything).
    - apply sat_module_call; [apply Hmk | intros; exact I | intros; exact I].
    - intros _ _. apply sat_ret; exact I. }
  unfold process_one.
  destruct (export_to_premiere args);
    [apply Hcall; intros; split; reflexivity|].
  destruct (isAudioFile os f);
    [apply Hcall; intros; split; reflexivity|].
  apply sat_bind with (R := anything).
  { eapply sat_events; [apply background_carries|].
    apply probe_or_repair_background. }
  intros [TEMP1 f1] _.
  apply sat_bind with (R := anything).
  { eapply sat_events; [apply background_carries|].
    apply when_print_background. }
  intros _ _.
  apply sat_bind with (R := anything); [|intros _ _; apply sat_ret; exact I].
  destruct (fast_video_ok args).
  - apply sat_bind with (R := anything);
      [apply sat_lookup; intros; exact I|].
    intros o _.
    apply sat_module_call; [split; reflexivity | intros; exact I
                           | intros; exact I].
  - apply sat_bind with (R := anything);
      [apply sat_lookup; intros; exact I|].
    intros o _.
    apply sat_module_call; [split; reflexivity | intros; exact I
                           | intros; exact I].
Qed.

(** Lines 154-290 hand on the speeds of the [args] they are given. *)
Lemma run_batch_speeds args ffmpeg cachedir f :
  sat (carries_speeds (silent_speed args) (video_speed args))
      any_status anything (run_batch os g args ffmpeg cachedir f).
Proof.
  unfold run_batch.
  apply sat_bind with (R := anything).
  { apply sat_events
      with (E := early_event (cache os));
      [intros ev Hev; apply background_carries;
       exact (early_is_background _ _ Hev)|].
    eapply sat_exits; [|apply (resolve_early os g ffmpeg (input args))].
    intros; exact I. }
  intros inputList _.
  apply sat_bind with (R := fun args' =>
                             exists outs, args' = set_output_file outs args);
    [apply name_outputs_keeps|].
  intros args' [outs ->].
  apply sat_bind with (R := anything).
  { eapply sat_events; [apply background_carries|].
    apply combine_background. }
  intros inputList' _.
  apply sat_bind with (R := anything);
    [apply (run_preview_speeds ffmpeg f cachedir (set_output_file outs args))|].
  intros _ _.
  apply sat_bind with (R := anything);
    [apply sat_observe; intros; exact I|].
  intros startTime _.
  apply sat_bind with (R := anything).
  { unfold process_all. apply sat_for_each; [|exact I].
    intros x acc _ _.
    apply (process_one_speeds (set_output_file outs args)). }
  intros TEMP _.
  eapply sat_events; [apply background_carries|].
  apply finish_background.
Qed.

(** Whatever [main] hands to a strategy or to the preview, it hands the
    speeds as lines 146-149 leave them. *)
Lemma main_speeds args :
  sat (carries_speeds (clamp_speed (silent_speed args))
                      (clamp_speed (video_speed args)))
      any_status anything (main os g args).
Proof.
  unfold main.
  apply sat_bind with (R := anything).
  { apply sat_events
      with (E := early_event (cache os));
      [intros ev Hev; apply background_carries;
       exact (early_is_background _ _ Hev)|].
    apply startup_early. }
  intros ffmpeg _. cbv zeta.
  destruct (input (clamp_speeds args)) as [|f rest]; [apply sat_raise|].
  rewrite <- clamp_speeds_silent, <- clamp_speeds_video.
  apply run_batch_speeds.
Qed.

End SpeedFacts.

(** C9. The test of lines 146-149 replaces a speed that is at most [0] or
    above [99999] by [99999] and leaves a speed in (0, 99999] as it is, for
    the silent speed and for the sounded (video) speed alike; and every
    call that [main] makes to a strategy or to the preview is given the two
    speeds as that test leaves them. *)
Theorem speeds_clamped_before_processing :
  (forall x : float,
      PrimFloat.leb x 0 = true \/ PrimFloat.ltb 99999 x = true ->
      clamp_speed x = 99999%float)
  /\ (forall x : float,
         PrimFloat.ltb 0 x = true -> PrimFloat.leb x 99999 = true ->
         clamp_speed x = x)
  /\ (forall args : Args,
         silent_speed (clamp_speeds args) = clamp_speed (silent_speed args)
         /\ video_speed (clamp_speeds args) = clamp_speed (video_speed args))
  /\ (forall (os : OS) (g : Globals) (args : Args) (w : World os) res st',
         run os g args w = (res, st') ->
         Forall (carries_speeds (clamp_speed (silent_speed args))
                                (clamp_speed (video_speed args)))
                (log st')).
Proof.
  split; [|split; [|split]].
  - intros x H. unfold clamp_speed, speed_out_of_range.
    destruct H as [-> | ->]; [reflexivity|].
    rewrite orb_true_r. reflexivity.
  - intros x H0 H1. unfold clamp_speed.
    rewrite (speed_in_range x H0 H1). reflexivity.
  - intros args. split; [apply clamp_speeds_silent | apply clamp_speeds_video].
  - intros os g args w res st' H.
    exact (sat_run _ _ _ _ _ _ _ (main_speeds os g args) H).
Qed.

Lemma speeds_clamped_before_processing_witness :
  let os := Sample.machine (fun _ => Sample.steady) true in
  let disk := Sample.mkDisk ["clip.mp4"] [] 0 in
  let args := set_silent_speed (-3)%float
                (set_video_speed 2.5%float
                   (set_output_file (Some []) (default_args ["clip.mp4"]))) in
  let names := Sample.bound_names "out.mp4" ".mp4" in
  clamp_speed (-3)%float = 99999%float
  /\ clamp_speed 100000%float = 99999%float
  /\ clamp_speed 2.5%float = 2.5%float
  /\ Forall (carries_speeds 99999%float 2.5%float)
            (log (snd (run os names args disk))).
Proof.
  intros os disk args names.
  split; [|split; [|split]].
  - apply (proj1 speeds_clamped_before_processing). left. reflexivity.
  - apply (proj1 speeds_clamped_before_processing). right. reflexivity.
  - apply (proj1 (proj2 speeds_clamped_before_processing)); reflexivity.
  - exact (proj2 (proj2 (proj2 speeds_clamped_before_processing))
             os names args disk _ _ (surjective_pairing _)).
Defined.

(** ** Directory inputs *)

Section StartupFacts.

Context (os : OS).

(** Lines 121-129 read the outside state and leave it as it is. *)
Lemma choose_ffmpeg_result args (st : St os) :
  exists p,
    choose_ffmpeg os args st = (Ret p, st)
    /\ (p = "ffmpeg"
        \/ (my_ffmpeg args = false /\ isfile os (world st) p = true)).
Proof.
  unfold choose_ffmpeg. cbv zeta.
  destruct (my_ffmpeg args); cbn [negb];
    rewrite ?andb_false_r, ?andb_true_r.
  - exists "ffmpeg". split; [reflexivity | left; reflexivity].
  - destruct (String.eqb (platform_system os) "Darwin");
      [|destruct (String.eqb (platform_system os) "Windows")];
      try (exists "ffmpeg"; split; [reflexivity | left; reflexivity]);
      unfold bind, is_file, observe, ret;
      match goal with
      | |- context [isfile os (world st) ?f] =>
          destruct (isfile os (world st) f) eqn:Hf;
          [exists f; split; [reflexivity | right; split; [reflexivity|exact Hf]]
          |exists "ffmpeg"; split; [reflexivity | left; reflexivity]]
      end.
Qed.

End StartupFacts.

Section DirectoryFacts.

Context (os : OS).

(** Without [--version], [--clear_cache] and [--debug], and with an
    input, the code before the batch does nothing that can be seen. *)
Lemma startup_quiet args (w : World os) f rest :
  version_flag args = false ->
  clear_cache args = false ->
  debug args = false ->
  input args = f :: rest ->
  exists ffmpeg, startup os args (mkSt w []) = (Ret ffmpeg, mkSt w []).
Proof.
  intros Hv Hc Hd Hin.
  destruct (choose_ffmpeg_result os args (mkSt w [])) as (p & Hp & _).
  exists p. unfold startup.
  unfold bind at 1. unfold bind at 1. rewrite Hv. cbn [when].
  unfold ret at 1. unfold bind at 1. rewrite Hc. cbn [when]. unfold ret at 1.
  unfold bind at 1. rewrite Hp.
  unfold bind at 1, debug_report. rewrite Hd. cbn [when]. unfold ret at 1.
  rewrite Hin. reflexivity.
Qed.

(** The resolver loop on references that are files. *)
Lemma resolve_plain_files_from g ffmpeg pre :
  forall acc (st : St os),
    (forall x, In x pre ->
               isdir os (world st) x = false /\ isfile os (world st) x = true) ->
    for_each pre acc (resolve_one os g ffmpeg) st = (Ret (acc ++ pre)%list, st).
Proof.
  induction pre as [|x l IH]; intros acc st H; cbn [for_each].
  - rewrite app_nil_r. reflexivity.
  - destruct (H x (or_introl eq_refl)) as [Hd Hf].
    assert (Hstep : resolve_one os g ffmpeg x acc st
                    = (Ret (acc ++ [x])%list, st)).
    { unfold resolve_one, is_dir, is_file, observe, bind.
      rewrite Hd, Hf. reflexivity. }
    unfold bind. rewrite Hstep.
    rewrite (IH (acc ++ [x])%list) by (intros y Hy; apply H; right; exact Hy).
    rewrite <- app_assoc. reflexivity.
Qed.

(** Line 157 with [sort] unbound: the name is looked up before
    [os.listdir] is called. *)
Lemma resolve_one_directory_unbound g ffmpeg d inputList (st : St os) :
  g_sort g = None ->
  isdir os (world st) d = true ->
  resolve_one os g ffmpeg d inputList st = (Raise (NameError "sort"), st).
Proof.
  intros Hs Hd. unfold resolve_one, is_dir, observe, bind at 1.
  rewrite Hd, Hs. reflexivity.
Qed.

End DirectoryFacts.

Section SortedFacts.

Lemma insert_sorted x l : Sorted ascending l -> Sorted ascending (PySorted.insert x l).
Proof.
  induction 1 as [|y l Hl IH Hhd]; cbn [PySorted.insert].
  - repeat constructor.
  - destruct (String.leb x y) eqn:Exy.
    + constructor; [constructor; assumption | constructor; exact Exy].
    + constructor; [exact IH|].
      assert (Hyx : ascending y x)
        by (destruct (String.leb_total x y) as [H|H]; [congruence|exact H]).
      destruct Hhd as [|z l Hyz]; cbn [PySorted.insert].
      * constructor; exact Hyx.
      * destruct (String.leb x z); constructor; assumption.
Qed.

Lemma insert_permutation x l : Permutation (x :: l) (PySorted.insert x l).
Proof.
  induction l as [|y l IH]; cbn [PySorted.insert]; [reflexivity|].
  destruct (String.leb x y); [reflexivity|].
  rewrite perm_swap. constructor. exact IH.
Qed.

(** [sorted] returns its argument rearranged in ascending order. *)
Lemma sorted_is_sorted l :
  Sorted ascending (PySorted.sorted l) /\ Permutation l (PySorted.sorted l).
Proof.
  unfold PySorted.sorted. induction l as [|x l [Hs Hp]]; cbn [fold_right].
  - split; constructor.
  - split; [apply insert_sorted, Hs|].
    rewrite <- insert_permutation. constructor. exact Hp.
Qed.

End SortedFacts.

(** C8. In the module as it stands the name [sort] of line 157 is bound
    to nothing (the builtin is [sorted]), and Python looks the name up
    before it calls [os.listdir]: on every machine, for every reference
    that is a directory, the loop body raises [NameError] before the
    directory is listed, and nothing is appended.  So the resolver ends
    with that exception at the first directory among its references, and
    a run on a directory ends with it before anything is printed, listed
    or processed: there is no resolved sequence that could hold the
    directory's entries.  The last part runs [auto-editor vids -o out.mp4]
    on a machine where [vids] holds [b.mp4], [sub] and [a.mp4]. *)
Theorem directory_input_raises_name_error :
  (forall (os : OS) (ffmpeg d : string) (inputList : list string)
          (st : St os),
      isdir os (world st) d = true ->
      resolve_one os shipped ffmpeg d inputList st
      = (Raise (NameError "sort"), st))
  /\ (forall (os : OS) (ffmpeg : string) (pre : list string) (d : string)
             (post : list string) (st : St os),
         (forall x, In x pre ->
                    isdir os (world st) x = false
                    /\ isfile os (world st) x = true) ->
         isdir os (world st) d = true ->
         resolve os shipped ffmpeg (pre ++ d :: post) st
         = (Raise (NameError "sort"), st))
  /\ (forall (os : OS) (args : Args) (w : World os) (d : string)
             (rest : list string),
         version_flag args = false ->
         clear_cache args = false ->
         debug args = false ->
         input args = d :: rest ->
         isdir os w d = true ->
         run os shipped args w = (Raise (NameError "sort"), mkSt w []))
  /\ (let os := Sample.machine (fun _ => Sample.steady) true in
      let disk := Sample.mkDisk ["vids/b.mp4"; "vids/a.mp4"]
                    [("vids", ["b.mp4"; "sub"; "a.mp4"]); ("vids/sub", [])] 0 in
      let args := set_output_file (Some ["out.mp4"]) (default_args ["vids"]) in
      isdir os disk "vids" = true
      /\ run os shipped args disk
         = (Raise (NameError "sort"), @mkSt os disk [])).
Proof.
  assert (Hres : forall (os : OS) ffmpeg pre d post (st : St os),
             (forall x, In x pre ->
                        isdir os (world st) x = false
                        /\ isfile os (world st) x = true) ->
             isdir os (world st) d = true ->
             resolve os shipped ffmpeg (pre ++ d :: post) st
             = (Raise (NameError "sort"), st)).
  { intros os ffmpeg pre d post st Hpre Hd. unfold resolve.
    rewrite for_each_app, (resolve_plain_files_from os shipped ffmpeg pre [] st Hpre).
    cbn [for_each]. unfold bind.
    rewrite (resolve_one_directory_unbound os shipped ffmpeg d _ st eq_refl Hd).
    reflexivity. }
  split; [|split; [exact Hres|split]].
  - intros os ffmpeg d inputList st Hd.
    apply resolve_one_directory_unbound; [reflexivity | exact Hd].
  - intros os args w d rest Hv Hc Hdb Hin Hd.
    destruct (startup_quiet os args w d rest Hv Hc Hdb Hin) as (p & Hp).
    unfold run, main. unfold bind at 1. rewrite Hp. cbv zeta.
    rewrite input_clamp_speeds, Hin. unfold run_batch.
    unfold bind at 1. rewrite input_clamp_speeds, Hin.
    assert (H : resolve os shipped p (d :: rest) (mkSt w [])
                = (Raise (NameError "sort"), mkSt w []))
      by (apply (Hres os p [] d rest (mkSt w [])); [intros x [] | exact Hd]).
    rewrite H. reflexivity.
  - split; reflexivity.
Qed.

Lemma directory_input_raises_name_error_witness :
  let os := Sample.machine (fun _ => Sample.steady) true in
  let disk := Sample.mkDisk ["intro.mp4"; "vids/a.mp4"]
                [("vids", ["a.mp4"])] 0 in
  resolve os shipped "ffmpeg" (["intro.mp4"] ++ "vids" :: ["outro.mp4"])
          (@mkSt os disk [])
  = (Raise (NameError "sort"), @mkSt os disk []).
Proof.
  intros os disk.
  refine (proj1 (proj2 directory_input_raises_name_error) os "ffmpeg"
            ["intro.mp4"] "vids" ["outro.mp4"] (@mkSt os disk []) _ eq_refl).
  intros x [<- | []]. split; reflexivity.
Defined.

(** Line 157 in a namespace where [sort] is bound to [sorted]: [vids]
    lists [b.mp4], [sub] and [a.mp4], where [sub] is a directory and not a
    file, and the resolver's sequence is [a.mp4; b.mp4; sub].  In the
    module as it stands [sort] is bound to nothing and the resolver raises
    [NameError] before it lists the directory. *)
Lemma directory_entry_not_rejected :
  let os := Sample.machine (fun _ => Sample.steady) true in
  let disk := Sample.mkDisk ["vids/b.mp4"; "vids/a.mp4"]
                [("vids", ["b.mp4"; "sub"; "a.mp4"]); ("vids/sub", [])] 0 in
  isdir os disk "vids" = true
  /\ isdir os disk "vids/sub" = true
  /\ isfile os disk "sub" = false
  /\ isfile os disk "vids/sub" = false
  /\ resolve os (Sample.bound_names "out.mp4" ".mp4") "ffmpeg" ["vids"]
             (@mkSt os disk [])
     = (Ret ["a.mp4"; "b.mp4"; "sub"], @mkSt os disk [EListdir "vids"])
  /\ resolve os shipped "ffmpeg" ["vids"] (@mkSt os disk [])
     = (Raise (NameError "sort"), @mkSt os disk []).
Proof. repeat split; reflexivity. Qed.

(** Line 157 in a namespace where [sort] is bound: whatever the call
    [sort(os.listdir(myInput))] returns is appended to the resolved
    sequence whole, and no entry is tested.  When [sort] is [sorted], what
    is appended is every entry of the listing, in ascending order. *)
Lemma directory_listing_appended_whole :
  forall (os : OS) (g : Globals) (ffmpeg d : string)
         (inputList : list string) (st : St os)
         (sort : list string -> list string) (entries : list string)
         (w' : World os),
    isdir os (world st) d = true ->
    g_sort g = Some sort ->
    listdir os d (world st) = (Done entries, w') ->
    resolve_one os g ffmpeg d inputList st
    = (Ret (inputList ++ sort entries)%list,
       mkSt w' (log st ++ [EListdir d]))
    /\ (sort = PySorted.sorted ->
        Sorted ascending (sort entries)
        /\ Permutation entries (sort entries)).
Proof.
  intros os g ffmpeg d inputList st sort entries w' Hd Hs Hl. split.
  - unfold resolve_one, is_dir, observe, bind at 1. rewrite Hd.
    rewrite Hs. unfold lookup, bind at 1, ret at 1.
    unfold bind, outside. rewrite Hl. reflexivity.
  - intros ->. apply sorted_is_sorted.
Qed.

Lemma directory_listing_appended_whole_witness :
  let os := Sample.machine (fun _ => Sample.steady) true in
  let disk := Sample.mkDisk ["vids/b.mp4"; "vids/a.mp4"]
                [("vids", ["b.mp4"; "sub"; "a.mp4"]); ("vids/sub", [])] 0 in
  resolve_one os (Sample.bound_names "out.mp4" ".mp4") "ffmpeg" "vids"
              ["intro.mp4"] (@mkSt os disk [])
  = (Ret (["intro.mp4"] ++ PySorted.sorted ["b.mp4"; "sub"; "a.mp4"])%list,
     @mkSt os disk [EListdir "vids"])
  /\ (PySorted.sorted = PySorted.sorted ->
      Sorted ascending
             (PySorted.sorted ["b.mp4"; "sub"; "a.mp4"])
      /\ Permutation ["b.mp4"; "sub"; "a.mp4"]
                     (PySorted.sorted ["b.mp4"; "sub"; "a.mp4"])).
Proof.
  intros os disk.
  exact (directory_listing_appended_whole os
           (Sample.bound_names "out.mp4" ".mp4") "ffmpeg" "vids"
           ["intro.mp4"] (@mkSt os disk []) PySorted.sorted
           ["b.mp4"; "sub"; "a.mp4"] disk eq_refl eq_refl eq_refl).
Defined.

(** ** Runs that end early *)

(** The probe on a text whose token before [tbr] is no number: the
    [ValueError] of [float] passes the handler of line 233. *)
Lemma probe_number_error ffmpeg f args os (st : St os) text fps w' :
  debug args = false ->
  popen_output os [ffmpeg; "-i"; f] (world st) = (Done text, w') ->
  PyRe.search_tbr text = Some fps ->
  PyRe.float_accepts fps = false ->
  forall g TEMP,
    try_except (probe os ffmpeg f args ;; ret (TEMP, f)) is_AttributeError
               (repair os g ffmpeg f args) st
    = (Raise ValueError, mkSt w' (log st ++ [EPopen [ffmpeg; "-i"; f]])).
Proof.
  intros Hdbg Hp Hs Hf g TEMP.
  unfold try_except, bind at 1, probe, bind at 1, outside.
  rewrite Hp. cbn [res_of_try]. rewrite Hdbg. cbn [when].
  unfold bind at 1, ret at 1. rewrite Hs, Hf. reflexivity.
Qed.

(** The probe on a text without a match, with [extension] bound: the
    warning, one temporary directory, one re-encode to 30 fps, and the
    re-encoded copy as the new [INPUT_FILE]. *)
Lemma probe_without_match_repaired ffmpeg f args os g (st : St os)
    text w1 d w2 status w3 extension TEMP :
  debug args = false ->
  g_extension g = Some extension ->
  popen_output os [ffmpeg; "-i"; f] (world st) = (Done text, w1) ->
  PyRe.search_tbr text = None ->
  mkdtemp os w1 = (Done d, w2) ->
  call os [ffmpeg; "-i"; f; "-filter:v"; "fps=fps=30";
           d ++ "/constantVid" ++ extension; "-hide_banner";
           "-nostats"; "-loglevel"; "0"] w2 = (Done status, w3) ->
  try_except (probe os ffmpeg f args ;; ret (TEMP, f)) is_AttributeError
             (repair os g ffmpeg f args) st
  = (Ret (Some d, d ++ "/constantVid" ++ extension),
     mkSt w3
       (log st
        ++ [EPopen [ffmpeg; "-i"; f];
            EPrint "Warning! frame rate detection failed.";
            EPrint "If your video has a variable frame rate, ignore this message.";
            EMkdtemp d;
            ECall [ffmpeg; "-i"; f; "-filter:v"; "fps=fps=30";
                   d ++ "/constantVid" ++ extension; "-hide_banner";
                   "-nostats"; "-loglevel"; "0"]])).
Proof.
  intros Hdbg Hext Hp Hs Hm Hc.
  unfold try_except, bind at 1, probe, bind at 1, outside.
  rewrite Hp. cbn [res_of_try]. rewrite Hdbg. cbn [when].
  unfold bind at 1, ret at 1. rewrite Hs. unfold raise.
  cbn [is_AttributeError].
  unfold repair, bind, print, emit, make_temp. cbn [world log].
  rewrite Hm, Hext. cbn [lookup]. unfold ret at 1.
  rewrite Hdbg. cbn [negb app].
  unfold subprocess_call, bind, outside. cbn [world log].
  rewrite Hc. cbn [res_of_try]. unfold ret.
  rewrite <- !app_assoc. reflexivity.
Qed.

(** The check after the loop, in the module as it stands: line 273 reads
    [outFile], which is bound to nothing. *)
Lemma finish_as_shipped os args startTime TEMP (st : St os) :
  finish os shipped args startTime TEMP st
  = (Raise (NameError "outFile"),
     mkSt (world st)
          (log st ++ [EPrint "Finished."]
                  ++ [ETook startTime (time os (world st))])).
Proof.
  unfold finish, bind, print, emit, observe, lookup, raise. cbn.
  rewrite <- app_assoc. reflexivity.
Qed.

(** C4. A video whose probe text reads [1.2.3 tbr]: the pattern matches,
    [float] rejects the token, and the run ends with [ValueError] right
    after the probe, whatever the free names are bound to: no warning, no
    temporary directory, no re-encode, no strategy call.  And in the module
    as it stands a video whose probe text has no match gets the warning and
    the temporary directory, and then [NameError] for [extension] before
    the re-encode is started. *)
Theorem probe_failure_not_repaired :
  let disk := Sample.mkDisk ["clip.mp4"] [] 0 in
  let args := set_output_file (Some []) (default_args ["clip.mp4"]) in
  let garbled := Sample.machine (fun _ => Sample.garbled) true in
  let variable := Sample.machine (fun _ => Sample.variable) true in
  export_to_premiere args = false
  /\ isAudioFile garbled "clip.mp4" = false
  /\ PyRe.search_tbr Sample.garbled = Some "1.2.3"
  /\ PyRe.float_accepts "1.2.3" = false
  /\ (forall g : Globals,
         run garbled g args disk
         = (Raise ValueError,
            @mkSt garbled disk [EPopen ["ffmpeg"; "-i"; "clip.mp4"]]))
  /\ PyRe.search_tbr Sample.variable = None
  /\ fst (run variable shipped args disk) = Raise (NameError "extension")
  /\ temp_dirs_made (log (snd (run variable shipped args disk))) = ["/tmp/tmpx"]
  /\ subprocesses (log (snd (run variable shipped args disk))) = []
  /\ calls (log (snd (run variable shipped args disk))) = [].
Proof.
  cbv zeta. repeat split; try reflexivity.
Qed.

(** C5. In the module as it stands the code after the loop always ends
    with [NameError] at line 273, before any file is looked for and before
    the missing-output line can be printed.  A run on [talk.wav] with
    [-o talk_out.wav] ends earlier still, with [NameError] for [newOutput]
    at line 217; and with [newOutput] bound, so that the strategy runs and
    writes [talk_out.wav], the run still ends with [NameError] for
    [outFile], exit status 1, although the output is on disk. *)
Theorem output_check_never_reached :
  let os := Sample.machine (fun _ => Sample.steady) true in
  let disk := Sample.mkDisk ["talk.wav"] [] 0 in
  let args := set_output_file (Some ["talk_out.wav"]) (default_args ["talk.wav"]) in
  let only_newOutput := mkGlobals None (Some "talk_out.wav") None None in
  (forall (os : OS) (args : Args) (startTime : float) (TEMP : option string)
          (st : St os),
      finish os shipped args startTime TEMP st
      = (Raise (NameError "outFile"),
         mkSt (world st)
              (log st ++ [EPrint "Finished."]
                      ++ [ETook startTime (time os (world st))])))
  /\ run os shipped args disk = (Raise (NameError "newOutput"), @mkSt os disk [])
  /\ fst (run os only_newOutput args disk) = Raise (NameError "outFile")
  /\ exit_status (fst (run os only_newOutput args disk)) = 1
  /\ map strategy_of (calls (log (snd (run os only_newOutput args disk))))
     = [AudioFast]
  /\ isfile os (world (snd (run os only_newOutput args disk))) "talk_out.wav"
     = true
  /\ printed (log (snd (run os only_newOutput args disk))) = ["Finished."].
Proof.
  cbv zeta. split; [exact finish_as_shipped|].
  repeat split; reflexivity.
Qed.

(** C6. Three runs that end with a temporary directory still in place.
    With the free names bound, a video that needs the repair and whose
    output is not written: the run leaves through [sys.exit(1)] at line
    275, and line 290 is never reached.  In the module as it stands, the
    same video: [NameError] at line 240, right after the directory was
    made.  With the free names bound and the outputs written, two videos
    that both need the repair: the run completes and removes the second
    directory, and the first stays. *)
Theorem temporary_directory_left_behind :
  let disk := Sample.mkDisk ["clip.mp4"; "b.mp4"] [] 0 in
  let names := Sample.bound_names "out.mp4" ".mp4" in
  let one := set_output_file (Some []) (default_args ["clip.mp4"]) in
  let two := set_output_file (Some []) (default_args ["clip.mp4"; "b.mp4"]) in
  let unwritten := Sample.machine (fun _ => Sample.variable) false in
  let written := Sample.machine (fun _ => Sample.variable) true in
  (fst (run unwritten names one disk) = Exit 1
   /\ temp_dirs_made (log (snd (run unwritten names one disk))) = ["/tmp/tmpx"]
   /\ dirs_removed (log (snd (run unwritten names one disk))) = []
   /\ isdir unwritten (world (snd (run unwritten names one disk))) "/tmp/tmpx"
      = true)
  /\ (fst (run unwritten shipped one disk) = Raise (NameError "extension")
      /\ temp_dirs_made (log (snd (run unwritten shipped one disk)))
         = ["/tmp/tmpx"]
      /\ dirs_removed (log (snd (run unwritten shipped one disk))) = []
      /\ isdir unwritten (world (snd (run unwritten shipped one disk)))
               "/tmp/tmpx" = true)
  /\ (fst (run written names two disk) = Ret tt
      /\ temp_dirs_made (log (snd (run written names two disk)))
         = ["/tmp/tmpx"; "/tmp/tmpxx"]
      /\ dirs_removed (log (snd (run written names two disk))) = ["/tmp/tmpxx"]
      /\ isdir written (world (snd (run written names two disk))) "/tmp/tmpx"
         = true).
Proof.
  cbv zeta. repeat split; reflexivity.
Qed.

(** * Further properties *)

(** ** Derived names *)

Section NameShape.

Lemma take_drop n s : PyStr.take n s ++ PyStr.drop n s = s.
Proof.
  revert s. induction n as [|n IH]; intros [|a s]; cbn; try reflexivity.
  rewrite IH. reflexivity.
Qed.

Lemma append_cancel (s a b : string) : s ++ a = s ++ b -> a = b.
Proof.
  induction s as [|c s IH]; cbn [append]; intros H; [exact H|].
  injection H as H. exact (IH H).
Qed.

(** Without export, the derived name is the input name with
    [_ALTERED] put in at the slice position. *)
Lemma derived_name_inserts s :
  derived_name false s =
    PyStr.slice_to s (PyStr.rfind dot s)
    ++ "_ALTERED" ++ PyStr.slice_from s (PyStr.rfind dot s).
Proof. reflexivity. Qed.

End NameShape.

(** X1. Without export the derived name is always eight characters longer
    than the input name, so it never is the input name: the output of a
    media run never has the name of its input. *)
Theorem derived_name_differs_from_input :
  forall s : string,
    PyStr.len (derived_name false s) = PyStr.len s + 8
    /\ derived_name false s <> s.
Proof.
  intros s.
  assert (Hlen : PyStr.len (derived_name false s) = PyStr.len s + 8).
  { rewrite derived_name_inserts. unfold PyStr.slice_to, PyStr.slice_from.
    set (k := PyStr.bound (PyStr.len s) (PyStr.rfind dot s)).
    pose proof (f_equal PyStr.len (take_drop k s)) as Hk.
    rewrite len_app in Hk.
    rewrite !len_app. change (PyStr.len "_ALTERED") with 8. lia. }
  split; [exact Hlen|].
  intros H. rewrite H in Hlen. lia.
Qed.

(** X2. With export the derived name is the input name exactly when the
    input's slice from its last dot on is [.xml]: exporting from a file
    called [x.xml] names the output [x.xml] again, and no other input
    name collides with its output name. *)
Theorem export_name_collides_only_for_xml :
  forall s : string,
    derived_name true s = s
    <-> PyStr.slice_from s (PyStr.rfind dot s) = ".xml".
Proof.
  intros s. unfold derived_name, PyStr.slice_to, PyStr.slice_from.
  set (k := PyStr.bound (PyStr.len s) (PyStr.rfind dot s)).
  split; intros H.
  - rewrite <- (take_drop k s) in H at 2.
    apply append_cancel in H. symmetry. exact H.
  - rewrite <- H. apply take_drop.
Qed.

Lemma export_name_collides_only_for_xml_witness :
  derived_name true "x.xml" = "x.xml"
  /\ PyStr.slice_from "clip.mov" (PyStr.rfind dot "clip.mov") <> ".xml".
Proof.
  split.
  - exact (proj2 (export_name_collides_only_for_xml "x.xml") eq_refl).
  - intros H.
    pose proof (proj2 (export_name_collides_only_for_xml "clip.mov") H) as E.
    discriminate E.
Defined.

(** ** The naming pass as a whole *)

(** X3. When [args.output_file] is a list, the naming pass returns, keeps
    every name that was supplied in its place, leaves the list as long as
    the longer of the two lists, and derives the name at index [N + i]
    from the input at index [i]. *)
Theorem naming_keeps_and_completes :
  forall (os : OS) (args : Args) (inputList outs : list string) (st : St os),
    output_file args = Some outs ->
    exists outs',
      name_outputs os args inputList st
      = (Ret (set_output_file (Some outs') args), st)
      /\ firstn (List.length outs) outs' = outs
      /\ List.length outs' = Nat.max (List.length outs) (List.length inputList)
      /\ (forall i : nat,
             (i < List.length inputList - List.length outs)%nat ->
             nth_error outs' (List.length outs + i)
             = option_map (derived_name (export_to_premiere args))
                          (nth_error inputList i)).
Proof.
  intros os args inputList outs st Hout.
  destruct (Nat.ltb (List.length outs) (List.length inputList)) eqn:Hlt.
  - apply Nat.ltb_lt in Hlt.
    eexists. split; [apply (name_outputs_short os args inputList outs st Hout Hlt)|].
    split; [|split].
    + rewrite firstn_app, firstn_all, Nat.sub_diag. cbn [firstn].
      apply app_nil_r.
    + rewrite length_app, length_map, length_firstn. lia.
    + intros i Hi.
      rewrite nth_error_app2 by lia.
      replace (List.length outs + i - List.length outs)%nat with i by lia.
      rewrite nth_error_map, nth_error_firstn.
      apply Nat.ltb_lt in Hi. rewrite Hi. reflexivity.
  - apply Nat.ltb_ge in Hlt.
    exists outs. split.
    + rewrite (name_outputs_enough os args inputList outs st Hout Hlt).
      destruct args; cbn in Hout; subst; reflexivity.
    + split; [apply firstn_all|]. split; [lia|].
      intros i Hi. lia.
Qed.

Lemma naming_keeps_and_completes_witness :
  let os := Sample.machine (fun _ => Sample.steady) true in
  let st := @mkSt os (Sample.mkDisk ["a.mp4"; "b.mp4"; "c.mp4"] [] 0) [] in
  let args := set_output_file (Some ["x.mp4"])
                (default_args ["a.mp4"; "b.mp4"; "c.mp4"]) in
  exists outs',
    name_outputs os args ["a.mp4"; "b.mp4"; "c.mp4"] st
    = (Ret (set_output_file (Some outs') args), st)
    /\ firstn 1 outs' = ["x.mp4"]
    /\ List.length outs' = 3%nat
    /\ (forall i : nat,
           (i < 2)%nat ->
           nth_error outs' (1 + i)
           = option_map (derived_name false)
                        (nth_error ["a.mp4"; "b.mp4"; "c.mp4"] i)).
Proof.
  intros os st args.
  exact (naming_keeps_and_completes os args ["a.mp4"; "b.mp4"; "c.mp4"]
           ["x.mp4"] st eq_refl).
Defined.

(** X4. When [--output_file] is not on the command line at all,
    [args.output_file] is [None] and no run returns: it ends before the
    batch, or in the resolver, or with [TypeError] at line 173, and all it
    has done by then are early events. *)
Theorem run_without_output_option_never_returns :
  forall (os : OS) (g : Globals) (args : Args) (w : World os) res st',
    output_file args = None ->
    run os g args w = (res, st') ->
    res <> Ret tt /\ Forall (early_event (cache os)) (log st').
Proof.
  intros os g args w res st' Hnone Hrun.
  assert (Hsat : sat (early_event (cache os)) any_status (fun _ : unit => False)
                     (main os g args)).
  { unfold main.
    apply sat_bind with (R := anything); [apply startup_early|].
    intros ffmpeg _. cbv zeta.
    destruct (input (clamp_speeds args)) as [|f rest]; [apply sat_raise|].
    unfold run_batch.
    apply sat_bind with (R := anything).
    { eapply sat_exits; [|apply resolve_early]. intros; exact I. }
    intros inputList _.
    apply sat_bind with (R := fun _ => False); [|intros a []].
    intros st res0 st0 H.
    rewrite name_outputs_without_option in H.
    - injection H as <- <-.
      split; [exists []; rewrite app_nil_r; auto | exact I].
    - unfold clamp_speeds.
      destruct (speed_out_of_range (silent_speed args));
        match goal with
        | |- context [if ?b then _ else _] => destruct b
        end; exact Hnone. }
  destruct (Hsat _ _ _ Hrun) as [(l & Hl & Hf) Hres].
  split.
  - intros ->. exact Hres.
  - rewrite Hl. exact Hf.
Qed.

Lemma run_without_output_option_never_returns_witness :
  let os := Sample.machine (fun _ => Sample.steady) true in
  let disk := Sample.mkDisk ["clip.mp4"] [] 0 in
  fst (run os (Sample.bound_names "out.mp4" ".mp4") (default_args ["clip.mp4"]) disk)
  <> Ret tt
  /\ Forall (early_event (cache os))
            (log (snd (run os (Sample.bound_names "out.mp4" ".mp4")
                           (default_args ["clip.mp4"]) disk))).
Proof.
  intros os disk.
  exact (run_without_output_option_never_returns os
           (Sample.bound_names "out.mp4" ".mp4") (default_args ["clip.mp4"])
           disk _ _ eq_refl (surjective_pairing _)).
Defined.

(** ** The Input Resolver on files and URLs *)

(** X5. When every reference is an existing file and no directory, the
    resolver returns the references as they are, in their order, and does
    nothing else: nothing is printed, listed or downloaded. *)
Theorem resolver_keeps_plain_files :
  forall (os : OS) (g : Globals) (ffmpeg : string) (inputs : list string)
         (st : St os),
    (forall x, In x inputs ->
               isdir os (world st) x = false /\ isfile os (world st) x = true) ->
    resolve os g ffmpeg inputs st = (Ret inputs, st).
Proof.
  intros os g ffmpeg inputs st. unfold resolve.
  change inputs with ([] ++ inputs)%list at 3.
  generalize (@nil string) as acc.
  induction inputs as [|x l IH]; intros acc H; cbn [for_each].
  - rewrite app_nil_r. reflexivity.
  - destruct (H x (or_introl eq_refl)) as [Hd Hf].
    assert (Hstep : resolve_one os g ffmpeg x acc st
                    = (Ret (acc ++ [x])%list, st)).
    { unfold resolve_one, is_dir, is_file, observe, bind.
      rewrite Hd, Hf. reflexivity. }
    unfold bind. rewrite Hstep.
    rewrite (IH (acc ++ [x])%list) by (intros y Hy; apply H; right; exact Hy).
    rewrite <- app_assoc. reflexivity.
Qed.

Lemma resolver_keeps_plain_files_witness :
  let os := Sample.machine (fun _ => Sample.steady) true in
  let disk := Sample.mkDisk ["b.mp4"; "a.mp4"] [] 0 in
  resolve os shipped "ffmpeg" ["b.mp4"; "a.mp4"; "b.mp4"] (@mkSt os disk [])
  = (Ret ["b.mp4"; "a.mp4"; "b.mp4"], @mkSt os disk []).
Proof.
  intros os disk.
  apply (resolver_keeps_plain_files os shipped "ffmpeg"
           ["b.mp4"; "a.mp4"; "b.mp4"] (@mkSt os disk [])).
  intros x [<-|[<-|[<-|[]]]]; split; reflexivity.
Defined.

Section UrlNames.

Lemma dash_is_no_word : PyRe.is_word "-" = false.
Proof. reflexivity. Qed.

Lemma sub_nonword_chars b s :
  all_chars word_or_dash (PyRe.sub_nonword b s) = true.
Proof.
  revert b. induction s as [|c s IH]; intros b; cbn [PyRe.sub_nonword].
  - reflexivity.
  - destruct (PyRe.is_word c) eqn:Hc.
    + cbn [all_chars]. unfold word_or_dash at 1. rewrite Hc, IH. reflexivity.
    + destruct b; [apply IH|]. cbn [all_chars]. rewrite IH. reflexivity.
Qed.

(** What the substitution gives is left alone by a second pass. *)
Lemma sub_nonword_again s :
  (forall b, PyRe.sub_nonword b (PyRe.sub_nonword true s)
             = PyRe.sub_nonword true s)
  /\ PyRe.sub_nonword false (PyRe.sub_nonword false s)
     = PyRe.sub_nonword false s.
Proof.
  induction s as [|c s [IH1 IH2]]; [split; reflexivity|].
  cbn [PyRe.sub_nonword]. destruct (PyRe.is_word c) eqn:Hc.
  - split; [intros b|]; cbn [PyRe.sub_nonword]; rewrite Hc, IH2;
      reflexivity.
  - split; [exact IH1|].
    cbn [PyRe.sub_nonword]. rewrite dash_is_no_word, (IH1 true).
    reflexivity.
Qed.

End UrlNames.

(** X6. The base name that line 162 makes from a URL holds only word
    characters and dashes, so no slash, dot, colon or quote of the URL
    gets into the name of the downloaded file; and the substitution
    changes nothing when it is applied to its own result. *)
Theorem url_basename_is_plain :
  forall url : string,
    all_chars word_or_dash (PyRe.sub_nonword false url) = true
    /\ PyRe.sub_nonword false (PyRe.sub_nonword false url)
       = PyRe.sub_nonword false url.
Proof.
  intros url. split; [apply sub_nonword_chars | apply sub_nonword_again].
Qed.

(** ** The pattern of the probe *)

Section Pattern.

Lemma space_is_no_fps_char c :
  PyRe.is_space c = true -> PyRe.is_fps_char c = false.
Proof.
  destruct c as [[] [] [] [] [] [] [] []]; vm_compute; congruence.
Qed.

Lemma span_splits p s run rest :
  PyRe.span p s = (run, rest) ->
  s = run ++ rest /\ all_chars p run = true.
Proof.
  revert run rest. induction s as [|c s IH]; intros run rest H;
    cbn [PyRe.span] in H.
  - injection H as <- <-. split; reflexivity.
  - destruct (p c) eqn:Hc.
    + destruct (PyRe.span p s) as [run' rest'] eqn:E.
      injection H as <- <-. destruct (IH _ _ eq_refl) as [-> Hr].
      split; [reflexivity|]. cbn [all_chars]. rewrite Hc, Hr. reflexivity.
    + injection H as <- <-. split; reflexivity.
Qed.

Lemma span_stops p run c rest :
  all_chars p run = true -> p c = false ->
  PyRe.span p (run ++ String c rest) = (run, String c rest).
Proof.
  intros Hr Hc. induction run as [|a run IH]; cbn [append PyRe.span].
  - rewrite Hc. reflexivity.
  - cbn [all_chars] in Hr. apply andb_true_iff in Hr. destruct Hr as [Ha Hr].
    rewrite Ha, (IH Hr). reflexivity.
Qed.

Lemma prefix_splits p s :
  String.prefix p s = true -> exists post, s = p ++ post.
Proof.
  revert s. induction p as [|a p IH]; intros s H.
  - exists s. reflexivity.
  - destruct s as [|b s]; cbn [String.prefix] in H; [discriminate|].
    destruct (ascii_dec a b) as [<-|]; [|discriminate].
    destruct (IH s H) as [post ->]. exists post. reflexivity.
Qed.

Lemma prefix_of_append p post : String.prefix p (p ++ post) = true.
Proof.
  induction p as [|a p IH]; cbn [append String.prefix].
  - destruct post; reflexivity.
  - destruct (ascii_dec a a) as [_|n]; [exact IH | destruct (n eq_refl)].
Qed.

(** A match at the head of the text. *)
Lemma match_here_shape s fps :
  PyRe.match_tbr_here s = Some fps ->
  exists c1 c2 post,
    s = String c1 (fps ++ String c2 ("tbr" ++ post))
    /\ PyRe.is_space c1 = true /\ PyRe.is_space c2 = true
    /\ fps <> EmptyString /\ all_chars PyRe.is_fps_char fps = true.
Proof.
  destruct s as [|c1 s]; cbn [PyRe.match_tbr_here]; [discriminate|].
  destruct (PyRe.is_space c1) eqn:H1; [|discriminate].
  destruct (PyRe.span PyRe.is_fps_char s) as [run rest] eqn:Es.
  destruct (span_splits _ _ _ _ Es) as [-> Hrun].
  destruct run as [|a run]; [discriminate|].
  destruct rest as [|c2 rest]; [discriminate|].
  destruct (PyRe.is_space c2) eqn:H2; [|discriminate].
  destruct (String.prefix "tbr" rest) eqn:Hp; [|discriminate].
  cbn [andb]. intros H. injection H as <-.
  destruct (prefix_splits _ _ Hp) as [post ->].
  exists c1, c2, post. repeat split; auto. discriminate.
Qed.

Lemma match_here_found c1 fps c2 post :
  PyRe.is_space c1 = true -> PyRe.is_space c2 = true ->
  fps <> EmptyString -> all_chars PyRe.is_fps_char fps = true ->
  PyRe.match_tbr_here (String c1 (fps ++ String c2 ("tbr" ++ post)))
  = Some fps.
Proof.
  intros H1 H2 Hne Hall. cbn [PyRe.match_tbr_here]. rewrite H1.
  rewrite (span_stops _ _ _ _ Hall (space_is_no_fps_char _ H2)).
  destruct fps as [|a fps]; [destruct (Hne eq_refl)|].
  rewrite H2, prefix_of_append. reflexivity.
Qed.

Lemma search_here s fps :
  PyRe.match_tbr_here s = Some fps -> PyRe.search_tbr s = Some fps.
Proof.
  intros H. destruct s; cbn [PyRe.search_tbr]; rewrite H; reflexivity.
Qed.

End Pattern.

(** X7. The search of line 231 finds a match exactly when the text holds
    a white-space character, a run of digits and dots that is not empty, a
    white-space character and [tbr], one after the other; and the group it
    returns is such a run, taken from the text. *)
Theorem search_tbr_finds_the_pattern :
  forall text : string,
    (forall fps, PyRe.search_tbr text = Some fps ->
       exists pre c1 c2 post,
         text = pre ++ String c1 (fps ++ String c2 ("tbr" ++ post))
         /\ PyRe.is_space c1 = true /\ PyRe.is_space c2 = true
         /\ fps <> EmptyString /\ all_chars PyRe.is_fps_char fps = true)
    /\ (forall pre c1 fps c2 post,
           text = pre ++ String c1 (fps ++ String c2 ("tbr" ++ post)) ->
           PyRe.is_space c1 = true -> PyRe.is_space c2 = true ->
           fps <> EmptyString -> all_chars PyRe.is_fps_char fps = true ->
           exists found, PyRe.search_tbr text = Some found).
Proof.
  intros text. split.
  - induction text as [|c s IH]; intros fps H; cbn [PyRe.search_tbr] in H.
    + discriminate.
    + destruct (PyRe.match_tbr_here (String c s)) as [m|] eqn:Em.
      * injection H as ->.
        destruct (match_here_shape _ _ Em) as (c1 & c2 & post & Hs & Hrest).
        exists EmptyString, c1, c2, post. split; [exact Hs | exact Hrest].
      * destruct (IH _ H) as (pre & c1 & c2 & post & -> & Hrest).
        exists (String c pre), c1, c2, post. split; [reflexivity | exact Hrest].
  - intros pre c1 fps c2 post -> H1 H2 Hne Hall.
    induction pre as [|c pre IH].
    + exists fps.
      exact (search_here _ _ (match_here_found c1 fps c2 post H1 H2 Hne Hall)).
    + cbn [append PyRe.search_tbr].
      destruct (PyRe.match_tbr_here _) as [m|]; [exists m; reflexivity|].
      exact IH.
Qed.

Lemma search_tbr_finds_the_pattern_witness :
  (exists pre c1 c2 post,
      Sample.steady = pre ++ String c1 ("30" ++ String c2 ("tbr" ++ post))
      /\ PyRe.is_space c1 = true /\ PyRe.is_space c2 = true
      /\ "30" <> EmptyString /\ all_chars PyRe.is_fps_char "30" = true)
  /\ (exists found, PyRe.search_tbr "x 29.97 tbr" = Some found).
Proof.
  split.
  - exact (proj1 (search_tbr_finds_the_pattern Sample.steady) "30" eq_refl).
  - apply (proj2 (search_tbr_finds_the_pattern "x 29.97 tbr")
             "x" " "%char "29.97" " "%char EmptyString);
      try reflexivity; discriminate.
Defined.

(** ** The loop over the resolved inputs *)

Section RecordFacts.

Lemma temp_dirs_made_app l1 l2 :
  temp_dirs_made (l1 ++ l2) = (temp_dirs_made l1 ++ temp_dirs_made l2)%list.
Proof.
  induction l1 as [|ev l1 IH]; [reflexivity|].
  destruct ev; cbn [app temp_dirs_made]; rewrite IH; reflexivity.
Qed.

Lemma dirs_removed_app l1 l2 :
  dirs_removed (l1 ++ l2) = (dirs_removed l1 ++ dirs_removed l2)%list.
Proof.
  induction l1 as [|ev l1 IH]; [reflexivity|].
  destruct ev; cbn [app dirs_removed]; rewrite IH; reflexivity.
Qed.

Lemma temp_dirs_made_none l : Forall no_mkdtemp l -> temp_dirs_made l = [].
Proof.
  induction 1 as [|ev l Hev _ IH]; [reflexivity|].
  destruct ev; cbn [temp_dirs_made]; try exact IH; destruct Hev.
Qed.

Lemma dirs_removed_none l : Forall keeps_dirs l -> dirs_removed l = [].
Proof.
  induction 1 as [|ev l Hev _ IH]; [reflexivity|].
  destruct ev; cbn [dirs_removed]; try exact IH; destruct Hev.
Qed.

Lemma calls_quiet l : Forall quiet l -> calls l = [].
Proof.
  induction 1 as [|ev l Hev _ IH]; [reflexivity|].
  destruct ev; cbn [calls]; try exact IH; destruct Hev.
Qed.

Lemma last_of_app {A} (l1 l2 : list A) :
  last_of (l1 ++ l2) =
    match last_of l2 with
    | Some x => Some x
    | None => last_of l1
    end.
Proof.
  unfold last_of. rewrite rev_app_distr.
  destruct (rev l2) as [|x r]; cbn [app]; [|reflexivity].
  destruct (rev l1); reflexivity.
Qed.

Lemma temp_after_app TEMP l1 l2 :
  temp_after TEMP (l1 ++ l2) = temp_after (temp_after TEMP l1) l2.
Proof.
  unfold temp_after. rewrite temp_dirs_made_app, last_of_app.
  destruct (last_of (temp_dirs_made l2)); reflexivity.
Qed.

Lemma probe_event_facts l :
  Forall probe_event l ->
  calls l = [] /\ temp_dirs_made l = [] /\ Forall background l.
Proof.
  intros H. split; [|split].
  - apply calls_quiet. eapply Forall_impl; [|exact H].
    intros []; cbn; auto.
  - apply temp_dirs_made_none. eapply Forall_impl; [|exact H].
    intros []; cbn; auto.
  - eapply Forall_impl; [|exact H]. intros []; cbn; auto.
Qed.

End RecordFacts.

Section LoopShape.

Context (os : OS) (g : Globals).

(** The probe adds the subprocess and, with [--debug], printed lines. *)
Lemma probe_events ffmpeg f args :
  sat probe_event any_status anything (probe os ffmpeg f args).
Proof.
  unfold probe.
  apply sat_bind with (R := anything);
    [apply sat_outside; [exact I | intros; exact I]|].
  intros output _.
  apply sat_bind with (R := anything).
  { apply sat_when; [|exact I].
    do 2 (apply sat_bind with (R := anything);
          [apply sat_print; exact I|]; intros _ _).
    apply sat_print; exact I. }
  intros _ _. destruct (PyRe.search_tbr output) as [fps|];
    [destruct (PyRe.float_accepts fps)|];
    first [apply sat_ret; exact I | apply sat_raise].
Qed.

(** A repair that returns made one directory, and hands on that
    directory and the copy inside it. *)
Lemma repair_returns ffmpeg f args (st : St os) T1 f1 st1 :
  repair os g ffmpeg f args st = (Ret (T1, f1), st1) ->
  exists l d ext,
    log st1 = (log st ++ l)%list
    /\ calls l = [] /\ temp_dirs_made l = [d]
    /\ T1 = Some d /\ g_extension g = Some ext
    /\ f1 = d ++ "/constantVid" ++ ext.
Proof.
  unfold repair, bind, print, emit, make_temp, lookup. cbn [world log].
  destruct (mkdtemp os (world st)) as [[d|e] w]; [|discriminate].
  destruct (g_extension g) as [ext|]; [|discriminate].
  unfold ret at 1, subprocess_call, bind, outside. cbn [world log].
  destruct (call os _ w) as [[z|e] w2]; cbn [res_of_try]; [|discriminate].
  unfold ret. intros H. injection H as <- <- <-.
  eexists _, d, ext. cbn [log]. rewrite <- !app_assoc.
  split; [reflexivity|]. repeat split; reflexivity.
Qed.

(** Lines 222-244 when they return. *)
Lemma probe_or_repair_returns ffmpeg f args TEMP (st : St os) T1 f1 st1 :
  try_except (probe os ffmpeg f args ;; ret (TEMP, f)) is_AttributeError
             (repair os g ffmpeg f args) st = (Ret (T1, f1), st1) ->
  exists l,
    log st1 = (log st ++ l)%list /\ calls l = []
    /\ ((temp_dirs_made l = [] /\ T1 = TEMP /\ f1 = f)
        \/ exists d ext,
             temp_dirs_made l = [d] /\ T1 = Some d
             /\ g_extension g = Some ext
             /\ f1 = d ++ "/constantVid" ++ ext).
Proof.
  unfold try_except.
  destruct ((probe os ffmpeg f args ;; ret (TEMP, f)) st)
    as [[v|s|e] st0] eqn:E0.
  - intros H. injection H as -> ->.
    assert (Hs : sat probe_event any_status (fun v => v = (TEMP, f))
                     (probe os ffmpeg f args ;; ret (TEMP, f))).
    { apply sat_bind with (R := anything); [apply probe_events|].
      intros _ _. apply sat_ret. reflexivity. }
    destruct (Hs _ _ _ E0) as [(l & Hl & Hf) Hv]. cbn in Hv.
    injection Hv as -> ->.
    destruct (probe_event_facts l Hf) as (Hc & Ht & _).
    exists l. split; [exact Hl|]. split; [exact Hc|]. left. auto.
  - discriminate.
  - assert (Hs : sat probe_event any_status (@anything (option string * string))
                     (probe os ffmpeg f args ;; ret (TEMP, f))).
    { apply sat_bind with (R := anything); [apply probe_events|].
      intros _ _. apply sat_ret. exact I. }
    destruct (Hs _ _ _ E0) as [(l0 & Hl0 & Hf0) _].
    destruct (probe_event_facts l0 Hf0) as (Hc0 & Ht0 & _).
    destruct (is_AttributeError e); [|discriminate].
    intros H. apply repair_returns in H.
    destruct H as (l & d & ext & Hl & Hc & Ht & HT & Hext & Hf1).
    exists (l0 ++ l)%list.
    split; [rewrite Hl, Hl0, app_assoc; reflexivity|].
    split; [rewrite calls_app, Hc0, Hc; reflexivity|].
    right. exists d, ext.
    rewrite temp_dirs_made_app, Ht0, Ht. auto.
Qed.

(** A strategy call that returns, with [newOutput] looked up first. *)
Lemma dispatch_returns (mk : string -> Call) (st : St os) st' :
  (newOutput <- lookup "newOutput" (g_newOutput g) ;;
   run_strategy os (mk newOutput)) st = (Ret tt, st') ->
  exists o, g_newOutput g = Some o
            /\ log st' = (log st ++ [EStrategy (mk o)])%list.
Proof.
  unfold lookup. destruct (g_newOutput g) as [o|]; [|discriminate].
  unfold bind, ret, run_strategy, module_call.
  destruct (strategy os (mk o) (world st)) as [[[]|status|e] w];
    intros H; try discriminate.
  injection H as <-. exists o. split; reflexivity.
Qed.

Lemma when_print_events b line :
  sat probe_event any_status anything (@when os b (print line)).
Proof. apply sat_when; [apply sat_print|]; exact I. Qed.

Lemma dispatch_then_ret (mk : string -> Call) (TEMP : option string)
    (st : St os) T st' :
  (newOutput <- lookup "newOutput" (g_newOutput g) ;;
   run_strategy os (mk newOutput) ;; ret TEMP) st = (Ret T, st') ->
  T = TEMP
  /\ exists o, log st' = (log st ++ [EStrategy (mk o)])%list.
Proof.
  unfold lookup. destruct (g_newOutput g) as [o|]; [|discriminate].
  unfold bind, ret, run_strategy, module_call.
  destruct (strategy os (mk o) (world st)) as [[[]|status|e] w];
    intros H; try discriminate.
  injection H as <- <-. split; [reflexivity|]. exists o. reflexivity.
Qed.

(** The loop body when it returns: it made exactly one strategy call, of
    the strategy that [select_strategy] names; either nothing was
    repaired, [TEMP] is as before and the strategy got the input as it
    is, or one directory was made, [TEMP] is that directory and the
    strategy got the copy inside it. *)
Lemma process_one_returns args ffmpeg cachedir f TEMP (st : St os) T st' :
  process_one os g args ffmpeg cachedir f TEMP st = (Ret T, st') ->
  exists l c,
    log st' = (log st ++ l)%list
    /\ calls l = [c]
    /\ strategy_of c = select_strategy args (isAudioFile os f)
    /\ ((temp_dirs_made l = [] /\ T = TEMP /\ input_of c = f)
        \/ exists d ext,
             temp_dirs_made l = [d] /\ T = Some d
             /\ g_extension g = Some ext
             /\ input_of c = d ++ "/constantVid" ++ ext).
Proof.
  unfold process_one, select_strategy.
  destruct (export_to_premiere args).
  { intros H. apply dispatch_then_ret in H.
    destruct H as (-> & o & Hl).
    eexists [_], _. split; [exact Hl|]. cbn [calls temp_dirs_made].
    split; [reflexivity|]. split; [reflexivity|].
    left. repeat split; reflexivity. }
  destruct (isAudioFile os f).
  { intros H. apply dispatch_then_ret in H.
    destruct H as (-> & o & Hl).
    eexists [_], _. split; [exact Hl|]. cbn [calls temp_dirs_made].
    split; [reflexivity|]. split; [reflexivity|].
    left. repeat split; reflexivity. }
  intros H. unfold bind at 1 in H.
  destruct (try_except _ _ _ st) as [[[T1 f1]|s|e] st1] eqn:Etry;
    try discriminate.
  apply probe_or_repair_returns in Etry.
  destruct Etry as (l1 & Hl1 & Hc1 & Hshape).
  unfold bind at 1 in H.
  match type of H with
  | context [when ?b ?m] =>
      destruct (when b m st1) as [[[]|s|e] st2] eqn:Ewhen;
      try discriminate;
      destruct (when_print_events b _ _ _ _ Ewhen)
        as [(l2 & Hl2 & Hb2) _]
  end.
  destruct (probe_event_facts l2 Hb2) as (Hc2 & Ht2 & _).
  unfold bind at 1 in H.
  assert (Hfinal : exists c,
             log st' = (log st2 ++ [EStrategy c])%list
             /\ input_of c = f1 /\ T = T1
             /\ strategy_of c = (if fast_video_ok args then VideoFast
                                 else OriginalFull)).
  { destruct (fast_video_ok args);
      match type of H with
      | context [bind (lookup _ _) ?k] =>
          destruct (bind (lookup "newOutput" (g_newOutput g)) k st2)
            as [[[]|s|e] st3] eqn:Ecall; try discriminate;
          apply dispatch_returns in Ecall;
          destruct Ecall as (o & _ & Hl3);
          unfold ret in H; injection H as <- <-;
          eexists; split; [exact Hl3|]; repeat split; reflexivity
      end. }
  destruct Hfinal as (c & Hl3 & Hin & HT & Hstrat).
  exists ((l1 ++ l2) ++ [EStrategy c])%list, c.
  split; [rewrite Hl3, Hl2, Hl1, <- !app_assoc; reflexivity|].
  split; [rewrite !calls_app, Hc1, Hc2; reflexivity|].
  split; [exact Hstrat|].
  assert (Ht : temp_dirs_made ((l1 ++ l2) ++ [EStrategy c])
               = temp_dirs_made l1).
  { rewrite !temp_dirs_made_app, Ht2. cbn [temp_dirs_made].
    rewrite !app_nil_r. reflexivity. }
  rewrite Ht, HT, Hin. exact Hshape.
Qed.

(** With [newOutput] unbound the loop body calls no strategy and does not
    return. *)
Lemma process_one_unbound args ffmpeg cachedir f TEMP (st : St os) res st' :
  g_newOutput g = None ->
  process_one os g args ffmpeg cachedir f TEMP st = (res, st') ->
  (forall T, res <> Ret T)
  /\ exists l, log st' = (log st ++ l)%list /\ calls l = [].
Proof.
  intros Hnone. unfold process_one.
  assert (Hd : forall (B : Type) (k : string -> M os B) (s0 : St os) r s1,
             (newOutput <- lookup "newOutput" (g_newOutput g) ;; k newOutput) s0
             = (r, s1) ->
             (forall T, r <> Ret T) /\ log s1 = log s0).
  { intros B k s0 r s1. rewrite Hnone. unfold lookup, bind, raise.
    intros H. injection H as <- <-. split; [discriminate | reflexivity]. }
  destruct (export_to_premiere args).
  { intros H. apply Hd in H. destruct H as [Hr Hl]. split; [exact Hr|].
    exists []. rewrite app_nil_r. auto. }
  destruct (isAudioFile os f).
  { intros H. apply Hd in H. destruct H as [Hr Hl]. split; [exact Hr|].
    exists []. rewrite app_nil_r. auto. }
  intros H. unfold bind at 1 in H.
  destruct (try_except _ _ _ st) as [[[T1 f1]|s|e] st1] eqn:Etry;
    destruct (probe_or_repair_background _ _ _ _ _ _ _ _ _ Etry)
      as [(l1 & Hl1 & Hb1) _].
  2,3: injection H as <- <-; split; [discriminate|]; exists l1; split;
       [exact Hl1 | apply calls_background, Hb1].
  unfold bind at 1 in H.
  match type of H with
  | context [when ?b ?m] =>
      destruct (when b m st1) as [[[]|s|e] st2] eqn:Ewhen;
      destruct (when_print_background _ b _ _ _ _ Ewhen)
        as [(l2 & Hl2 & Hb2) _]
  end.
  2,3: injection H as <- <-; split; [discriminate|];
       exists (l1 ++ l2)%list; split;
       [rewrite Hl2, Hl1, <- app_assoc; reflexivity
       |apply calls_background, Forall_app; auto].
  assert (Hquiet : calls (l1 ++ l2) = [])
    by (apply calls_background, Forall_app; auto).
  unfold bind at 1 in H.
  assert (Hend : (forall T, res <> Ret T) /\ log st' = log st2).
  { destruct (fast_video_ok args);
      match type of H with
      | context [bind (lookup _ _) ?k] =>
          destruct (bind (lookup "newOutput" (g_newOutput g)) k st2)
            as [r3 st3] eqn:Ecall;
          apply (Hd _ (fun o => k o)) in Ecall; destruct Ecall as [Hr3 Hl3];
          destruct r3 as [[]|s|e];
          [destruct (Hr3 tt eq_refl)
          |injection H as <- <-; split; [discriminate | exact Hl3] ..]
      end. }
  destruct Hend as [Hr Hl]. split; [exact Hr|].
  exists (l1 ++ l2)%list.
  split; [rewrite Hl, Hl2, Hl1, <- app_assoc; reflexivity | exact Hquiet].
Qed.

(** The repair, however it ends: at most one directory is made, and with
    [extension] unbound the repair ends with [NameError] right after it
    has made the directory. *)
Lemma repair_dirs ffmpeg f args (st : St os) res st' :
  repair os g ffmpeg f args st = (res, st') ->
  exists l,
    log st' = (log st ++ l)%list
    /\ (temp_dirs_made l = []
        \/ exists d, temp_dirs_made l = [d]
                     /\ (g_extension g = None ->
                         res = Raise (NameError "extension"))).
Proof.
  unfold repair, bind, print, emit, make_temp, lookup. cbn [world log].
  destruct (mkdtemp os (world st)) as [[d|e] w].
  - destruct (g_extension g) as [ext|].
    + unfold ret at 1, subprocess_call, bind, outside. cbn [world log].
      destruct (call os _ w) as [[z|e] w2]; cbn [res_of_try];
        unfold ret; intros H; injection H as <- <-; cbn [log];
        rewrite <- !app_assoc; eexists; (split; [reflexivity|]);
        right; exists d; (split; [reflexivity | discriminate]).
    + unfold raise. intros H. injection H as <- <-. cbn [log].
      rewrite <- !app_assoc. eexists. split; [reflexivity|].
      right. exists d. split; reflexivity.
  - intros H. injection H as <- <-. cbn [log].
    rewrite <- !app_assoc. eexists. split; [reflexivity|]. left. reflexivity.
Qed.

(** The loop body, however it ends: at most one directory is made. *)
Lemma process_one_dirs args ffmpeg cachedir f TEMP (st : St os) res st' :
  process_one os g args ffmpeg cachedir f TEMP st = (res, st') ->
  exists l,
    log st' = (log st ++ l)%list
    /\ (temp_dirs_made l = []
        \/ exists d, temp_dirs_made l = [d]
                     /\ (g_extension g = None ->
                         res = Raise (NameError "extension"))).
Proof.
  unfold process_one.
  destruct (export_to_premiere args).
  { intros H. apply dispatch_record in H.
    destruct H as [[_ Hl]|(o & _ & Hl)]; rewrite Hl.
    - exists []. rewrite app_nil_r. auto.
    - eexists. split; [reflexivity|]. left. reflexivity. }
  destruct (isAudioFile os f).
  { intros H. apply dispatch_record in H.
    destruct H as [[_ Hl]|(o & _ & Hl)]; rewrite Hl.
    - exists []. rewrite app_nil_r. auto.
    - eexists. split; [reflexivity|]. left. reflexivity. }
  intros H. unfold bind at 1 in H.
  destruct (try_except _ _ _ st) as [r1 st1] eqn:Etry.
  assert (Htry : exists l1,
             log st1 = (log st ++ l1)%list
             /\ (temp_dirs_made l1 = []
                 \/ exists d, temp_dirs_made l1 = [d]
                              /\ (g_extension g = None ->
                                  r1 = Raise (NameError "extension")))).
  { revert Etry. unfold try_except.
    destruct ((probe os ffmpeg f args ;; ret (TEMP, f)) st)
      as [r0 st0] eqn:E0.
    assert (Hs : sat probe_event any_status (@anything (option string * string))
                     (probe os ffmpeg f args ;; ret (TEMP, f))).
    { apply sat_bind with (R := anything); [apply probe_events|].
      intros _ _. apply sat_ret. exact I. }
    destruct (Hs _ _ _ E0) as [(l0 & Hl0 & Hf0) _].
    destruct (probe_event_facts l0 Hf0) as (_ & Ht0 & _).
    destruct r0 as [v|s|e].
    - intros H1. injection H1 as <- <-. exists l0. auto.
    - intros H1. injection H1 as <- <-. exists l0. auto.
    - destruct (is_AttributeError e).
      + intros H1. apply repair_dirs in H1.
        destruct H1 as (l & Hl & Hd). exists (l0 ++ l)%list.
        split; [rewrite Hl, Hl0, app_assoc; reflexivity|].
        rewrite temp_dirs_made_app, Ht0. exact Hd.
      + intros H1. injection H1 as <- <-. exists l0. auto. }
  destruct Htry as (l1 & Hl1 & Hd1).
  destruct r1 as [[T1 f1]|s|e].
  2,3: injection H as <- <-; exists l1; split; [exact Hl1|];
       destruct Hd1 as [Hd1|(d & Hd1 & Hx)];
       [left; exact Hd1
       |right; exists d; split; [exact Hd1|]; intros Hn;
        specialize (Hx Hn);
        first [discriminate | injection Hx as ->; reflexivity]].
  assert (Hd1' : temp_dirs_made l1 = []
                 \/ exists d, temp_dirs_made l1 = [d]
                              /\ (g_extension g = None ->
                                  res = Raise (NameError "extension"))).
  { destruct Hd1 as [Hd1|(d & Hd1 & Hx)]; [left; exact Hd1|].
    right. exists d. split; [exact Hd1|].
    intros Hn. specialize (Hx Hn). discriminate. }
  unfold bind at 1 in H.
  match type of H with
  | context [when ?b ?m] =>
      destruct (when b m st1) as [[[]|s|e] st2] eqn:Ewhen;
      destruct (when_print_events b _ _ _ _ Ewhen)
        as [(l2 & Hl2 & Hb2) _]
  end.
  all: destruct (probe_event_facts l2 Hb2) as (_ & Ht2 & _).
  2,3: injection H as <- <-; exists (l1 ++ l2)%list; split;
       [rewrite Hl2, Hl1, <- app_assoc; reflexivity
       |rewrite temp_dirs_made_app, Ht2, app_nil_r; exact Hd1'].
  unfold bind at 1 in H.
  assert (Hend : exists l3, log st' = (log st2 ++ l3)%list
                            /\ temp_dirs_made l3 = []).
  { destruct (fast_video_ok args);
      match type of H with
      | context [bind (lookup _ _) ?k] =>
          destruct (bind (lookup "newOutput" (g_newOutput g)) k st2)
            as [r3 st3] eqn:Ecall;
          assert (Hst : log st' = log st3)
            by (destruct r3 as [[]|s|e]; unfold ret in H;
                injection H as <- <-; reflexivity);
          revert Ecall; unfold lookup;
          destruct (g_newOutput g) as [o|]; intros Ecall;
          [unfold bind, ret, run_strategy, module_call in Ecall;
           destruct (strategy os _ (world st2)) as [[[]|s|e] w];
           injection Ecall as <- <-; eexists; rewrite Hst;
           split; reflexivity
          |unfold bind, raise in Ecall; injection Ecall as <- <-;
           exists []; rewrite Hst, app_nil_r; split; reflexivity]
      end. }
  destruct Hend as (l3 & Hl3 & Ht3).
  exists ((l1 ++ l2) ++ l3)%list.
  split; [rewrite Hl3, Hl2, Hl1, <- !app_assoc; reflexivity|].
  rewrite !temp_dirs_made_app, Ht2, Ht3, !app_nil_r. exact Hd1'.
Qed.

(** The loop, however it ends.  The strategy calls it has made are those
    selected for the first inputs, one each and in order; it has made at
    most one directory per input. *)
Lemma process_loop_any args ffmpeg cachedir inputList :
  forall TEMP (st : St os) res st',
    for_each inputList TEMP (process_one os g args ffmpeg cachedir) st
    = (res, st') ->
    exists l,
      log st' = (log st ++ l)%list
      /\ map strategy_of (calls l)
         = firstn (List.length (calls l))
                  (map (fun f => select_strategy args (isAudioFile os f))
                       inputList)
      /\ (List.length (temp_dirs_made l) <= List.length inputList)%nat
      /\ (forall T, res = Ret T ->
                    List.length (calls l) = List.length inputList
                    /\ T = temp_after TEMP l)
      /\ (g_newOutput g = None ->
          calls l = [] /\ (inputList <> [] -> forall T, res <> Ret T))
      /\ (g_extension g = None -> temp_dirs_made l <> [] ->
          res = Raise (NameError "extension")
          /\ exists d, temp_dirs_made l = [d]).
Proof.
  induction inputList as [|f rest IH]; intros TEMP st res st' H;
    cbn [for_each] in H.
  - injection H as <- <-. exists []. rewrite app_nil_r.
    split; [reflexivity|]. split; [reflexivity|]. split; [cbn; lia|].
    split; [intros T HT; injection HT as <-; split; reflexivity|].
    split; [intros _; split; [reflexivity | intros Hne; destruct (Hne eq_refl)]|].
    intros _ Hne. destruct (Hne eq_refl).
  - unfold bind in H.
    destruct (process_one os g args ffmpeg cachedir f TEMP st)
      as [r1 st1] eqn:E1.
    destruct (process_one_calls _ _ _ _ _ _ _ _ _ _ E1) as (l1 & Hl1 & Hc1).
    destruct (process_one_dirs _ _ _ _ _ _ _ _ E1) as (l1' & Hl1' & Hd1).
    assert (l1' = l1)
      by (rewrite Hl1 in Hl1'; apply app_inv_head in Hl1'; congruence).
    subst l1'. clear Hl1'.
    assert (Hu1 : g_newOutput g = None ->
                  calls l1 = [] /\ forall T, r1 <> Ret T).
    { intros Hn.
      destruct (process_one_unbound _ _ _ _ _ _ _ _ Hn E1)
        as (Hr & l1' & Hl1' & Hc).
      assert (l1' = l1)
        by (rewrite Hl1 in Hl1'; apply app_inv_head in Hl1'; congruence).
      subst l1'. auto. }
    destruct r1 as [T1|s|e].
    + destruct (process_one_returns _ _ _ _ _ _ _ _ E1)
        as (l1' & c & Hl1' & Hc1' & Hs1 & Hshape).
      assert (l1' = l1)
        by (rewrite Hl1 in Hl1'; apply app_inv_head in Hl1'; congruence).
      subst l1'. clear Hl1' Hc1.
      destruct (IH _ _ _ _ H) as (l2 & Hl2 & Hc2 & Hn2 & Hr2 & Hu2 & Hx2).
      assert (HT1 : T1 = temp_after TEMP l1).
      { destruct Hshape as [(Ht & -> & _)|(d & ext & Ht & -> & _)];
          unfold temp_after; rewrite Ht; reflexivity. }
      assert (Hlen1 : (List.length (temp_dirs_made l1) <= 1)%nat).
      { destruct Hd1 as [->|(d & -> & _)]; cbn; lia. }
      exists (l1 ++ l2)%list.
      split; [rewrite Hl2, Hl1, app_assoc; reflexivity|].
      split.
      { rewrite calls_app, Hc1'. cbn [app map List.length firstn].
        rewrite Hs1, Hc2. reflexivity. }
      split; [rewrite temp_dirs_made_app, length_app; cbn [List.length]; lia|].
      split.
      { intros T HT. destruct (Hr2 T HT) as [Hlen HT2].
        rewrite calls_app, Hc1'. cbn [app List.length].
        split; [rewrite Hlen; reflexivity|].
        rewrite temp_after_app, <- HT1. exact HT2. }
      split.
      { intros Hn. destruct (Hu1 Hn) as [_ Hr]. destruct (Hr T1 eq_refl). }
      intros Hx Hne.
      assert (Ht1 : temp_dirs_made l1 = []).
      { destruct Hd1 as [Ht|(d & _ & Hraise)]; [exact Ht|].
        specialize (Hraise Hx). discriminate. }
      rewrite temp_dirs_made_app, Ht1 in Hne |- *. cbn [app] in Hne |- *.
      exact (Hx2 Hx Hne).
    + injection H as <- <-. exists l1.
      split; [exact Hl1|].
      split.
      { destruct Hc1 as [->|(c & -> & Hs)]; cbn [map List.length firstn];
          [reflexivity | rewrite Hs; reflexivity]. }
      split; [destruct Hd1 as [->|(d & -> & _)]; cbn; lia|].
      split; [intros T HT; discriminate|].
      split; [intros Hn; destruct (Hu1 Hn) as [Hc _]; split;
              [exact Hc | intros _ T HT; discriminate]|].
      intros Hx Hne. destruct Hd1 as [Ht|(d & Ht & Hraise)];
        [destruct (Hne Ht)|].
      split; [exact (Hraise Hx) | exists d; exact Ht].
    + injection H as <- <-. exists l1.
      split; [exact Hl1|].
      split.
      { destruct Hc1 as [->|(c & -> & Hs)]; cbn [map List.length firstn];
          [reflexivity | rewrite Hs; reflexivity]. }
      split; [destruct Hd1 as [->|(d & -> & _)]; cbn; lia|].
      split; [intros T HT; discriminate|].
      split; [intros Hn; destruct (Hu1 Hn) as [Hc _]; split;
              [exact Hc | intros _ T HT; discriminate]|].
      intros Hx Hne. destruct Hd1 as [Ht|(d & Ht & Hraise)];
        [destruct (Hne Ht)|].
      split; [exact (Hraise Hx) | exists d; exact Ht].
Qed.

End LoopShape.

(** X8. Whatever names are bound and however the batch loop ends, the
    strategy calls it has made are, in order, one for each of the first
    inputs, each of the strategy that the decision of lines 207-266 names
    for that input: no input gets two calls and none is skipped.  A loop
    that returns has made a call for every input.  With [newOutput]
    unbound, as in the module as it stands, no call is ever made, and the
    loop returns only when there is no input. *)
Theorem loop_calls_follow_the_inputs :
  forall (os : OS) (g : Globals) (args : Args) (ffmpeg cachedir : string)
         (inputList : list string) (st : St os) res st',
    process_all os g args ffmpeg cachedir inputList st = (res, st') ->
    exists l,
      log st' = (log st ++ l)%list
      /\ map strategy_of (calls l)
         = firstn (List.length (calls l))
                  (map (fun f => select_strategy args (isAudioFile os f))
                       inputList)
      /\ (List.length (calls l) <= List.length inputList)%nat
      /\ (forall T, res = Ret T ->
                    List.length (calls l) = List.length inputList)
      /\ (g_newOutput g = None ->
          calls l = [] /\ (inputList <> [] -> forall T, res <> Ret T)).
Proof.
  intros os g args ffmpeg cachedir inputList st res st' H.
  destruct (process_loop_any os g args ffmpeg cachedir inputList
              None st res st' H) as (l & Hl & Hc & _ & Hr & Hu & _).
  exists l. split; [exact Hl|]. split; [exact Hc|]. split.
  - pose proof (f_equal (@List.length StrategyChoice) Hc) as Hlen.
    rewrite length_map, length_firstn, length_map in Hlen. lia.
  - split; [|exact Hu]. intros T HT. exact (proj1 (Hr T HT)).
Qed.

Lemma loop_calls_follow_the_inputs_witness :
  let os := Sample.machine (fun _ => Sample.steady) true in
  let args := set_output_file (Some []) (default_args ["clip.mp4"; "talk.wav"]) in
  let st := @mkSt os (Sample.mkDisk ["clip.mp4"; "talk.wav"] [] 0) [] in
  let sel := map (fun f => select_strategy args (isAudioFile os f))
                 ["clip.mp4"; "talk.wav"] in
  let r := process_all os shipped args "ffmpeg" "cache"
                       ["clip.mp4"; "talk.wav"] st in
  let r' := process_all os (Sample.bound_names "out.mp4" ".mp4") args
                        "ffmpeg" "cache" ["clip.mp4"; "talk.wav"] st in
  (exists l,
      log (snd r) = (log st ++ l)%list
      /\ map strategy_of (calls l) = firstn (List.length (calls l)) sel
      /\ (List.length (calls l) <= 2)%nat
      /\ (forall T, fst r = Ret T -> List.length (calls l) = 2%nat)
      /\ (g_newOutput shipped = None ->
          calls l = []
          /\ (["clip.mp4"; "talk.wav"] <> [] -> forall T, fst r <> Ret T)))
  /\ (exists l,
         log (snd r') = (log st ++ l)%list
         /\ map strategy_of (calls l) = firstn (List.length (calls l)) sel
         /\ (List.length (calls l) <= 2)%nat
         /\ (forall T, fst r' = Ret T -> List.length (calls l) = 2%nat)
         /\ (g_newOutput (Sample.bound_names "out.mp4" ".mp4") = None ->
             calls l = []
             /\ (["clip.mp4"; "talk.wav"] <> [] -> forall T, fst r' <> Ret T))).
Proof.
  intros os args st sel r r'. split.
  - exact (loop_calls_follow_the_inputs os shipped args "ffmpeg" "cache"
             ["clip.mp4"; "talk.wav"] st (fst r) (snd r)
             (surjective_pairing r)).
  - exact (loop_calls_follow_the_inputs os
             (Sample.bound_names "out.mp4" ".mp4") args "ffmpeg" "cache"
             ["clip.mp4"; "talk.wav"] st (fst r') (snd r')
             (surjective_pairing r')).
Defined.

(** X9. Whatever names are bound and however the loop ends: one pass of
    the loop body makes at most one temporary directory, so the loop
    makes at most one for each input; when the loop returns, [TEMP] is
    the directory that was made last, and is unbound when none was made,
    so of several directories made in one batch only the last can reach
    the [rmtree] of line 290.  With [extension] unbound, as in the module
    as it stands, a directory that is made ends the loop at once with
    [NameError]: at most one is made, and it is never handed on. *)
Theorem loop_temporary_directories :
  forall (os : OS) (g : Globals) (args : Args) (ffmpeg cachedir : string),
    (forall (f : string) (TEMP : option string) (st : St os) res st',
        process_one os g args ffmpeg cachedir f TEMP st = (res, st') ->
        exists l,
          log st' = (log st ++ l)%list
          /\ (List.length (temp_dirs_made l) <= 1)%nat)
    /\ (forall (inputList : list string) (st : St os) res st',
           process_all os g args ffmpeg cachedir inputList st = (res, st') ->
           exists l,
             log st' = (log st ++ l)%list
             /\ (List.length (temp_dirs_made l) <= List.length inputList)%nat
             /\ (forall T, res = Ret T -> T = last_of (temp_dirs_made l))
             /\ (g_extension g = None -> temp_dirs_made l <> [] ->
                 res = Raise (NameError "extension")
                 /\ exists d, temp_dirs_made l = [d])).
Proof.
  intros os g args ffmpeg cachedir. split.
  - intros f TEMP st res st' H.
    destruct (process_one_dirs os g args ffmpeg cachedir f TEMP st res st' H)
      as (l & Hl & Hd).
    exists l. split; [exact Hl|].
    destruct Hd as [->|(d & -> & _)]; cbn; lia.
  - intros inputList st res st' H.
    destruct (process_loop_any os g args ffmpeg cachedir inputList
                None st res st' H) as (l & Hl & _ & Hn & Hr & _ & Hx).
    exists l. split; [exact Hl|]. split; [exact Hn|]. split; [|exact Hx].
    intros T HT. destruct (Hr T HT) as [_ ->].
    unfold temp_after. destruct (last_of _); reflexivity.
Qed.

Lemma loop_temporary_directories_witness :
  let os := Sample.machine (fun _ => Sample.variable) true in
  let args := set_output_file (Some []) (default_args ["clip.mp4"; "b.mp4"]) in
  let st := @mkSt os (Sample.mkDisk ["clip.mp4"; "b.mp4"] [] 0) [] in
  let r := process_all os shipped args "ffmpeg" "cache"
                       ["clip.mp4"; "b.mp4"] st in
  let r' := process_all os (Sample.bound_names "out.mp4" ".mp4") args
                        "ffmpeg" "cache" ["clip.mp4"; "b.mp4"] st in
  (exists l,
      log (snd r) = (log st ++ l)%list
      /\ (List.length (temp_dirs_made l) <= 2)%nat
      /\ (forall T, fst r = Ret T -> T = last_of (temp_dirs_made l))
      /\ (g_extension shipped = None -> temp_dirs_made l <> [] ->
          fst r = Raise (NameError "extension")
          /\ exists d, temp_dirs_made l = [d]))
  /\ (exists l,
         log (snd r') = (log st ++ l)%list
         /\ (List.length (temp_dirs_made l) <= 2)%nat
         /\ (forall T, fst r' = Ret T -> T = last_of (temp_dirs_made l))
         /\ (g_extension (Sample.bound_names "out.mp4" ".mp4") = None ->
             temp_dirs_made l <> [] ->
             fst r' = Raise (NameError "extension")
             /\ exists d, temp_dirs_made l = [d])).
Proof.
  intros os args st r r'. split.
  - exact (proj2 (loop_temporary_directories os shipped args "ffmpeg" "cache")
             ["clip.mp4"; "b.mp4"] st (fst r) (snd r) (surjective_pairing r)).
  - exact (proj2 (loop_temporary_directories os
                    (Sample.bound_names "out.mp4" ".mp4") args "ffmpeg" "cache")
             ["clip.mp4"; "b.mp4"] st (fst r') (snd r')
             (surjective_pairing r')).
Defined.

(** On the machine where ffmpeg can tell no frame rate: with the names
    bound the loop over two videos makes two directories and hands on
    the second; in the module as it stands it makes one and ends with
    [NameError]. *)
Lemma two_repairs_in_one_batch :
  let os := Sample.machine (fun _ => Sample.variable) true in
  let args := set_output_file (Some []) (default_args ["clip.mp4"; "b.mp4"]) in
  let st := @mkSt os (Sample.mkDisk ["clip.mp4"; "b.mp4"] [] 0) [] in
  let r := process_all os shipped args "ffmpeg" "cache"
                       ["clip.mp4"; "b.mp4"] st in
  let r' := process_all os (Sample.bound_names "out.mp4" ".mp4") args
                        "ffmpeg" "cache" ["clip.mp4"; "b.mp4"] st in
  fst r = Raise (NameError "extension")
  /\ temp_dirs_made (log (snd r)) = ["/tmp/tmpx"]
  /\ fst r' = Ret (Some "/tmp/tmpxx")
  /\ temp_dirs_made (log (snd r')) = ["/tmp/tmpx"; "/tmp/tmpxx"]
  /\ List.length (calls (log (snd r'))) = 2%nat
  /\ calls (log (snd r)) = [].
Proof. repeat split; reflexivity. Qed.

(** ** The probe and the inputs it is not run on *)

(** X10. When the probe text has a match whose group [float] accepts,
    lines 222-244 return the input and [TEMP] as they were; all that has
    happened is the probe, and with [--debug] the three printed lines:
    no warning, no temporary directory, no re-encode. *)
Theorem probe_with_number_keeps_input :
  forall (os : OS) (g : Globals) (ffmpeg f : string) (args : Args)
         (TEMP : option string) (st : St os) (text fps : string)
         (w1 : World os),
    popen_output os [ffmpeg; "-i"; f] (world st) = (Done text, w1) ->
    PyRe.search_tbr text = Some fps ->
    PyRe.float_accepts fps = true ->
    try_except (probe os ffmpeg f args ;; ret (TEMP, f)) is_AttributeError
               (repair os g ffmpeg f args) st
    = (Ret (TEMP, f),
       mkSt w1 (log st
                ++ EPopen [ffmpeg; "-i"; f]
                   :: (if debug args
                       then [EPrint "FFmpeg test:"; EPrint text; EPrint nl]
                       else []))).
Proof.
  intros os g ffmpeg f args TEMP st text fps w1 Hp Hs Hf.
  unfold try_except, bind at 1, probe, bind at 1, outside.
  rewrite Hp. cbn [res_of_try].
  destruct (debug args); cbn [when].
  - unfold bind, print, emit, ret. cbn [world log].
    rewrite Hs, Hf. rewrite <- !app_assoc. reflexivity.
  - unfold bind at 1, ret at 1. rewrite Hs, Hf. reflexivity.
Qed.

Lemma probe_with_number_keeps_input_witness :
  let os := Sample.machine (fun _ => Sample.steady) true in
  let disk := Sample.mkDisk ["clip.mp4"] [] 0 in
  let args := default_args ["clip.mp4"] in
  try_except (probe os "ffmpeg" "clip.mp4" args ;; ret (None, "clip.mp4"))
             is_AttributeError
             (repair os shipped "ffmpeg" "clip.mp4" args) (@mkSt os disk [])
  = (Ret (None, "clip.mp4"),
     @mkSt os disk
       ([] ++ EPopen ["ffmpeg"; "-i"; "clip.mp4"]
           :: (if debug args
               then [EPrint "FFmpeg test:"; EPrint Sample.steady; EPrint nl]
               else []))).
Proof.
  intros os disk args.
  exact (probe_with_number_keeps_input os shipped "ffmpeg" "clip.mp4" args
           None (@mkSt os disk []) Sample.steady "30" disk
           eq_refl eq_refl eq_refl).
Defined.

(** X12. An input that is exported to Premiere, or that is an audio file,
    is never probed and never repaired: the loop body starts no
    subprocess and makes no directory for it, leaves [TEMP] as it was, and
    whatever strategy call it makes is given the input as it is. *)
Theorem export_and_audio_are_not_probed :
  forall (os : OS) (g : Globals) (args : Args) (ffmpeg cachedir f : string)
         (TEMP : option string) (st : St os) res st',
    export_to_premiere args = true \/ isAudioFile os f = true ->
    process_one os g args ffmpeg cachedir f TEMP st = (res, st') ->
    exists l,
      log st' = (log st ++ l)%list
      /\ Forall untouched l
      /\ (forall T, res = Ret T -> T = TEMP)
      /\ (forall c, In c (calls l) -> input_of c = f).
Proof.
  intros os g args ffmpeg cachedir f TEMP st res st' Hcase.
  assert (Hd : forall mk : string -> Call,
             (forall o, input_of (mk o) = f) ->
             (newOutput <- lookup "newOutput" (g_newOutput g) ;;
              run_strategy os (mk newOutput) ;; ret TEMP) st = (res, st') ->
             exists l,
               log st' = (log st ++ l)%list
               /\ Forall untouched l
               /\ (forall T, res = Ret T -> T = TEMP)
               /\ (forall c, In c (calls l) -> input_of c = f)).
  { intros mk Hmk. unfold lookup.
    destruct (g_newOutput g) as [o|].
    - unfold bind, ret, run_strategy, module_call.
      destruct (strategy os (mk o) (world st)) as [[[]|status|e] w];
        intros H; injection H as <- <-;
        (exists [EStrategy (mk o)]; split; [reflexivity|];
         split; [repeat constructor|]; split;
         [intros T HT; try discriminate; injection HT as <-; reflexivity
         |intros c [<-|[]]; apply Hmk]).
    - unfold bind, raise. intros H. injection H as <- <-.
      exists []. rewrite app_nil_r. split; [reflexivity|].
      split; [constructor|]. split; [discriminate|intros c []]. }
  unfold process_one.
  destruct (export_to_premiere args).
  - apply Hd. reflexivity.
  - destruct Hcase as [Hx|Ha]; [discriminate|]. rewrite Ha.
    apply Hd. reflexivity.
Qed.

Lemma export_and_audio_are_not_probed_witness :
  let os := Sample.machine (fun _ => Sample.variable) true in
  let names := Sample.bound_names "out.wav" ".wav" in
  let args := default_args ["talk.wav"] in
  let st := @mkSt os (Sample.mkDisk ["talk.wav"] [] 0) [] in
  let r := process_one os names args "ffmpeg" "cache" "talk.wav" None st in
  exists l,
    log (snd r) = (log st ++ l)%list
    /\ Forall untouched l
    /\ (forall T, fst r = Ret T -> T = None)
    /\ (forall c, In c (calls l) -> input_of c = "talk.wav").
Proof.
  intros os names args st r.
  exact (export_and_audio_are_not_probed os names args "ffmpeg" "cache"
           "talk.wav" None st (fst r) (snd r) (or_intror eq_refl)
           (surjective_pairing r)).
Defined.

(** ** After the loop *)

Section FinishFacts.

Context (os : OS) (g : Globals).

Lemma open_output_keeps_dirs outFile :
  sat keeps_dirs any_status anything (open_output os outFile).
Proof.
  unfold open_output. apply sat_try_except.
  - destruct (has_startfile os);
      [apply sat_outside; [exact I | intros; exact I] | apply sat_raise].
  - apply sat_try_except_all; [apply sat_subprocess_call; exact I|].
    apply sat_try_except_all; [apply sat_subprocess_call; exact I|].
    apply sat_print; exact I.
Qed.

(** The first four steps of [finish]: what is printed, and the file
    test, made in the state in which [finish] starts. *)
Lemma finish_unfolds args startTime TEMP (st : St os) p :
  g_outFile g = Some p ->
  finish os g args startTime TEMP st
  = (when (negb (isfile os (world st) p))
       (print ("Error! The file " ++ p ++ " was not created.") ;;
        sys_exit 1) ;;
     when (negb (no_open args) && negb (export_to_premiere args))%bool
       (open_output os p) ;;
     match TEMP with
     | Some d => outside (ERmtree d) (rmtree os d)
     | None => ret tt
     end)
      (mkSt (world st)
            (log st ++ [EPrint "Finished."; ETook startTime (time os (world st))])).
Proof.
  intros Hp. unfold finish.
  unfold bind at 1, print at 1, emit at 1.
  unfold bind at 1, observe at 1. cbn [world log].
  unfold bind at 1, emit at 1. cbn [world log].
  rewrite Hp. unfold bind at 1, lookup, ret at 1.
  unfold bind at 1, is_file, observe. cbn [world log].
  rewrite <- app_assoc. reflexivity.
Qed.

End FinishFacts.

(** X13. When the file that line 273 looks for is not there, the run
    ends at line 275 with status 1 after the missing-output line: the
    outside state is left as it was, nothing is opened, and [rmtree] is not
    called, whatever [TEMP] holds. *)
Theorem missing_output_exits_before_cleanup :
  forall (os : OS) (g : Globals) (args : Args) (startTime : float)
         (TEMP : option string) (st : St os) (p : string),
    g_outFile g = Some p ->
    isfile os (world st) p = false ->
    finish os g args startTime TEMP st
    = (Exit 1,
       mkSt (world st)
            (log st ++ [EPrint "Finished.";
                        ETook startTime (time os (world st));
                        EPrint ("Error! The file " ++ p ++ " was not created.")])).
Proof.
  intros os g args t TEMP st p Hp Hf.
  rewrite (finish_unfolds os g args t TEMP st p Hp), Hf. cbn [negb when].
  unfold bind, print, emit, sys_exit. cbn [world log].
  rewrite <- app_assoc. reflexivity.
Qed.

Lemma missing_output_exits_before_cleanup_witness :
  let os := Sample.machine (fun _ => Sample.steady) false in
  let disk := Sample.mkDisk ["clip.mp4"] [("/tmp/tmpx", [])] 1 in
  let args := default_args ["clip.mp4"] in
  finish os (Sample.bound_names "out.mp4" ".mp4") args 0%float
         (Some "/tmp/tmpx") (@mkSt os disk [])
  = (Exit 1,
     @mkSt os disk
       ([] ++ [EPrint "Finished.";
               ETook 0%float (time os disk);
               EPrint ("Error! The file " ++ "out.mp4" ++ " was not created.")])).
Proof.
  intros os disk args.
  exact (missing_output_exits_before_cleanup os
           (Sample.bound_names "out.mp4" ".mp4") args 0%float
           (Some "/tmp/tmpx") (@mkSt os disk []) "out.mp4" eq_refl eq_refl).
Defined.

(** X14. Whatever names are bound and however the code after the loop
    ends, it removes no directory but the one [TEMP] holds, and that one
    at most once.  It returns only when [outFile] is bound and the file
    of that name was there when the loop ended, and then it has removed
    exactly the directory of [TEMP], or none when [TEMP] is unbound.
    With [outFile] unbound, as in the module as it stands, it ends with
    [NameError] after the two lines of the report and removes nothing. *)
Theorem finish_removes_only_temp :
  forall (os : OS) (g : Globals) (args : Args) (startTime : float)
         (TEMP : option string) (st : St os) res st',
    finish os g args startTime TEMP st = (res, st') ->
    exists l,
      log st' = (log st ++ l)%list
      /\ (dirs_removed l = []
          \/ exists d, TEMP = Some d /\ dirs_removed l = [d])
      /\ (res = Ret tt ->
          exists p,
            g_outFile g = Some p
            /\ isfile os (world st) p = true
            /\ dirs_removed l = match TEMP with Some d => [d] | None => [] end)
      /\ (g_outFile g = None ->
          res = Raise (NameError "outFile")
          /\ l = [EPrint "Finished."; ETook startTime (time os (world st))]).
Proof.
  intros os g args t TEMP st res st' H.
  destruct (g_outFile g) as [p|] eqn:Hp.
  2:{ unfold finish, bind, print, emit, observe, lookup, raise in H.
      rewrite Hp in H. cbn [world log] in H. injection H as <- <-.
      cbn [log]. rewrite <- app_assoc. eexists. split; [reflexivity|].
      split; [left; reflexivity|]. split; [discriminate|].
      intros _. split; reflexivity. }
  rewrite (finish_unfolds os g args t TEMP st p Hp) in H.
  destruct (isfile os (world st) p) eqn:Hf.
  2:{ cbn [negb when] in H. unfold bind, print, emit, sys_exit in H.
      cbn [world log] in H. injection H as <- <-. cbn [log].
      rewrite <- app_assoc. eexists. split; [reflexivity|].
      split; [left; reflexivity|]. split; discriminate. }
  cbn [negb when] in H. unfold bind at 1, ret at 1 in H.
  unfold bind at 1 in H.
  match type of H with
  | context [when ?b ?m ?s] =>
      destruct (when b m s) as [r2 st2] eqn:Eopen;
      assert (Hs : sat keeps_dirs any_status anything (when b m))
        by (apply sat_when; [apply open_output_keeps_dirs | exact I]);
      destruct (Hs _ _ _ Eopen) as [(l2 & Hl2 & Hk2) _]
  end.
  cbn [log] in Hl2.
  destruct r2 as [[]|status|e].
  2,3: injection H as <- <-; eexists;
       (split; [rewrite Hl2, <- app_assoc; reflexivity|]);
       (split; [left; rewrite dirs_removed_app, (dirs_removed_none _ Hk2);
                reflexivity|]);
       split; discriminate.
  destruct TEMP as [d|].
  - unfold outside in H.
    destruct (rmtree os d (world st2)) as [r w]. injection H as <- <-.
    cbn [log]. eexists.
    split; [rewrite Hl2, <- !app_assoc; reflexivity|].
    assert (Hrm : dirs_removed
                    ([EPrint "Finished."; ETook t (time os (world st))]
                     ++ l2 ++ [ERmtree d]) = [d])
      by (rewrite !dirs_removed_app, (dirs_removed_none _ Hk2); reflexivity).
    split; [right; exists d; split; [reflexivity | exact Hrm]|].
    split; [|discriminate].
    intros _. exists p. split; [reflexivity|]. split; [exact Hf | exact Hrm].
  - unfold ret in H. injection H as <- <-. eexists.
    split; [rewrite Hl2, <- !app_assoc; reflexivity|].
    assert (Hrm : dirs_removed
                    ([EPrint "Finished."; ETook t (time os (world st))]
                     ++ l2) = [])
      by (rewrite dirs_removed_app, (dirs_removed_none _ Hk2); reflexivity).
    split; [left; exact Hrm|].
    split; [|discriminate].
    intros _. exists p. split; [reflexivity|]. split; [exact Hf | exact Hrm].
Qed.

Lemma finish_removes_only_temp_witness :
  let os := Sample.machine (fun _ => Sample.steady) true in
  let disk := Sample.mkDisk ["out.mp4"; "clip.mp4"] [("/tmp/tmpx", [])] 1 in
  let names := Sample.bound_names "out.mp4" ".mp4" in
  let args := default_args ["clip.mp4"] in
  let st := @mkSt os disk [] in
  let r := finish os shipped args 0%float (Some "/tmp/tmpx") st in
  let r' := finish os names args 0%float (Some "/tmp/tmpx") st in
  (exists l,
      log (snd r) = (log st ++ l)%list
      /\ (dirs_removed l = []
          \/ exists d, Some "/tmp/tmpx" = Some d /\ dirs_removed l = [d])
      /\ (fst r = Ret tt ->
          exists p,
            g_outFile shipped = Some p
            /\ isfile os (world st) p = true
            /\ dirs_removed l = ["/tmp/tmpx"])
      /\ (g_outFile shipped = None ->
          fst r = Raise (NameError "outFile")
          /\ l = [EPrint "Finished."; ETook 0%float (time os (world st))]))
  /\ (exists l,
         log (snd r') = (log st ++ l)%list
         /\ (dirs_removed l = []
             \/ exists d, Some "/tmp/tmpx" = Some d /\ dirs_removed l = [d])
         /\ (fst r' = Ret tt ->
             exists p,
               g_outFile names = Some p
               /\ isfile os (world st) p = true
               /\ dirs_removed l = ["/tmp/tmpx"])
         /\ (g_outFile names = None ->
             fst r' = Raise (NameError "outFile")
             /\ l = [EPrint "Finished."; ETook 0%float (time os (world st))])).
Proof.
  intros os disk names args st r r'. split.
  - exact (finish_removes_only_temp os shipped args 0%float
             (Some "/tmp/tmpx") st (fst r) (snd r) (surjective_pairing r)).
  - exact (finish_removes_only_temp os names args 0%float
             (Some "/tmp/tmpx") st (fst r') (snd r') (surjective_pairing r')).
Defined.

(** On that machine: with the names bound the code after the loop
    returns and has removed the directory of [TEMP]; in the module as it
    stands it ends with [NameError] and the directory stays. *)
Lemma cleanup_after_the_loop_examples :
  let os := Sample.machine (fun _ => Sample.steady) true in
  let disk := Sample.mkDisk ["out.mp4"; "clip.mp4"] [("/tmp/tmpx", [])] 1 in
  let names := Sample.bound_names "out.mp4" ".mp4" in
  let args := default_args ["clip.mp4"] in
  let st := @mkSt os disk [] in
  let r := finish os shipped args 0%float (Some "/tmp/tmpx") st in
  let r' := finish os names args 0%float (Some "/tmp/tmpx") st in
  fst r = Raise (NameError "outFile")
  /\ dirs_removed (log (snd r)) = []
  /\ isdir os (world (snd r)) "/tmp/tmpx" = true
  /\ fst r' = Ret tt
  /\ dirs_removed (log (snd r')) = ["/tmp/tmpx"]
  /\ isdir os (world (snd r')) "/tmp/tmpx" = false.
Proof. repeat split; reflexivity. Qed.

(** X15. With [--no_open], and when exporting to Premiere, the code after
    the loop never tries to open anything: no [os.startfile] and no
    subprocess. *)
Theorem viewer_not_started_when_suppressed :
  forall (os : OS) (g : Globals) (args : Args) (startTime : float)
         (TEMP : option string) (st : St os) res st',
    no_open args = true \/ export_to_premiere args = true ->
    finish os g args startTime TEMP st = (res, st') ->
    exists l, log st' = (log st ++ l)%list /\ Forall no_viewer l.
Proof.
  intros os g args t TEMP st res st' Hflag H.
  assert (Hs : sat no_viewer any_status anything (finish os g args t TEMP)).
  { unfold finish, is_file.
    apply sat_bind with (R := anything); [apply sat_print; exact I|].
    intros _ _.
    apply sat_bind with (R := anything);
      [apply sat_observe; intros; exact I|].
    intros endTime _.
    apply sat_bind with (R := anything); [apply sat_emit; exact I|].
    intros _ _.
    apply sat_bind with (R := anything);
      [apply sat_lookup; intros; exact I|].
    intros outFile _.
    apply sat_bind with (R := anything);
      [apply sat_observe; intros; exact I|].
    intros there _.
    apply sat_bind with (R := anything).
    { apply sat_when; [|exact I].
      apply sat_bind with (R := anything); [apply sat_print; exact I|].
      intros _ _. apply sat_sys_exit; exact I. }
    intros _ _.
    apply sat_bind with (R := anything).
    { replace (negb (no_open args) && negb (export_to_premiere args))%bool
        with false
        by (destruct Hflag as [-> | ->]; [reflexivity|];
            destruct (no_open args); reflexivity).
      apply sat_ret; exact I. }
    intros _ _. destruct TEMP as [d|];
      [apply sat_outside; [exact I | intros; exact I] | apply sat_ret; exact I]. }
  destruct (Hs _ _ _ H) as [Hl _]. exact Hl.
Qed.

Lemma viewer_not_started_when_suppressed_witness :
  let os := Sample.machine (fun _ => Sample.steady) true in
  let disk := Sample.mkDisk ["out.mp4"; "clip.mp4"] [] 0 in
  let names := Sample.bound_names "out.mp4" ".mp4" in
  let args := mkArgs ["clip.mp4"] 4 0.04%float 1%float 99999%float (Some [])
                true 1.01%float false None 48000 "160k" None (-8)%float None 0
                false false false false false false false false in
  let st := @mkSt os disk [] in
  exists l,
    log (snd (finish os names args 0%float None st)) = (log st ++ l)%list
    /\ Forall no_viewer l.
Proof.
  intros os disk names args st.
  exact (viewer_not_started_when_suppressed os names args 0%float None st
           _ _ (or_introl eq_refl) (surjective_pairing _)).
Defined.

(** ** Opening the result *)

(** X16. Where [os] has no [startfile], opening the result cannot fail
    the run: whatever the two subprocess calls do, lines 278-287 return. *)
Theorem open_output_returns_without_startfile :
  forall (os : OS) (outFile : string) (st : St os),
    has_startfile os = false ->
    exists st', open_output os outFile st = (Ret tt, st').
Proof.
  intros os outFile st Hs.
  unfold open_output, try_except. rewrite Hs. unfold raise.
  cbn [is_AttributeError].
  unfold try_except_all, subprocess_call, bind, outside, ret, print, emit.
  destruct (call os ["open"; outFile] (world st)) as [[z|e] w];
    cbn [res_of_try world log]; [eexists; reflexivity|].
  destruct (call os ["cmd.exe"; "/C"; "start"; outFile] w) as [[z|e'] w'];
    cbn [res_of_try world log]; eexists; reflexivity.
Qed.

Lemma open_output_returns_without_startfile_witness :
  let os := Sample.machine (fun _ => Sample.steady) true in
  exists st',
    open_output os "out.mp4" (@mkSt os (Sample.mkDisk ["out.mp4"] [] 0) [])
    = (Ret tt, st').
Proof.
  intros os.
  exact (open_output_returns_without_startfile os "out.mp4"
           (@mkSt os (Sample.mkDisk ["out.mp4"] [] 0) []) eq_refl).
Defined.

(** X17. Where [os] has [startfile], an exception of [os.startfile] other
    than [AttributeError] is not caught by line 280: it ends the run,
    and neither of the two fallbacks is tried. *)
Theorem open_output_passes_startfile_error :
  forall (os : OS) (outFile : string) (st : St os) (e : exn) (w' : World os),
    has_startfile os = true ->
    startfile os outFile (world st) = (Fails e, w') ->
    is_AttributeError e = false ->
    open_output os outFile st
    = (Raise e, mkSt w' (log st ++ [EStartfile outFile])).
Proof.
  intros os outFile st e w' Hs Hf He.
  unfold open_output, try_except. rewrite Hs. unfold outside.
  rewrite Hf. cbn [res_of_try]. rewrite He. reflexivity.
Qed.

Lemma open_output_passes_startfile_error_witness :
  let os := with_failing_startfile (Sample.machine (fun _ => Sample.steady) true) in
  let disk := Sample.mkDisk ["out.mp4"] [] 0 in
  open_output os "out.mp4" (@mkSt os disk [])
  = (Raise (OtherError "OSError"),
     @mkSt os disk ([] ++ [EStartfile "out.mp4"])).
Proof.
  intros os disk.
  exact (open_output_passes_startfile_error os "out.mp4" (@mkSt os disk [])
           (OtherError "OSError") disk eq_refl eq_refl eq_refl).
Defined.

(** ** Before the batch *)

(** X18. With [--version] the run prints the version and ends with
    status 0 before anything else: no input is looked at, not even a
    missing one, and the cache is not cleared. *)
Theorem version_flag_ends_the_run :
  forall (os : OS) (g : Globals) (args : Args) (w : World os),
    version_flag args = true ->
    run os g args w
    = (Exit 0, mkSt w [EPrint ("Auto-Editor version: " ++ version)]).
Proof.
  intros os g args w Hv. unfold run, main, startup.
  unfold bind at 1. unfold bind at 1. rewrite Hv. reflexivity.
Qed.

Lemma version_flag_ends_the_run_witness :
  let os := Sample.machine (fun _ => Sample.steady) true in
  let disk := Sample.mkDisk [] [] 0 in
  let args := mkArgs ["missing.mp4"] 4 0.04%float 1%float 99999%float None
                false 1.01%float false None 48000 "160k" None (-8)%float None 0
                false false true false true false false false in
  run os shipped args disk
  = (Exit 0, @mkSt os disk [EPrint ("Auto-Editor version: " ++ version)]).
Proof.
  intros os disk args.
  exact (version_flag_ends_the_run os shipped args disk eq_refl).
Defined.

(** X19. The choice of ffmpeg never fails and changes nothing outside;
    it answers the plain command [ffmpeg], or else a path that is a file
    on this machine, and with [--my_ffmpeg] always the plain command. *)
Theorem ffmpeg_choice_is_safe :
  forall (os : OS) (args : Args) (st : St os),
    exists p,
      choose_ffmpeg os args st = (Ret p, st)
      /\ (p = "ffmpeg"
          \/ (my_ffmpeg args = false /\ isfile os (world st) p = true)).
Proof. intros os args st. apply choose_ffmpeg_result. Qed.

(** X20. With no input reference and none of [--version], [--clear_cache]
    and [--debug], the run prints the two lines of lines 142-143 and ends
    with status 1; it changes nothing outside. *)
Theorem no_input_is_an_error :
  forall (os : OS) (g : Globals) (args : Args) (w : World os),
    input args = [] ->
    version_flag args = false ->
    clear_cache args = false ->
    debug args = false ->
    run os g args w
    = (Exit 1,
       mkSt w [EPrint "Error! The following arguments are required: input";
               EPrint "In other words, you need the path to a video or an audio file so that auto-editor can do the work for you."]).
Proof.
  intros os g args w Hin Hv Hc Hd. unfold run, main, startup.
  unfold bind at 1. unfold bind at 1. rewrite Hv. cbn [when].
  unfold ret at 1. unfold bind at 1. rewrite Hc. cbn [when]. unfold ret at 1.
  unfold bind at 1.
  destruct (choose_ffmpeg_result os args (mkSt w [])) as (p & -> & _).
  unfold bind at 1, debug_report. rewrite Hd. cbn [when]. unfold ret at 1.
  rewrite Hin. reflexivity.
Qed.

Lemma no_input_is_an_error_witness :
  let os := Sample.machine (fun _ => Sample.steady) true in
  let disk := Sample.mkDisk [] [] 0 in
  run os shipped (default_args []) disk
  = (Exit 1,
     @mkSt os disk
       [EPrint "Error! The following arguments are required: input";
        EPrint "In other words, you need the path to a video or an audio file so that auto-editor can do the work for you."]).
Proof.
  intros os disk.
  exact (no_input_is_an_error os shipped (default_args []) disk
           eq_refl eq_refl eq_refl eq_refl).
Defined.

(** ** The argument converters *)

(** X21. [file_type] answers the name it was given when that name is an
    existing file, and otherwise prints one line and leaves with status 1;
    it never raises and never changes the outside state, so a name it
    answers is a file at that moment. *)
Theorem file_type_answers_existing_files :
  forall (os : OS) (file : string) (st : St os),
    (isfile os (world st) file = true ->
     file_type os file st = (Ret file, st))
    /\ (isfile os (world st) file = false ->
        file_type os file st
        = (Exit 1,
           mkSt (world st)
                (log st ++ [EPrint ("Error! Could not locate file: " ++ file)]))).
Proof.
  intros os file st.
  split; intros H; unfold file_type, bind, is_file, observe; rewrite H;
    reflexivity.
Qed.

Lemma file_type_answers_existing_files_witness :
  let os := Sample.machine (fun _ => Sample.steady) true in
  let disk := Sample.mkDisk ["music.mp3"] [] 0 in
  file_type os "music.mp3" (@mkSt os disk []) = (Ret "music.mp3", @mkSt os disk [])
  /\ file_type os "none.mp3" (@mkSt os disk [])
     = (Exit 1,
        @mkSt os disk
          ([] ++ [EPrint ("Error! Could not locate file: " ++ "none.mp3")])).
Proof.
  intros os disk. split.
  - exact (proj1 (file_type_answers_existing_files os "music.mp3"
                    (@mkSt os disk [])) eq_refl).
  - exact (proj2 (file_type_answers_existing_files os "none.mp3"
                    (@mkSt os disk [])) eq_refl).
Defined.

Section SuffixFacts.

Lemma length_append (s t : string) :
  String.length (s ++ t) = (String.length s + String.length t)%nat.
Proof. induction s as [|a s IH]; cbn; [|rewrite IH]; reflexivity. Qed.

Lemma endswith_append s suffix : endswith suffix (s ++ suffix) = true.
Proof.
  unfold endswith. rewrite length_append.
  replace (String.length s + String.length suffix - String.length suffix)%nat
    with (String.length s) by lia.
  rewrite drop_app, String.eqb_refl.
  replace (Nat.leb _ _) with true; [reflexivity|].
  symmetry. apply Nat.leb_le. lia.
Qed.

Lemma drop_past s t k :
  PyStr.drop (String.length s + k) (s ++ t) = PyStr.drop k t.
Proof. induction s as [|a s IH]; cbn; [reflexivity | exact IH]. Qed.

(** Cutting a suffix of [k] characters off with the slice [[:-k]]. *)
Lemma slice_off_suffix s suffix :
  suffix <> EmptyString ->
  PyStr.slice_to (s ++ suffix) (- PyStr.len suffix) = s.
Proof.
  intros Hne. unfold PyStr.slice_to, PyStr.bound.
  assert (0 < PyStr.len suffix).
  { destruct suffix; [destruct (Hne eq_refl)|].
    rewrite len_String. pose proof (len_nonneg suffix). lia. }
  pose proof (len_nonneg s).
  destruct (- PyStr.len suffix <? 0) eqn:E; [|apply Z.ltb_ge in E; lia].
  rewrite len_app, Z.max_r by (rewrite ?len_app; lia).
  replace (- PyStr.len suffix + (PyStr.len s + PyStr.len suffix))
    with (PyStr.len s) by lia.
  unfold PyStr.len. rewrite Nat2Z.id. apply take_app.
Qed.

Lemma all_chars_drop p n s :
  all_chars p s = true -> all_chars p (PyStr.drop n s) = true.
Proof.
  revert s. induction n as [|n IH]; intros [|a s] H; cbn; auto.
  cbn [all_chars] in H. apply andb_true_iff in H. apply IH, H.
Qed.

(** A string of digits ends in none of the two suffixes. *)
Lemma digits_have_no_suffix suffix ds :
  all_chars PyRe.is_digit suffix = false ->
  all_chars PyRe.is_digit ds = true ->
  endswith suffix ds = false.
Proof.
  intros Hs Hd. unfold endswith.
  destruct (String.eqb _ suffix) eqn:E; [|apply andb_false_r].
  apply String.eqb_eq in E.
  pose proof (all_chars_drop PyRe.is_digit
                (String.length ds - String.length suffix) ds Hd) as H.
  rewrite E in H. congruence.
Qed.

(** No digit is white space to [int]. *)
Lemma digit_is_no_int_space c :
  PyRe.is_digit c = true -> PyInt.is_space c = false.
Proof.
  unfold PyRe.is_digit, PyInt.is_space, PyRe.between. intros H.
  apply andb_true_iff in H. destruct H as [H1 H2].
  apply N.leb_le in H1, H2.
  repeat (apply orb_false_iff; split);
    [apply andb_false_iff; right; apply N.leb_gt; lia
    | apply N.eqb_neq; lia ..].
Qed.

Lemma lstrip_digits ds :
  all_chars PyRe.is_digit ds = true -> PyInt.lstrip ds = ds.
Proof.
  destruct ds as [|c ds]; [reflexivity|]. cbn [all_chars PyInt.lstrip].
  intros H. apply andb_true_iff in H. destruct H as [Hc _].
  rewrite (digit_is_no_int_space c Hc). reflexivity.
Qed.

Lemma rstrip_digits ds :
  all_chars PyRe.is_digit ds = true -> PyInt.rstrip ds = ds.
Proof.
  induction ds as [|c ds IH]; [reflexivity|]. cbn [all_chars PyInt.rstrip].
  intros H. apply andb_true_iff in H. destruct H as [Hc Hd].
  rewrite (IH Hd). destruct ds; [|reflexivity].
  rewrite (digit_is_no_int_space c Hc). reflexivity.
Qed.

(** The white space of [int] is not that of [str.strip]: a separator
    U+001C in front of a numeral makes [int] raise, a no-break space
    does not; one underscore between two digits is skipped. *)
Lemma parse_examples :
  PyInt.parse (String (ascii_of_N 28) "12") = None
  /\ PyInt.parse ("12" ++ String (ascii_of_N 31) EmptyString) = None
  /\ PyInt.parse (String (ascii_of_N 160) "12") = Some 12
  /\ PyInt.parse (String (ascii_of_N 9) "12 ") = Some 12
  /\ PyInt.parse "1_000" = Some 1000
  /\ PyInt.parse "1__0" = None
  /\ PyInt.parse "-7" = Some (-7)
  /\ PyInt.parse "- 7" = None
  /\ PyInt.parse "007" = Some 7
  /\ PyInt.parse EmptyString = None.
Proof. repeat split; reflexivity. Qed.

Lemma digit_value_range c :
  PyRe.is_digit c = true -> 0 <= PyInt.digit_value c <= 9.
Proof.
  unfold PyRe.is_digit, PyRe.between, PyInt.digit_value. intros H.
  apply andb_true_iff in H. destruct H as [H1 H2].
  apply N.leb_le in H1, H2. lia.
Qed.

Lemma digits_of_digits ds :
  all_chars PyRe.is_digit ds = true ->
  forall acc, 0 <= acc ->
    exists v, PyInt.digits acc ds = Some v /\ acc <= v.
Proof.
  induction ds as [|c ds IH]; intros H acc Hacc; cbn [PyInt.digits].
  - exists acc. split; [reflexivity | lia].
  - cbn [all_chars] in H. apply andb_true_iff in H. destruct H as [Hc Hd].
    rewrite Hc. pose proof (digit_value_range c Hc).
    destruct (IH Hd (10 * acc + PyInt.digit_value c)) as (v & Hv & Hle);
      [lia|].
    exists v. split; [exact Hv | lia].
Qed.

(** [int] accepts every string of digits that is not empty. *)
Lemma parse_digits ds :
  ds <> EmptyString -> all_chars PyRe.is_digit ds = true ->
  exists v, PyInt.parse ds = Some v /\ 0 <= v.
Proof.
  intros Hne Hd. unfold PyInt.parse, PyInt.strip.
  rewrite (lstrip_digits ds Hd), (rstrip_digits ds Hd).
  destruct ds as [|c ds]; [destruct (Hne eq_refl)|].
  cbn [all_chars] in Hd. apply andb_true_iff in Hd. destruct Hd as [Hc Hd].
  pose proof (digit_value_range c Hc).
  destruct (digits_of_digits ds Hd (PyInt.digit_value c)) as (v & Hv & Hle);
    [lia|].
  assert (Hu : PyInt.unsigned (String c ds) = Some v)
    by (cbn [PyInt.unsigned]; rewrite Hc; exact Hv).
  exists v. split; [|lia].
  destruct (Ascii.eqb c "-") eqn:Em.
  { apply Ascii.eqb_eq in Em. subst c. discriminate. }
  destruct (Ascii.eqb c "+") eqn:Ep.
  { apply Ascii.eqb_eq in Ep. subst c. discriminate. }
  destruct c as [[] [] [] [] [] [] [] []]; try discriminate; exact Hu.
Qed.

End SuffixFacts.

(** X22. [sample_rate_type] reads a string that ends in [ Hz] as the
    integer in front of the suffix, and one that ends in [ kHz] as a
    thousand times the float in front of it: a [ kHz] string is never
    taken for a [ Hz] string.  For a plain number the [ Hz] suffix makes
    no difference: both ways it is read as the same integer, which is not
    negative. *)
Theorem sample_rate_suffixes :
  forall (float_of_str : string -> Try float) (int_of_float : float -> Try Z),
    (forall s : string,
        sample_rate_type float_of_str int_of_float (s ++ " Hz")
        = try_of_option ValueError (PyInt.parse s))
    /\ (forall s : string,
           sample_rate_type float_of_str int_of_float (s ++ " kHz")
           = try_bind (float_of_str s)
                      (fun x => int_of_float (PrimFloat.mul x 1000)))
    /\ (forall ds : string,
           ds <> EmptyString -> all_chars PyRe.is_digit ds = true ->
           exists v,
             0 <= v
             /\ sample_rate_type float_of_str int_of_float ds = Done v
             /\ sample_rate_type float_of_str int_of_float (ds ++ " Hz")
                = Done v).
Proof.
  intros fs fi.
  assert (HHz : forall s,
             sample_rate_type fs fi (s ++ " Hz")
             = try_of_option ValueError (PyInt.parse s)).
  { intros s. unfold sample_rate_type. rewrite endswith_append.
    pose proof (slice_off_suffix s " Hz") as Hcut.
    change (- PyStr.len " Hz") with (-3) in Hcut.
    rewrite Hcut by discriminate. reflexivity. }
  split; [exact HHz|]. split.
  - intros s. unfold sample_rate_type.
    assert (Hno : endswith " Hz" (s ++ " kHz") = false).
    { unfold endswith. rewrite length_append.
      replace (String.length s + String.length " kHz" - String.length " Hz")%nat
        with (String.length s + 1)%nat by (cbn; lia).
      rewrite drop_past. apply andb_false_r. }
    rewrite Hno, endswith_append.
    pose proof (slice_off_suffix s " kHz") as Hcut.
    change (- PyStr.len " kHz") with (-4) in Hcut.
    rewrite Hcut by discriminate. reflexivity.
  - intros ds Hne Hd.
    destruct (parse_digits ds Hne Hd) as (v & Hv & Hpos).
    exists v. split; [exact Hpos|]. split.
    + unfold sample_rate_type.
      rewrite (digits_have_no_suffix " Hz" ds eq_refl Hd).
      rewrite (digits_have_no_suffix " kHz" ds eq_refl Hd).
      rewrite Hv. reflexivity.
    + rewrite HHz, Hv. reflexivity.
Qed.

Lemma sample_rate_suffixes_witness :
  let float_of_str := fun _ : string => @Fails float ValueError in
  let int_of_float := fun _ : float => @Fails Z ValueError in
  exists v,
    0 <= v
    /\ sample_rate_type float_of_str int_of_float "44100" = Done v
    /\ sample_rate_type float_of_str int_of_float ("44100" ++ " Hz") = Done v.
Proof.
  intros fs fi.
  apply (proj2 (proj2 (sample_rate_suffixes fs fi)) "44100");
    [discriminate | reflexivity].
Defined.

(** X23. [float_type] reads a string that ends in a percent sign as the
    float in front of the sign divided by 100, and hands on the exception
    when that is no float. *)
Theorem float_type_percent :
  forall (float_of_str : string -> Try float) (s : string),
    float_type float_of_str (s ++ "%")
    = try_bind (float_of_str s) (fun x => Done (PrimFloat.div x 100)).
Proof.
  intros fs s. unfold float_type. rewrite endswith_append.
  pose proof (slice_off_suffix s "%") as Hcut.
  change (- PyStr.len "%") with (-1) in Hcut.
  rewrite Hcut by discriminate. reflexivity.
Qed.

(** ** The repair, with and without [--debug] *)

(** X11. When the probe text has no match and [extension] is bound, lines
    233-244 print the warning, make one temporary directory, start one
    re-encode to 30 frames per second into it, and hand on that directory
    as [TEMP] and the copy inside it as [INPUT_FILE]; the exit status of
    the re-encode is not looked at.  Without [--debug] the re-encode is
    told to be silent. *)
Theorem no_match_is_repaired :
  forall (os : OS) (g : Globals) (ffmpeg f : string) (args : Args)
         (TEMP : option string) (st : St os) (text : string)
         (w1 : World os) (d : string) (w2 : World os) (status : Z)
         (w3 : World os) (extension : string),
    let cmd := ([ffmpeg; "-i"; f; "-filter:v"; "fps=fps=30";
                 (d ++ "/constantVid" ++ extension)%string; "-hide_banner"]
                ++ (if debug args then []
                    else ["-nostats"; "-loglevel"; "0"]))%list in
    g_extension g = Some extension ->
    popen_output os [ffmpeg; "-i"; f] (world st) = (Done text, w1) ->
    PyRe.search_tbr text = None ->
    mkdtemp os w1 = (Done d, w2) ->
    call os cmd w2 = (Done status, w3) ->
    try_except (probe os ffmpeg f args ;; ret (TEMP, f)) is_AttributeError
               (repair os g ffmpeg f args) st
    = (Ret (Some d, d ++ "/constantVid" ++ extension),
       mkSt w3
         (log st
          ++ (EPopen [ffmpeg; "-i"; f]
              :: (if debug args
                  then [EPrint "FFmpeg test:"; EPrint text; EPrint nl]
                  else []))
          ++ [EPrint "Warning! frame rate detection failed.";
              EPrint "If your video has a variable frame rate, ignore this message.";
              EMkdtemp d;
              ECall cmd])).
Proof.
  intros os g ffmpeg f args TEMP st text w1 d w2 status w3 extension cmd
         Hext Hp Hs Hm Hc.
  subst cmd.
  unfold try_except, bind at 1, probe, bind at 1, outside.
  rewrite Hp. cbn [res_of_try].
  destruct (debug args) eqn:Hdbg; cbn [when].
  - unfold bind at 1. unfold bind at 1, print at 1, emit at 1.
    unfold bind at 1, print at 1, emit at 1. unfold print at 1, emit at 1.
    cbn [world log]. rewrite Hs. unfold raise.
    cbn [is_AttributeError].
    unfold repair, bind, print, emit, make_temp. cbn [world log].
    rewrite Hm, Hext. cbn [lookup]. unfold ret at 1.
    rewrite Hdbg. cbn [negb].
    unfold subprocess_call, bind, outside. cbn [world log].
    rewrite app_nil_r in Hc. rewrite Hc. cbn [res_of_try]. unfold ret.
    rewrite app_nil_r, <- !app_assoc. reflexivity.
  - unfold bind at 1, ret at 1. rewrite Hs. unfold raise.
    cbn [is_AttributeError].
    unfold repair, bind, print, emit, make_temp. cbn [world log].
    rewrite Hm, Hext. cbn [lookup]. unfold ret at 1.
    rewrite Hdbg. cbn [negb].
    unfold subprocess_call, bind, outside. cbn [world log].
    cbn [app] in Hc. cbn [app]. rewrite Hc. cbn [res_of_try]. unfold ret.
    rewrite <- !app_assoc. reflexivity.
Qed.

Lemma no_match_is_repaired_witness :
  let os := Sample.machine (fun _ => Sample.variable) true in
  let disk := Sample.mkDisk ["clip.mp4"] [] 0 in
  let disk' := Sample.mkDisk ["clip.mp4"] [("/tmp/tmpx", [])] 1 in
  let args := default_args ["clip.mp4"] in
  let cmd := (["ffmpeg"; "-i"; "clip.mp4"; "-filter:v"; "fps=fps=30";
               ("/tmp/tmpx" ++ "/constantVid" ++ ".mp4")%string; "-hide_banner"]
              ++ (if debug args then []
                  else ["-nostats"; "-loglevel"; "0"]))%list in
  try_except (probe os "ffmpeg" "clip.mp4" args ;; ret (None, "clip.mp4"))
             is_AttributeError
             (repair os (Sample.bound_names "out.mp4" ".mp4") "ffmpeg"
                     "clip.mp4" args) (@mkSt os disk [])
  = (Ret (Some "/tmp/tmpx", "/tmp/tmpx" ++ "/constantVid" ++ ".mp4"),
     @mkSt os disk'
       ([] ++ (EPopen ["ffmpeg"; "-i"; "clip.mp4"]
               :: (if debug args
                   then [EPrint "FFmpeg test:"; EPrint Sample.variable; EPrint nl]
                   else []))
           ++ [EPrint "Warning! frame rate detection failed.";
               EPrint "If your video has a variable frame rate, ignore this message.";
               EMkdtemp "/tmp/tmpx";
               ECall cmd])).
Proof.
  intros os disk disk' args cmd.
  exact (no_match_is_repaired os (Sample.bound_names "out.mp4" ".mp4")
           "ffmpeg" "clip.mp4" args None (@mkSt os disk []) Sample.variable
           disk "/tmp/tmpx" disk' 0 disk' ".mp4"
           eq_refl eq_refl eq_refl eq_refl eq_refl).
Defined.

(** ** URLs *)

(** X24. A reference that is no directory and no file and starts with
    [http://] or [https://] is handed to youtube-dl, and the name made
    from it, with [.mp4] at its end, is appended to the resolved sequence
    whatever exit status youtube-dl answers: a download that failed is
    not noticed here.  The packaged ffmpeg is named to youtube-dl exactly
    when it is in use. *)
Theorem url_is_appended_whatever_the_download_does :
  forall (os : OS) (g : Globals) (ffmpeg url : string)
         (inputList : list string) (st : St os) (status : Z) (w' : World os),
    let basename := PyRe.sub_nonword false url in
    let cmd := (["youtube-dl"; "-f";
                 "bestvideo[ext=mp4]+bestaudio[ext=m4a]/mp4";
                 url; "--output"; basename; "--no-check-certificate"]
                ++ (if String.eqb ffmpeg "ffmpeg" then []
                    else ["--ffmpeg-location"; ffmpeg]))%list in
    isdir os (world st) url = false ->
    isfile os (world st) url = false ->
    is_url url = true ->
    call os cmd (world st) = (Done status, w') ->
    resolve_one os g ffmpeg url inputList st
    = (Ret (inputList ++ [(basename ++ ".mp4")%string])%list,
       mkSt w'
         (log st
          ++ [EPrint "URL detected, using youtube-dl to download from webpage.";
              ECall cmd])).
Proof.
  intros os g ffmpeg url inputList st status w' basename cmd Hd Hf Hu Hc.
  subst basename cmd.
  unfold resolve_one, is_dir, is_file, observe, bind at 1.
  rewrite Hd. unfold bind at 1. rewrite Hf.
  unfold is_url in Hu. rewrite Hu.
  unfold bind at 1, print, emit.
  unfold bind at 1, subprocess_call, bind, outside. cbn [world log].
  destruct (String.eqb ffmpeg "ffmpeg"); cbn [negb];
    [rewrite app_nil_r in Hc|]; rewrite Hc; cbn [res_of_try]; unfold ret;
    rewrite <- ?app_assoc; rewrite ?app_nil_r; reflexivity.
Qed.

Lemma url_is_appended_whatever_the_download_does_witness :
  let os := Sample.machine (fun _ => Sample.steady) true in
  let disk := Sample.mkDisk [] [] 0 in
  let url := "https://example.org/v?id=7" in
  let basename := PyRe.sub_nonword false url in
  let cmd := (["youtube-dl"; "-f";
               "bestvideo[ext=mp4]+bestaudio[ext=m4a]/mp4";
               url; "--output"; basename; "--no-check-certificate"]
              ++ (if String.eqb "ffmpeg" "ffmpeg" then []
                  else ["--ffmpeg-location"; "ffmpeg"]))%list in
  resolve_one os shipped "ffmpeg" url ["a.mp4"] (@mkSt os disk [])
  = (Ret (["a.mp4"] ++ [(basename ++ ".mp4")%string])%list,
     @mkSt os disk
       ([] ++ [EPrint "URL detected, using youtube-dl to download from webpage.";
               ECall cmd])).
Proof.
  intros os disk url basename cmd.
  exact (url_is_appended_whatever_the_download_does os shipped "ffmpeg" url
           ["a.mp4"] (@mkSt os disk []) 0 disk
           eq_refl eq_refl eq_refl eq_refl).
Defined.

(** ** [--preview] *)

(** X25. With [--preview] no run returns and no strategy is ever called,
    and a preview that is called is given the first reference of the
    command line.  When the code before line 194 returns (the start, the
    resolver, the naming pass and the concatenation), the preview is
    called: with the ffmpeg that was chosen, with [args.input[0]] as it
    was typed and not as it was resolved, with the speeds after the
    clamping of lines 146-149 and the other options as they were given;
    the run then ends with status 0 when the preview returns, and as the
    preview ends when it does not. *)
Theorem preview_replaces_processing :
  forall (os : OS) (g : Globals) (args : Args) (w : World os) res st',
    preview_flag args = true ->
    run os g args w = (res, st') ->
    res <> Ret tt
    /\ Forall (previews (hd_error (input args))) (log st')
    /\ (forall (ffmpeg : string) (st0 : St os) (f : string)
               (rest inputList : list string) (st1 : St os) (args1 : Args)
               (st2 : St os) (inputList' : list string) (st3 : St os),
           startup os args (mkSt w []) = (Ret ffmpeg, st0) ->
           input args = f :: rest ->
           resolve os g ffmpeg (f :: rest) st0 = (Ret inputList, st1) ->
           name_outputs os (clamp_speeds args) inputList st1
           = (Ret args1, st2) ->
           combine os ffmpeg args1 inputList st2 = (Ret inputList', st3) ->
           let c := mkPreview ffmpeg f (silent_threshold args)
                      (zoom_threshold args) (frame_margin args)
                      (sample_rate args) (clamp_speed (video_speed args))
                      (clamp_speed (silent_speed args))
                      (cut_by_this_track args) (audio_bitrate args)
                      (cache os) in
           res = match fst (preview os c (world st3)) with
                 | Ret _ => Exit 0
                 | Exit status => Exit status
                 | Raise e => Raise e
                 end
           /\ st' = mkSt (snd (preview os c (world st3)))
                         (log st3 ++ [EPreview c])).
Proof.
  intros os g args w res st' Hp Hrun.
  assert (Hflag : forall outs,
             preview_flag (set_output_file outs (clamp_speeds args)) = true).
  { intros outs. unfold clamp_speeds.
    destruct (speed_out_of_range (silent_speed args));
      match goal with
      | |- context [if ?b then _ else _] => destruct b
      end; exact Hp. }
  assert (Hsafe : res <> Ret tt
                  /\ Forall (previews (hd_error (input args))) (log st')).
  { set (E := previews (hd_error (input args))).
    assert (HE : forall ev, background ev -> E ev)
      by (intros []; cbn; auto; intros []).
    assert (Hsat : sat E any_status (fun _ : unit => False) (main os g args)).
    { unfold main.
      apply sat_bind with (R := anything).
      { apply sat_events with (E := early_event (cache os));
          [intros ev Hev; apply HE; exact (early_is_background _ _ Hev)|].
        apply startup_early. }
      intros ffmpeg _. cbv zeta.
      destruct (input (clamp_speeds args)) as [|f rest] eqn:Hin;
        [apply sat_raise|].
      rewrite input_clamp_speeds in Hin.
      unfold run_batch.
      apply sat_bind with (R := anything).
      { apply sat_events with (E := early_event (cache os));
          [intros ev Hev; apply HE; exact (early_is_background _ _ Hev)|].
        eapply sat_exits; [|apply resolve_early]. intros; exact I. }
      intros inputList _.
      apply sat_bind with (R := fun args' =>
                                  exists outs,
                                    args' = set_output_file outs (clamp_speeds args));
        [apply name_outputs_keeps|].
      intros args' [outs ->].
      apply sat_bind with (R := anything).
      { eapply sat_events; [exact HE|]. apply combine_background. }
      intros inputList' _.
      apply sat_bind with (R := fun _ => False); [|intros a []].
      unfold run_preview.
      rewrite Hflag.
      cbn [when].
      apply sat_bind with (R := anything).
      - apply sat_module_call; [|intros; exact I|intros; exact I].
        unfold E. cbn. rewrite Hin. reflexivity.
      - intros _ _. apply sat_sys_exit; exact I. }
    destruct (Hsat _ _ _ Hrun) as [(l & Hl & Hf) Hres].
    split.
    - intros ->. exact Hres.
    - rewrite Hl. exact Hf. }
  split; [exact (proj1 Hsafe)|]. split; [exact (proj2 Hsafe)|].
  intros ffmpeg st0 f rest inputList st1 args1 st2 inputList' st3
         Hs Hin Hr Hn Hc c.
  destruct (name_outputs_keeps os background any_status _ _ _ _ _ Hn)
    as [_ [outs ->]].
  assert (Hcall : mkPreview ffmpeg f
                    (silent_threshold (set_output_file outs (clamp_speeds args)))
                    (zoom_threshold (set_output_file outs (clamp_speeds args)))
                    (frame_margin (set_output_file outs (clamp_speeds args)))
                    (sample_rate (set_output_file outs (clamp_speeds args)))
                    (video_speed (set_output_file outs (clamp_speeds args)))
                    (silent_speed (set_output_file outs (clamp_speeds args)))
                    (cut_by_this_track (set_output_file outs (clamp_speeds args)))
                    (audio_bitrate (set_output_file outs (clamp_speeds args)))
                    (cache os) = c).
  { unfold c. cbn [set_output_file silent_threshold zoom_threshold
                   frame_margin sample_rate video_speed silent_speed
                   cut_by_this_track audio_bitrate].
    rewrite clamp_speeds_video, clamp_speeds_silent.
    unfold clamp_speeds.
    destruct (speed_out_of_range (silent_speed args));
      match goal with
      | |- context [if ?b then _ else _] => destruct b
      end; reflexivity. }
  unfold run, main in Hrun. unfold bind at 1 in Hrun.
  rewrite Hs in Hrun. cbv zeta in Hrun.
  rewrite input_clamp_speeds, Hin in Hrun. unfold run_batch in Hrun.
  unfold bind at 1 in Hrun. rewrite input_clamp_speeds, Hin, Hr in Hrun.
  unfold bind at 1 in Hrun. rewrite Hn in Hrun.
  unfold bind at 1 in Hrun. rewrite Hc in Hrun.
  unfold bind at 1, run_preview in Hrun.
  rewrite Hflag, Hcall in Hrun. cbn [when] in Hrun.
  unfold bind at 1, module_call in Hrun.
  destruct (preview os c (world st3)) as [[[]|status|e] w'];
    cbn [fst snd]; unfold sys_exit in Hrun;
    injection Hrun as <- <-; split; reflexivity.
Qed.

Lemma preview_replaces_processing_witness :
  let os := Sample.machine (fun _ => Sample.steady) true in
  let disk := Sample.mkDisk ["clip.mp4"] [] 0 in
  let args := mkArgs ["clip.mp4"] 4 0.04%float (-1)%float 99999%float (Some [])
                false 1.01%float false None 48000 "160k" None (-8)%float None 0
                false false false false false false true false in
  let r := run os shipped args disk in
  let c := mkPreview "ffmpeg" "clip.mp4" 0.04%float 1.01%float 4 48000
                     (clamp_speed (-1)%float) (clamp_speed 99999%float)
                     0 "160k" (cache os) in
  fst r <> Ret tt
  /\ Forall (previews (hd_error (input args))) (log (snd r))
  /\ fst r = Exit 0
  /\ snd r = @mkSt os disk [EPreview c].
Proof.
  intros os disk args r c.
  pose proof (preview_replaces_processing os shipped args disk (fst r) (snd r)
                eq_refl (surjective_pairing r)) as H.
  split; [exact (proj1 H)|]. split; [exact (proj1 (proj2 H))|].
  exact (proj2 (proj2 H) "ffmpeg" (@mkSt os disk []) "clip.mp4" []
           ["clip.mp4"] (@mkSt os disk [])
           (set_output_file (Some ["clip_ALTERED.mp4"]) (clamp_speeds args))
           (@mkSt os disk []) ["clip.mp4"] (@mkSt os disk [])
           eq_refl eq_refl eq_refl eq_refl eq_refl).
Defined.

(** ** [--combine_files] *)

Section CombineFacts.

Context (os : OS) (g : Globals).

Lemma combine_result ffmpeg args inputList :
  combine_files args = true ->
  sat background any_status (fun l => l = ["combined.mp4"])
      (combine os ffmpeg args inputList).
Proof.
  intros Hc. unfold combine. rewrite Hc.
  apply sat_bind with (R := anything);
    [apply sat_outside; [exact I | intros; exact I]|].
  intros _ _.
  apply sat_bind with (R := anything);
    [apply sat_subprocess_call; exact I|].
  intros _ _.
  apply sat_bind with (R := anything);
    [apply sat_outside; [exact I | intros; exact I]|].
  intros _ _. apply sat_ret. reflexivity.
Qed.

Lemma run_preview_quiet ffmpeg f cachedir args :
  sat quiet any_status anything (run_preview os ffmpeg f cachedir args).
Proof.
  unfold run_preview. apply sat_when; [|exact I].
  apply sat_bind with (R := anything).
  - apply sat_module_call; [exact I | intros; exact I | intros; exact I].
  - intros _ _. apply sat_sys_exit; exact I.
Qed.

Lemma select_strategy_of_batch_args args outs audio :
  select_strategy (set_output_file outs (clamp_speeds args)) audio
  = select_strategy args audio.
Proof.
  unfold clamp_speeds.
  destruct (speed_out_of_range (silent_speed args));
    match goal with
    | |- context [if ?b then _ else _] => destruct b
    end; reflexivity.
Qed.

Lemma combine_files_of_batch_args args outs :
  combine_files (set_output_file outs (clamp_speeds args))
  = combine_files args.
Proof.
  unfold clamp_speeds.
  destruct (speed_out_of_range (silent_speed args));
    match goal with
    | |- context [if ?b then _ else _] => destruct b
    end; reflexivity.
Qed.

Lemma early_is_quiet cachedir ev : early_event cachedir ev -> quiet ev.
Proof. destruct ev; cbn; auto. Qed.

Lemma background_is_quiet ev : background ev -> quiet ev.
Proof. destruct ev; cbn; auto. Qed.

(** A computation that adds no strategy call leaves the calls as they
    were. *)
Lemma calls_kept {A} (E : Event -> Prop) X (R : A -> Prop) (m : M os A)
    (st : St os) res st' :
  (forall ev, E ev -> quiet ev) ->
  sat E X R m -> m st = (res, st') -> calls (log st') = calls (log st).
Proof.
  intros HE Hm H. destruct (Hm _ _ _ H) as [(l & Hl & Hf) _].
  rewrite Hl, calls_app, (calls_quiet l), app_nil_r; [reflexivity|].
  eapply Forall_impl; [|exact Hf]. exact HE.
Qed.

End CombineFacts.

(** X26. With [--combine_files], whatever names are bound and however
    the run ends, it makes at most one strategy call, whatever the number
    of inputs, and that call is of the strategy that the decision of lines
    207-266 names for [combined.mp4].  A run that returns has made exactly
    that one call.  With [newOutput] unbound, as in the module as it
    stands, the run makes no call and does not return. *)
Theorem combined_batch_is_one_input :
  forall (os : OS) (g : Globals) (args : Args) (w : World os) res
         (st' : St os),
    combine_files args = true ->
    run os g args w = (res, st') ->
    (calls (log st') = []
     \/ exists c, calls (log st') = [c]
                  /\ strategy_of c
                     = select_strategy args (isAudioFile os "combined.mp4"))
    /\ (res = Ret tt ->
        exists c, calls (log st') = [c]
                  /\ strategy_of c
                     = select_strategy args (isAudioFile os "combined.mp4"))
    /\ (g_newOutput g = None -> calls (log st') = [] /\ res <> Ret tt).
Proof.
  intros os g args w res st' Hcomb H.
  assert (Hstop : forall (r : Res unit) (s1 : St os),
             match r with Ret _ => False | _ => True end ->
             calls (log s1) = [] ->
             (r, s1) = (res, st') ->
             (calls (log st') = []
              \/ exists c, calls (log st') = [c]
                           /\ strategy_of c
                              = select_strategy args
                                  (isAudioFile os "combined.mp4"))
             /\ (res = Ret tt ->
                 exists c, calls (log st') = [c]
                           /\ strategy_of c
                              = select_strategy args
                                  (isAudioFile os "combined.mp4"))
             /\ (g_newOutput g = None ->
                 calls (log st') = [] /\ res <> Ret tt)).
  { intros r s1 Hr Hc Heq. injection Heq as <- <-.
    split; [left; exact Hc|].
    split; [intros Hret; rewrite Hret in Hr; destruct Hr|].
    intros _. split; [exact Hc|]. intros Hret. rewrite Hret in Hr.
    destruct Hr. }
  unfold run, main in H. unfold bind at 1 in H.
  destruct (startup os args (mkSt w [])) as [r1 st1] eqn:Es.
  assert (Hc1 : calls (log st1) = []).
  { rewrite (calls_kept os (early_event (cache os)) _ _ _ _ _ _
               (early_is_quiet (cache os)) (startup_early os args) Es).
    reflexivity. }
  destruct r1 as [ffmpeg|s|e];
    [|(eapply Hstop; [ | | exact H]; [exact I | exact Hc1]) ..].
  cbv zeta in H.
  destruct (input (clamp_speeds args)) as [|f rest];
    [(eapply Hstop; [ | | exact H]; [exact I | exact Hc1])|].
  unfold run_batch in H. unfold bind at 1 in H.
  destruct (resolve os g ffmpeg _ st1) as [r2 st2] eqn:Er.
  assert (Hc2 : calls (log st2) = []).
  { rewrite (calls_kept os (early_event (cache os)) _ _ _ _ _ _
               (early_is_quiet (cache os)) (resolve_early os g ffmpeg _) Er).
    exact Hc1. }
  destruct r2 as [il|s|e];
    [|(eapply Hstop; [ | | exact H]; [exact I | exact Hc2]) ..].
  unfold bind at 1 in H.
  destruct (name_outputs os _ il st2) as [r3 st3] eqn:En.
  assert (Hc3 : calls (log st3) = []).
  { rewrite (calls_kept os background any_status _ _ _ _ _
               background_is_quiet (name_outputs_keeps os _ _ _ _) En).
    exact Hc2. }
  destruct r3 as [args'|s|e];
    [|(eapply Hstop; [ | | exact H]; [exact I | exact Hc3]) ..].
  destruct (name_outputs_keeps os background any_status _ _ _ _ _ En)
    as [_ [outs ->]].
  unfold bind at 1 in H.
  destruct (combine os ffmpeg _ il st3) as [r4 st4] eqn:Ec.
  assert (Hflag : combine_files (set_output_file outs (clamp_speeds args)) = true)
    by (rewrite combine_files_of_batch_args; exact Hcomb).
  assert (Hc4 : calls (log st4) = []).
  { rewrite (calls_kept os background any_status _ _ _ _ _
               background_is_quiet (combine_result os ffmpeg _ il Hflag) Ec).
    exact Hc3. }
  destruct r4 as [il'|s|e];
    [|(eapply Hstop; [ | | exact H]; [exact I | exact Hc4]) ..].
  destruct (combine_result os ffmpeg _ il Hflag _ _ _ Ec) as [_ ->].
  unfold bind at 1 in H.
  destruct (run_preview os ffmpeg f (cache os) _ st4) as [r5 st5] eqn:Ep.
  assert (Hc5 : calls (log st5) = []).
  { rewrite (calls_kept os quiet any_status _ _ _ _ _
               (fun ev Hev => Hev) (run_preview_quiet os ffmpeg f _ _) Ep).
    exact Hc4. }
  destruct r5 as [[]|s|e];
    [|(eapply Hstop; [ | | exact H]; [exact I | exact Hc5]) ..].
  unfold bind at 1, observe at 1 in H.
  unfold bind at 1 in H.
  destruct (process_all os g _ ffmpeg (cache os) ["combined.mp4"] st5)
    as [r6 st6] eqn:El.
  destruct (process_loop_any os g _ ffmpeg (cache os) _ _ _ _ _ El)
    as (l6 & Hl6 & Hsel & _ & Hret & Hun & _).
  cbn [map] in Hsel. rewrite select_strategy_of_batch_args in Hsel.
  assert (Hc6 : calls (log st6) = calls l6)
    by (rewrite Hl6, calls_app, Hc5; reflexivity).
  assert (Hshape : calls l6 = []
                   \/ exists c, calls l6 = [c]
                                /\ strategy_of c
                                   = select_strategy args
                                       (isAudioFile os "combined.mp4")).
  { destruct (calls l6) as [|c [|c' more]].
    - left. reflexivity.
    - right. exists c. split; [reflexivity|].
      cbn in Hsel. injection Hsel as ->. reflexivity.
    - cbn in Hsel. discriminate. }
  destruct r6 as [T|s|e].
  2,3: injection H as <- <-; rewrite Hc6;
       (split; [exact Hshape|]);
       (split; [discriminate|]);
       intros Hn; (split; [exact (proj1 (Hun Hn)) | discriminate]).
  assert (Hone : exists c, calls l6 = [c]
                           /\ strategy_of c
                              = select_strategy args
                                  (isAudioFile os "combined.mp4")).
  { destruct (Hret T eq_refl) as [Hlen _].
    destruct Hshape as [Hnil|Hc]; [rewrite Hnil in Hlen; discriminate|].
    exact Hc. }
  assert (Hc7 : calls (log st') = calls l6).
  { rewrite (calls_kept os background any_status _ _ _ _ _
               background_is_quiet (finish_background os g _ _ _) H).
    exact Hc6. }
  rewrite Hc7.
  split; [right; exact Hone|].
  split; [intros _; exact Hone|].
  intros Hn. destruct (proj2 (Hun Hn) ltac:(discriminate) T eq_refl).
Qed.

Lemma combined_batch_is_one_input_witness :
  let os := Sample.machine (fun _ => Sample.steady) true in
  let disk := Sample.mkDisk ["a.mp4"; "b.mp4"] [] 0 in
  let args := mkArgs ["a.mp4"; "b.mp4"] 4 0.04%float 1%float 99999%float
                (Some []) true 1.01%float true None 48000 "160k" None
                (-8)%float None 0 false false false false false false false
                false in
  let names := Sample.bound_names "out.mp4" ".mp4" in
  let sel := select_strategy args (isAudioFile os "combined.mp4") in
  let r := run os shipped args disk in
  let r' := run os names args disk in
  ((calls (log (snd r)) = []
    \/ exists c, calls (log (snd r)) = [c] /\ strategy_of c = sel)
   /\ (fst r = Ret tt ->
       exists c, calls (log (snd r)) = [c] /\ strategy_of c = sel)
   /\ (g_newOutput shipped = None ->
       calls (log (snd r)) = [] /\ fst r <> Ret tt))
  /\ ((calls (log (snd r')) = []
       \/ exists c, calls (log (snd r')) = [c] /\ strategy_of c = sel)
      /\ (fst r' = Ret tt ->
          exists c, calls (log (snd r')) = [c] /\ strategy_of c = sel)
      /\ (g_newOutput names = None ->
          calls (log (snd r')) = [] /\ fst r' <> Ret tt)).
Proof.
  intros os disk args names sel r r'. split.
  - exact (combined_batch_is_one_input os shipped args disk (fst r) (snd r)
             eq_refl (surjective_pairing r)).
  - exact (combined_batch_is_one_input os names args disk (fst r') (snd r')
             eq_refl (surjective_pairing r')).
Defined.

(** On that machine, with two inputs: with the names bound the run
    returns after one call, of the fast video strategy on [combined.mp4];
    in the module as it stands the two inputs are concatenated and the run
    ends with [NameError] before any call. *)
Lemma concatenation_examples :
  let os := Sample.machine (fun _ => Sample.steady) true in
  let disk := Sample.mkDisk ["a.mp4"; "b.mp4"] [] 0 in
  let args := mkArgs ["a.mp4"; "b.mp4"] 4 0.04%float 1%float 99999%float
                (Some []) true 1.01%float true None 48000 "160k" None
                (-8)%float None 0 false false false false false false false
                false in
  let r := run os shipped args disk in
  let r' := run os (Sample.bound_names "out.mp4" ".mp4") args disk in
  fst r = Raise (NameError "newOutput")
  /\ calls (log (snd r)) = []
  /\ subprocesses (log (snd r))
     = [["ffmpeg"; "-f"; "concat"; "-safe"; "0"; "-i"; "combine_files.txt";
         "-c"; "copy"; "combined.mp4"]]
  /\ fst r' = Ret tt
  /\ map strategy_of (calls (log (snd r'))) = [VideoFast]
  /\ map input_of (calls (log (snd r'))) = ["combined.mp4"].
Proof. repeat split; reflexivity. Qed.

(** ** The maintenance flags without an input *)

(** X27. With [--clear_cache] and no input the run never gets to the
    missing-input error of line 144.  When there is no cache directory
    nothing is removed, [Removed cache.] is printed all the same and the
    run ends with status 0; when there is one, [rmtree] is called on it
    once, and the run ends with status 0 after the printed line when
    [rmtree] returns, with the exception of [rmtree] and nothing printed
    when it raises. *)
Theorem clear_cache_alone_is_no_error :
  forall (os : OS) (g : Globals) (args : Args) (w : World os),
    version_flag args = false ->
    clear_cache args = true ->
    input args = [] ->
    (isdir os w (cache os) = false ->
     run os g args w = (Exit 0, mkSt w [EPrint "Removed cache."]))
    /\ (forall w' : World os,
           isdir os w (cache os) = true ->
           rmtree os (cache os) w = (Done tt, w') ->
           run os g args w
           = (Exit 0, mkSt w' [ERmtree (cache os); EPrint "Removed cache."]))
    /\ (forall (e : exn) (w' : World os),
           isdir os w (cache os) = true ->
           rmtree os (cache os) w = (Fails e, w') ->
           run os g args w = (Raise e, mkSt w' [ERmtree (cache os)])).
Proof.
  intros os g args w Hv Hc Hin.
  assert (Hrun : run os g args w
                 = (let st := @mkSt os w [] in
                    if isdir os w (cache os)
                    then match rmtree os (cache os) w with
                         | (Done _, w') =>
                             (Exit 0, mkSt w' [ERmtree (cache os);
                                               EPrint "Removed cache."])
                         | (Fails e, w') =>
                             (Raise e, mkSt w' [ERmtree (cache os)])
                         end
                    else (Exit 0, mkSt w [EPrint "Removed cache."]))).
  { unfold run, main, startup.
    unfold bind at 1. unfold bind at 1. rewrite Hv. cbn [when].
    unfold ret at 1. unfold bind at 1. rewrite Hc. cbn [when].
    unfold bind at 1, is_dir, observe. cbn [world log].
    destruct (isdir os w (cache os)); cbn [when].
    - unfold bind at 1, outside. cbn [world log].
      destruct (rmtree os (cache os) w) as [[u|e] w']; cbn [res_of_try].
      + rewrite Hin. reflexivity.
      + reflexivity.
    - rewrite Hin. reflexivity. }
  rewrite Hrun. cbv zeta. split; [|split].
  - intros ->. reflexivity.
  - intros w' -> ->. reflexivity.
  - intros e w' -> ->. reflexivity.
Qed.

Lemma clear_cache_alone_is_no_error_witness :
  let os := Sample.machine (fun _ => Sample.steady) true in
  let disk := Sample.mkDisk [] [] 0 in
  let args := mkArgs [] 4 0.04%float 1%float 99999%float None
                false 1.01%float false None 48000 "160k" None (-8)%float None 0
                false false true false false false false false in
  run os shipped args disk = (Exit 0, @mkSt os disk [EPrint "Removed cache."]).
Proof.
  intros os disk args.
  exact (proj1 (clear_cache_alone_is_no_error os shipped args disk
                  eq_refl eq_refl eq_refl) eq_refl).
Defined.

(** X28. With [--debug] and no input, and none of [--version] and
    [--clear_cache], the run prints the four lines of the report and ends
    with status 0: the missing input is no error then, and nothing outside
    is changed.  The path in the report is the ffmpeg that lines 121-129
    chose. *)
Theorem debug_alone_is_no_error :
  forall (os : OS) (g : Globals) (args : Args) (w : World os),
    version_flag args = false ->
    clear_cache args = false ->
    debug args = true ->
    input args = [] ->
    exists ffmpeg,
      choose_ffmpeg os args (mkSt w []) = (Ret ffmpeg, mkSt w [])
      /\ run os g args w
         = (Exit 0,
            mkSt w [EPrint ("Python Version: " ++ python_version os ++ " "
                            ++ (if maxsize_above_2_32 os
                                then "64-bit" else "32-bit"));
                    EPrint ("Platform: " ++ platform_system os);
                    EPrint ("FFmpeg path: " ++ ffmpeg);
                    EPrint ("Auto-Editor version " ++ version)]).
Proof.
  intros os g args w Hv Hc Hd Hin.
  destruct (choose_ffmpeg_result os args (mkSt w [])) as (p & Hp & _).
  exists p. split; [exact Hp|].
  unfold run, main, startup.
  unfold bind at 1. unfold bind at 1. rewrite Hv. cbn [when].
  unfold ret at 1. unfold bind at 1. rewrite Hc. cbn [when]. unfold ret at 1.
  unfold bind at 1. rewrite Hp.
  unfold bind at 1, debug_report. rewrite Hd. cbn [when]. cbv zeta.
  rewrite Hin. reflexivity.
Qed.

Lemma debug_alone_is_no_error_witness :
  let os := Sample.machine (fun _ => Sample.steady) true in
  let disk := Sample.mkDisk [] [] 0 in
  let args := mkArgs [] 4 0.04%float 1%float 99999%float None
                false 1.01%float false None 48000 "160k" None (-8)%float None 0
                false false false false false true false false in
  exists ffmpeg,
    choose_ffmpeg os args (@mkSt os disk []) = (Ret ffmpeg, @mkSt os disk [])
    /\ run os shipped args disk
       = (Exit 0,
          @mkSt os disk
            [EPrint ("Python Version: " ++ python_version os ++ " "
                     ++ (if maxsize_above_2_32 os then "64-bit" else "32-bit"));
             EPrint ("Platform: " ++ platform_system os);
             EPrint ("FFmpeg path: " ++ ffmpeg);
             EPrint ("Auto-Editor version " ++ version)]).
Proof.
  intros os disk args.
  exact (debug_alone_is_no_error os shipped args disk
           eq_refl eq_refl eq_refl eq_refl).
Defined.
